(** * just-in-case: session polling, analysis reconciliation and the
      backend-forwarding boundary

    A shallow embedding of the stateful parts of the Next.js frontend:

    - [Js]: JSON values as the handlers see them after [response.json()],
      with the JavaScript coercions the code relies on (truthiness, [??],
      [ToString], object spread), and completions for [try]/[catch].
    - [Boundary]: [lib/backend.ts] ([forwardToBackend], [parseJsonResponse])
      and the three route handlers under [app/api].
    - [Polling]: the session state, [fetchSessionStatus], the polling effect
      and [statusDescription] of [app/company/[slug]/page.tsx].
    - [Reconciler]: [normalizeResponse], the [fetchAnalysis] effect and
      [renderContent] of the interview analysis page.

    Definitions come first; the facts proved about them follow. *)

From stdpp Require Import gmap strings list fin_maps pretty.
From Stdlib Require Import ZArith String Ascii Lia.
Set Warnings "-register-all".
Local Open Scope string_scope.

(* ===================================================================== *)
(** ** JavaScript values and coercions *)
(* ===================================================================== *)

Module Js.

(** A value produced by [JSON.parse]. A number is kept as the text that
    [Number.prototype.toString] gives for it (["0"] for both zeros); the
    code never computes with payload numbers, it only tests and prints
    them. An object is a finite map from keys to values. *)
Inductive json :=
  | JNull
  | JBool (b : bool)
  | JNum (repr : string)
  | JStr (s : string)
  | JArr (l : list json)
  | JObj (m : gmap string json).

(** [!!v]: what [if (v)] and [!v] test. *)
Definition truthy (v : json) : bool :=
  match v with
  | JNull => false
  | JBool b => b
  | JNum r => negb (String.eqb r "0")
  | JStr s => negb (String.eqb s "")
  | JArr _ | JObj _ => true
  end.

(** A possibly [undefined] value: [None] is [undefined]. *)
Definition truthy_opt (v : option json) : bool :=
  match v with Some x => truthy x | None => false end.

(** [a ?? b]: [b] when [a] is [undefined] or [null]. *)
Definition nullish (a b : option json) : option json :=
  match a with
  | None | Some JNull => b
  | Some _ => a
  end.

(** [ToString] goes through: an object of parsed JSON that carries its own
    [toString] entry (never a function) has nothing left to convert it:
    the inherited [valueOf] answers the object itself, and the conversion
    throws a [TypeError]. An array converts through [join], which converts
    its elements ([null] apart). The same holds for [ToPropertyKey], for a
    template literal and for [new Date(v)]. *)
Fixpoint converts (v : json) : bool :=
  match v with
  | JObj m => negb (bool_decide (is_Some (m !! "toString")))
  | JArr l => forallb converts l
  | JNull | JBool _ | JNum _ | JStr _ => true
  end.

Definition converts_opt (v : option json) : bool :=
  match v with Some x => converts x | None => true end.

(** The message of the [TypeError] of a conversion that does not go
    through; the exact text is the runtime's. *)
Definition conversion_error_message : string := "Cannot convert object to primitive value".

(** [ToString], where it goes through. Array elements that are [null]
    print as the empty string, as [Array.prototype.join] has it. An object
    prints through [Object.prototype.toString]. *)
Fixpoint to_string (v : json) : string :=
  match v with
  | JNull => "null"
  | JBool true => "true"
  | JBool false => "false"
  | JNum r => r
  | JStr s => s
  | JArr l =>
      String.concat ","
        (List.map (fun x => match x with JNull => "" | _ => to_string x end) l)
  | JObj _ => "[object Object]"
  end.

(** The message of what [throw new Error(v)] throws: the [Error] with the
    text of [v], or the [TypeError] of the conversion. Either is an
    [Error]. *)
Definition error_message_of (v : json) : string :=
  if converts v then to_string v else conversion_error_message.

(** A value React accepts as a child: texts and numbers are printed,
    [null], [undefined] and booleans print nothing, an array prints its
    elements; for an object React throws. *)
Fixpoint renderable (v : json) : bool :=
  match v with
  | JObj _ => false
  | JArr l => forallb renderable l
  | JNull | JBool _ | JNum _ | JStr _ => true
  end.

Definition renderable_opt (v : option json) : bool :=
  match v with Some x => renderable x | None => true end.

(** A number outside the range of doubles is read as an infinity. *)
Definition finite (repr : string) : bool :=
  negb (String.eqb repr "Infinity" || String.eqb repr "-Infinity" || String.eqb repr "NaN").

(** What [JSON.parse] reads back from [JSON.stringify(v)]: the value
    itself, but for a number that is not finite, which is written as
    [null]. *)
Fixpoint stringified (v : json) : json :=
  match v with
  | JNum r => if finite r then v else JNull
  | JArr l => JArr (List.map stringified l)
  | JObj m => JObj (stringified <$> m)
  | JNull | JBool _ | JStr _ => v
  end.

(** Every number in the value is finite. *)
Fixpoint all_finite (v : json) : bool :=
  match v with
  | JNum r => finite r
  | JArr l => forallb all_finite l
  | JObj m => map_fold (fun _ x acc => all_finite x && acc) true m
  | JNull | JBool _ | JStr _ => true
  end.

(** The number of nodes of a value. *)
Fixpoint json_size (v : json) : nat :=
  match v with
  | JArr l => S (list_sum (List.map json_size l))
  | JObj m => S (map_fold (fun _ x acc => json_size x + acc) 0 m)
  | JNull | JBool _ | JNum _ | JStr _ => 1
  end.

(** [ToPropertyKey] of a possibly [undefined] value, where it goes
    through. *)
Definition to_property_key (v : option json) : string :=
  match v with Some x => to_string x | None => "undefined" end.

Definition chars (s : string) : list json :=
  (fun a => JStr (String a EmptyString)) <$> String.list_ascii_of_string s.

Definition indexed (l : list json) : gmap string json :=
  list_to_map (imap (fun i x => (pretty i, x)) l).

(** The own enumerable properties of a value: what [{...v}] copies. An
    array and a string spread their elements under decimal index keys
    (strings by character, which is exact for ASCII text); the other
    primitives have none. *)
Definition own_props (v : json) : gmap string json :=
  match v with
  | JObj m => m
  | JArr l => indexed l
  | JStr s => indexed (chars s)
  | JNull | JBool _ | JNum _ => ∅
  end.

(** [v.k] and [v?.k] for the property names the code reads (none of them
    an index, [length] or a name found on a prototype): the own property
    or [undefined]. *)
Definition get (v : json) (k : string) : option json := own_props v !! k.

(** [{...a, ...b}]: the properties of [a], then those of [b] over them. *)
Definition spread (a b : json) : json := JObj (own_props b ∪ own_props a).

(** [Object.is] on two dependency values that are parsed JSON. Primitives
    compare by content. Arrays and objects compare by identity, which the
    embedding does not track: they count as changed. That is exact for a
    value that comes out of a new parse; an object that a spread carries
    over from the session held is the same object, and there the real
    effect is not run again. The dependencies compared this way are
    strings in every well-typed session, and the facts that say an effect
    runs again take values that differ in content. *)
Definition object_is (a b : option json) : bool :=
  match a, b with
  | None, None => true
  | Some JNull, Some JNull => true
  | Some (JBool x), Some (JBool y) => Bool.eqb x y
  | Some (JNum x), Some (JNum y) => String.eqb x y
  | Some (JStr x), Some (JStr y) => String.eqb x y
  | _, _ => false
  end.

(** What a [throw] carries: an [Error] object with its message, or any
    other value ([instanceof Error] is false for it). *)
Inductive thrown :=
  | ErrorObj (message : string)
  | NotAnError.

(** How a block ends: normally with a value, or by throwing. *)
Inductive completion (A : Type) :=
  | Normal (a : A)
  | Throw (e : thrown).
Arguments Normal {A} a.
Arguments Throw {A} e.

Definition bind {A B} (c : completion A) (k : A -> completion B) : completion B :=
  match c with
  | Normal a => k a
  | Throw e => Throw e
  end.

(** [try { body } catch (e) { handler }]. *)
Definition try_catch {A} (body : completion A) (handler : thrown -> completion A)
  : completion A :=
  match body with
  | Normal a => Normal a
  | Throw e => handler e
  end.

(** [err instanceof Error ? err.message : fallback]. *)
Definition message_or (e : thrown) (fallback : string) : string :=
  match e with
  | ErrorObj m => m
  | NotAnError => fallback
  end.

(** What [fetch] settles to: a rejection (network failure), or a response
    with its status code and its body; the body is [None] when
    [response.json()] rejects (not JSON, or the read fails). *)
Inductive outcome :=
  | Rejected (e : thrown)
  | Responded (status : Z) (body : option json).

(** [response.ok]. *)
Definition ok (status : Z) : bool := (200 <=? status)%Z && (status <=? 299)%Z.

End Js.

(* ===================================================================== *)
(** ** The backend-forwarding boundary *)
(* ===================================================================== *)

Module Boundary.
Import Js.

(** The request handed to [fetch]. *)
Record request := {
  url : string;
  method : option string;
  body : option json
}.

(** The response a route handler returns through [NextResponse.json]. *)
Record http_response := {
  res_status : Z;
  res_body : json
}.

(** Statuses for which the [Response] constructor refuses a body. *)
Definition null_body_status (s : Z) : bool :=
  bool_decide (s ∈ [101; 103; 204; 205; 304]%Z).

(** The message of the error thrown for a refused response status; the
    exact text is the runtime's. *)
Definition bad_status_message : string := "Response constructor: Invalid response status code".

(** [NextResponse.json(payload, { status })]: the body is
    [JSON.stringify(payload)], kept here as the value a reader parses from
    it. The [Response] constructor behind it throws a [RangeError] for a
    status outside 200..599 and a [TypeError] for a null-body status, the
    body being non-null here. *)
Definition NextResponse_json (payload : json) (status : Z) : completion http_response :=
  if negb ((200 <=? status)%Z && (status <=? 599)%Z) then Throw (ErrorObj bad_status_message)
  else if null_body_status status then Throw (ErrorObj bad_status_message)
  else Normal {| res_status := status; res_body := stringified payload |}.

(** The status can be handed to [NextResponse.json] with a body. *)
Definition accepts_body (status : Z) : bool :=
  (200 <=? status)%Z && (status <=? 599)%Z && negb (null_body_status status).

Definition DEFAULT_BASE_URL : string := "http://localhost:8000".

Section Routes.

(** [process.env.BACKEND_BASE_URL] and the standard [encodeURIComponent]. *)
Variable env_BACKEND_BASE_URL : option string.
Variable encodeURIComponent : string -> string.

(** The upstream backend as [fetch] sees it. *)
Variable backend : request -> outcome.

Definition BACKEND_BASE_URL : string :=
  match env_BACKEND_BASE_URL with Some u => u | None => DEFAULT_BASE_URL end.

Definition parseJsonResponse (body : option json) : json :=
  match body with
  | Some j => j
  | None => JObj {[ "message" := JStr "Unexpected backend response" ]}
  end.

(** Returns the upstream status with the parsed payload; a rejected
    [fetch] propagates. *)
Definition forwardToBackend (path : string) (method : option string) (body : option json)
  : completion (Z * json) :=
  match backend {| url := BACKEND_BASE_URL ++ path; method := method; body := body |} with
  | Rejected e => Throw e
  | Responded status b => Normal (status, parseJsonResponse b)
  end.

Definition unreachable_envelope (e : thrown) : json :=
  JObj {[ "message" := JStr "Unable to reach backend service";
          "details" := JStr (message_or e "unknown error") ]}.

(** The [try]/[catch] shared by the three handlers. *)
Definition relay (path : string) (method : option string) (body : option json)
  : completion http_response :=
  try_catch
    (bind (forwardToBackend path method body)
          (fun '(status, payload) => NextResponse_json payload status))
    (fun e => NextResponse_json (unreachable_envelope e) 502).

(** [POST /api/interview-sessions]; [None] is a request body that is not
    JSON. The body sent upstream is [JSON.stringify(payload)]. *)
Definition POST_sessions (request_body : option json) : completion http_response :=
  match request_body with
  | None => NextResponse_json (JObj {[ "message" := JStr "Invalid JSON payload" ]}) 400
  | Some payload => relay "/api/sessions" (Some "POST") (Some (stringified payload))
  end.

(** [POST /api/interview-sessions/[sessionId]/start]. *)
Definition POST_start (sessionId : string) : completion http_response :=
  if String.eqb sessionId "" then
    NextResponse_json (JObj {[ "message" := JStr "Session ID is required" ]}) 400
  else relay ("/api/sessions/" ++ sessionId ++ "/start") (Some "POST") None.

(** [GET /api/interview-analysis/[conversationId]]. *)
Definition GET_analysis (conversationId : option string) : completion http_response :=
  match conversationId with
  | None => NextResponse_json (JObj {[ "message" := JStr "conversationId is required" ]}) 400
  | Some c =>
      if String.eqb c "" then
        NextResponse_json (JObj {[ "message" := JStr "conversationId is required" ]}) 400
      else relay ("/api/interviews/" ++ encodeURIComponent c ++ "/analysis") None None
  end.

End Routes.

(** An inbound control request, by the route it reaches. *)
Inductive inbound :=
  | CreateSession (request_body : option json)
  | StartAgent (sessionId : string)
  | GetAnalysis (conversationId : option string).

Definition handle (env : option string) (enc : string -> string)
    (backend : request -> outcome) (r : inbound) : completion http_response :=
  match r with
  | CreateSession b => POST_sessions env backend b
  | StartAgent s => POST_start env backend s
  | GetAnalysis c => GET_analysis env enc backend c
  end.

(** The request reaches the upstream: it passed the handler's own
    validation of its input. *)
Definition forwarded (r : inbound) : bool :=
  match r with
  | CreateSession b => bool_decide (is_Some b)
  | StartAgent s => negb (String.eqb s "")
  | GetAnalysis c => match c with Some s => negb (String.eqb s "") | None => false end
  end.

End Boundary.

(* ===================================================================== *)
(** ** The status polling client (company page) *)
(* ===================================================================== *)

Module Polling.
Import Js.

Definition SESSION_STATUS_LABELS : gmap string string :=
  list_to_map [
    ("room_created", "Room ready — join the link below when you're set.");
    ("bot_starting", "Summoning the AI interviewer...");
    ("bot_running", "AI interviewer is live in the room.");
    ("bot_stopping", "Wrapping up the session...");
    ("bot_completed", "Session completed.");
    ("bot_error", "Something went wrong starting the AI. Try again.")
  ].

(** The six statuses of the session state machine. *)
Definition known_statuses : list string :=
  ["room_created"; "bot_starting"; "bot_running"; "bot_stopping";
   "bot_completed"; "bot_error"].

Definition pollableStatuses : list string :=
  ["bot_starting"; "bot_running"; "bot_stopping"].


(** Names every object literal inherits from [Object.prototype]. *)
Definition object_prototype_names : list string :=
  ["constructor"; "hasOwnProperty"; "isPrototypeOf"; "propertyIsEnumerable";
   "toLocaleString"; "toString"; "valueOf"; "__proto__";
   "__defineGetter__"; "__defineSetter__"; "__lookupGetter__"; "__lookupSetter__"].

(** The result of [table[key]] on an object literal of strings: an own
    entry, a value found on the prototype (a function, or the prototype
    itself), or [undefined]. *)
Inductive property :=
  | Own (text : string)
  | Inherited (name : string)
  | Absent.

Definition record_get (table : gmap string string) (key : string) : property :=
  match table !! key with
  | Some text => Own text
  | None => if bool_decide (key ∈ object_prototype_names) then Inherited key else Absent
  end.

(** What ends up in the status paragraph: a text, or a value taken from
    the prototype (not a text; React does not print it); or the lookup
    throws, the status being a value that does not convert to a property
    key. *)
Inductive shown :=
  | Text (s : string)
  | PrototypeValue (name : string)
  | LookupThrows.

(** [session ? SESSION_STATUS_LABELS[session.status] ?? "Updating session..." : null] *)
Definition statusDescription (session : option json) : option shown :=
  match session with
  | Some s =>
      if truthy s then
        if negb (converts_opt (get s "status")) then Some LookupThrows
        else
          Some match record_get SESSION_STATUS_LABELS (to_property_key (get s "status")) with
               | Own text => Text text
               | Inherited n => PrototypeValue n
               | Absent => Text "Updating session..."
               end
      else None
  | None => None
  end.

(** [pollableStatuses.includes(session.status)] *)
Definition pollable (status : option json) : bool :=
  match status with
  | Some (JStr s) => bool_decide (s ∈ pollableStatuses)
  | _ => false
  end.

(** A request in flight, by the handler that awaits it; a status request
    remembers the [sessionId] it was issued for. *)
Inductive request :=
  | ReqCreate
  | ReqStart
  | ReqStatus (sessionId : option json).

(** The interval the polling effect holds: [setInterval(poll, period)],
    where [poll] calls the [fetchSessionStatus] that captured [target] as
    [session?.sessionId]. *)
Record timer := {
  period : Z;
  next_due : Z;
  target : option json
}.

(** The component: its state variables, the interval of the polling
    effect, a clock in milliseconds, the requests in flight, and counters
    for the status fetches issued and for [console.error] calls. *)
Record page := {
  interviews : nat;
  selectedInterview : nat;
  session : option json;
  isCreatingSession : bool;
  isStartingBot : bool;
  errorMessage : option string;
  interval : option timer;
  clock : Z;
  inflight : list request;
  status_fetches : nat;
  logged : nat
}.

Definition with_session (s : option json) (p : page) : page :=
  {| interviews := interviews p; selectedInterview := selectedInterview p;
     session := s; isCreatingSession := isCreatingSession p;
     isStartingBot := isStartingBot p; errorMessage := errorMessage p;
     interval := interval p; clock := clock p; inflight := inflight p;
     status_fetches := status_fetches p; logged := logged p |}.

Definition with_interval (t : option timer) (p : page) : page :=
  {| interviews := interviews p; selectedInterview := selectedInterview p;
     session := session p; isCreatingSession := isCreatingSession p;
     isStartingBot := isStartingBot p; errorMessage := errorMessage p;
     interval := t; clock := clock p; inflight := inflight p;
     status_fetches := status_fetches p; logged := logged p |}.

Definition with_clock (now : Z) (p : page) : page :=
  {| interviews := interviews p; selectedInterview := selectedInterview p;
     session := session p; isCreatingSession := isCreatingSession p;
     isStartingBot := isStartingBot p; errorMessage := errorMessage p;
     interval := interval p; clock := now; inflight := inflight p;
     status_fetches := status_fetches p; logged := logged p |}.

Definition with_inflight (l : list request) (p : page) : page :=
  {| interviews := interviews p; selectedInterview := selectedInterview p;
     session := session p; isCreatingSession := isCreatingSession p;
     isStartingBot := isStartingBot p; errorMessage := errorMessage p;
     interval := interval p; clock := clock p; inflight := l;
     status_fetches := status_fetches p; logged := logged p |}.

Definition with_flags (creating starting : bool) (msg : option string) (p : page) : page :=
  {| interviews := interviews p; selectedInterview := selectedInterview p;
     session := session p; isCreatingSession := creating;
     isStartingBot := starting; errorMessage := msg;
     interval := interval p; clock := clock p; inflight := inflight p;
     status_fetches := status_fetches p; logged := logged p |}.

Definition with_selected (i : nat) (p : page) : page :=
  {| interviews := interviews p; selectedInterview := i;
     session := session p; isCreatingSession := isCreatingSession p;
     isStartingBot := isStartingBot p; errorMessage := errorMessage p;
     interval := interval p; clock := clock p; inflight := inflight p;
     status_fetches := status_fetches p; logged := logged p |}.

(** [console.error(...)] *)
Definition log (p : page) : page :=
  {| interviews := interviews p; selectedInterview := selectedInterview p;
     session := session p; isCreatingSession := isCreatingSession p;
     isStartingBot := isStartingBot p; errorMessage := errorMessage p;
     interval := interval p; clock := clock p; inflight := inflight p;
     status_fetches := status_fetches p; logged := S (logged p) |}.

(** [session?.k] *)
Definition session_get (s : option json) (k : string) : option json :=
  match s with Some v => get v k | None => None end.

(** A [sessionId] for which a status request goes out: it is truthy and
    the template literal of the request path can convert it. *)
Definition fetchable (sessionId : option json) : bool :=
  truthy_opt sessionId && converts_opt sessionId.

(** [fetchSessionStatus] up to its [await fetch(...)]: nothing without a
    [sessionId]; else one status request goes out, unless the template
    literal of its path throws, which the [catch] logs. *)
Definition fetchSessionStatus_start (sessionId : option json) (p : page) : page :=
  if negb (truthy_opt sessionId) then p
  else if negb (converts_opt sessionId) then log p
  else
    {| interviews := interviews p; selectedInterview := selectedInterview p;
       session := session p; isCreatingSession := isCreatingSession p;
       isStartingBot := isStartingBot p; errorMessage := errorMessage p;
       interval := interval p; clock := clock p;
       inflight := inflight p ++ [ReqStatus sessionId];
       status_fetches := S (status_fetches p); logged := logged p |}.

Definition poll := fetchSessionStatus_start.

Definition POLL_INTERVAL : Z := 4000.

(** The cleanup the polling effect returned: [clearInterval(intervalId)]. *)
Definition effect_cleanup (p : page) : page := with_interval None p.

(** The body of the polling effect. *)
Definition effect_body (p : page) : page :=
  if negb (truthy_opt (session_get (session p) "sessionId")) then p
  else if negb (pollable (session_get (session p) "status")) then p
  else
    let sid := session_get (session p) "sessionId" in
    let p1 := poll sid p in
    with_interval
      (Some {| period := POLL_INTERVAL; next_due := clock p + POLL_INTERVAL; target := sid |})
      p1.

(** The dependencies of the polling effect: [session?.sessionId],
    [session?.status], and [fetchSessionStatus], which changes exactly
    when the first does. *)
Definition deps (s : option json) : option json * option json :=
  (session_get s "sessionId", session_get s "status").

Definition deps_same (a b : option json * option json) : bool :=
  object_is a.1 b.1 && object_is a.2 b.2.

(** [setSession(update)] followed by the commit: when a dependency
    changed, the old effect is cleaned up and the effect runs again. *)
Definition setSession (update : option json -> option json) (p : page) : page :=
  let p1 := with_session (update (session p)) p in
  if deps_same (deps (session p)) (deps (session p1)) then p1
  else effect_body (effect_cleanup p1).

(** [(prev) => (prev ? { ...prev, ...data } : data)] *)
Definition merge (data : json) (prev : option json) : option json :=
  match prev with
  | Some v => if truthy v then Some (spread v data) else Some data
  | None => Some data
  end.

(** [parseJsonSafe] *)
Definition parseJsonSafe (body : option json) : json :=
  match body with Some j => j | None => JNull end.

(** [fetchSessionStatus] from the point where [fetch] settles. *)
Definition fetchSessionStatus_resume (o : outcome) (p : page) : completion page :=
  try_catch
    match o with
    | Rejected e => Throw e
    | Responded status body =>
        if negb (ok status) then Normal p
        else
          let data := parseJsonSafe body in
          if negb (truthy data) then Normal p
          else Normal (setSession (merge data) p)
    end
    (fun _ => Normal (log p)).

(** The message of what [throw new Error(data?.detail ?? data?.message ?? fallback)]
    throws. *)
Definition failure_message (data : json) (fallback : string) : string :=
  match nullish (get data "detail") (nullish (get data "message") (Some (JStr fallback))) with
  | Some v => error_message_of v
  | None => ""
  end.

(** [handleCreateSession] up to its [await fetch(...)]. *)
Definition handleCreateSession_start (p : page) : page :=
  if negb (Nat.ltb (selectedInterview p) (interviews p)) then p
  else with_inflight (inflight p ++ [ReqCreate])
         (with_flags true (isStartingBot p) None p).

(** [handleCreateSession] from the point where [fetch] settles. *)
Definition handleCreateSession_resume (o : outcome) (p : page) : completion page :=
  bind
    (try_catch
       match o with
       | Rejected e => Throw e
       | Responded status body =>
           let data := parseJsonSafe body in
           if negb (ok status) then
             Throw (ErrorObj (failure_message data "Unable to start interview."))
           else if negb (truthy data) then
             Throw (ErrorObj "Unexpected response from server while starting the interview.")
           else Normal (setSession (fun _ => Some data) p)
       end
       (fun err =>
          Normal (with_flags (isCreatingSession p) (isStartingBot p)
                    (Some (message_or err "Unable to start interview.")) p)))
    (fun p1 => Normal (with_flags false (isStartingBot p1) (errorMessage p1) p1)).

(** [handleStartBot] up to its [await fetch(...)]. When the template
    literal of the request path throws, no request goes out: the [catch]
    stores the message and the [finally] lowers the flag at once. *)
Definition handleStartBot_start (p : page) : page :=
  match session p with
  | None => p
  | Some s =>
      if negb (truthy s) then p
      else if negb (converts_opt (get s "sessionId")) then
        with_flags (isCreatingSession p) false (Some conversion_error_message) p
      else with_inflight (inflight p ++ [ReqStart])
             (with_flags (isCreatingSession p) true None p)
  end.

(** [handleStartBot] from the point where [fetch] settles. *)
Definition handleStartBot_resume (o : outcome) (p : page) : completion page :=
  bind
    (try_catch
       match o with
       | Rejected e => Throw e
       | Responded status body =>
           let data := parseJsonSafe body in
           if negb (ok status) then
             Throw (ErrorObj (failure_message data "Unable to bring the AI into the room."))
           else if negb (truthy data) then
             Throw (ErrorObj "Unexpected response from server while starting the AI.")
           else Normal (setSession (merge data) p)
       end
       (fun err =>
          Normal (with_flags (isCreatingSession p) (isStartingBot p)
                    (Some (message_or err "Unable to bring the AI into the room. Try again.")) p)))
    (fun p1 => Normal (with_flags (isCreatingSession p1) false (errorMessage p1) p1)).

(** Choosing another interview tab: the reset effect clears the flow. *)
Definition selectInterview (i : nat) (p : page) : page :=
  if Nat.eqb i (selectedInterview p) then p
  else
    let p1 := setSession (fun _ => None) (with_selected i p) in
    with_flags false false None p1.

(** [n] firings of the interval callback. *)
Fixpoint fire (n : nat) (sid : option json) (p : page) : page :=
  match n with
  | O => p
  | S n' => fire n' sid (poll sid p)
  end.

(** How many times an interval has come due by [now]. *)
Definition due_count (t : timer) (now : Z) : nat :=
  if (next_due t <=? now)%Z then Z.to_nat ((now - next_due t) / period t + 1) else 0.

(** [dt] milliseconds pass with no response arriving: the interval, if
    any, fires each time it comes due. *)
Definition tick (dt : Z) (p : page) : page :=
  let now := (clock p + dt)%Z in
  match interval p with
  | None => with_clock now p
  | Some t =>
      let n := due_count t now in
      with_clock now
        (with_interval
           (Some {| period := period t; next_due := next_due t + Z.of_nat n * period t;
                    target := target t |})
           (fire n (target t) p))
  end.

(** Time passing in several steps, and the time passed in all. *)
Definition ticks (dts : list Z) (p : page) : page := foldl (fun q dt => tick dt q) p dts.


Definition remove_request (k : nat) (p : page) : page :=
  with_inflight (take k (inflight p) ++ drop (S k) (inflight p)) p.

Inductive event :=
  | ClickCreate
  | ClickStart
  | SelectInterview (i : nat)
  | Tick (dt : Z)
  | Response (k : nat) (o : outcome).

Definition settle (c : completion page) : option page :=
  match c with Normal p => Some p | Throw _ => None end.

(** One event of the page. [None]: the event cannot happen in this state
    (no such request in flight, time running backwards). *)
Definition step (e : event) (p : page) : option page :=
  match e with
  | ClickCreate => Some (handleCreateSession_start p)
  | ClickStart => Some (handleStartBot_start p)
  | SelectInterview i => Some (selectInterview i p)
  | Tick dt => if (dt <? 0)%Z then None else Some (tick dt p)
  | Response k o =>
      match inflight p !! k with
      | None => None
      | Some ReqCreate => settle (handleCreateSession_resume o (remove_request k p))
      | Some ReqStart => settle (handleStartBot_resume o (remove_request k p))
      | Some (ReqStatus _) => settle (fetchSessionStatus_resume o (remove_request k p))
      end
  end.

Fixpoint run (es : list event) (p : page) : option page :=
  match es with
  | [] => Some p
  | e :: es' => match step e p with Some p' => run es' p' | None => None end
  end.

(** The page as first rendered for a company with [n] interview types. *)
Definition initial (n : nat) : page :=
  {| interviews := n; selectedInterview := 0; session := None;
     isCreatingSession := false; isStartingBot := false; errorMessage := None;
     interval := None; clock := 0; inflight := []; status_fetches := 0; logged := 0 |}.

(** A status fetch that failed: the request was rejected, the status is
    not a success, or the body is not JSON or parses to a falsy value. *)
Definition failed (o : outcome) : bool :=
  match o with
  | Rejected _ => true
  | Responded status body => negb (ok status) || negb (truthy (parseJsonSafe body))
  end.

(** The polling effect matches the session: an interval is held exactly
    when the session has a [sessionId] and a pollable status. *)
Definition wants_polling (s : option json) : bool :=
  truthy_opt (session_get s "sessionId") && pollable (session_get s "status").

Definition synced (p : page) : Prop :=
  match interval p with
  | Some t =>
      wants_polling (session p) = true /\ period t = POLL_INTERVAL /\
      target t = session_get (session p) "sessionId" /\ (clock p < next_due t)%Z
  | None => wants_polling (session p) = false
  end.

(** The session held is [null] or a truthy value. *)
Definition session_truthy (p : page) : Prop :=
  forall s, session p = Some s -> truthy s = true.

(** A session snapshot as the backend answers it, and the page after the
    consumer created a session that came back with a given status. *)
Definition snapshot (status : string) : json :=
  JObj {[ "sessionId" := JStr "s1"; "status" := JStr status;
          "roomUrl" := JStr "https://x.daily.co/r1" ]}.

Definition create_session (status : string) : list event :=
  [ClickCreate; Response 0 (Responded 200 (Some (snapshot status)))].

Definition page_after (es : list event) : page :=
  match run es (initial 1) with Some p => p | None => initial 1 end.






End Polling.

(* ===================================================================== *)
(** ** Text helpers and the company links of the landing page *)
(* ===================================================================== *)

Module Text.

(** A string is its sequence of bytes (UTF-8). *)

(** [toLowerCase] on one byte: the ASCII capitals move to their small
    letters, every other byte stays. (For text outside ASCII the real
    function maps letters to letters outside ASCII, with two exceptions,
    the Kelvin sign and the dotted capital I.) *)
Definition lower_ascii (a : ascii) : ascii :=
  let n := nat_of_ascii a in
  if Nat.leb 65 n && Nat.leb n 90 then ascii_of_nat (n + 32) else a.

Fixpoint toLowerCase (s : string) : string :=
  match s with
  | EmptyString => EmptyString
  | String a rest => String (lower_ascii a) (toLowerCase rest)
  end.

(** [s.includes(pat)] *)
Fixpoint includes (s pat : string) : bool :=
  String.prefix pat s ||
  match s with
  | EmptyString => false
  | String _ rest => includes rest pat
  end.

(** The class [[a-z0-9]]. *)
Definition is_slug_char (a : ascii) : bool :=
  let n := nat_of_ascii a in
  (Nat.leb 97 n && Nat.leb n 122) || (Nat.leb 48 n && Nat.leb n 57).

Definition is_dash (a : ascii) : bool := Ascii.eqb a "-"%char.

(** [s.replace(/[^a-z0-9]+/g, '-')]: every maximal run of other bytes
    becomes one dash; [in_run] tells that the run has begun. *)
Fixpoint dashes (in_run : bool) (s : string) : string :=
  match s with
  | EmptyString => EmptyString
  | String a rest =>
      if is_slug_char a then String a (dashes false rest)
      else if in_run then dashes true rest
      else String "-"%char (dashes true rest)
  end.

(** The [^-+] half of [s.replace(/^-+|-+$/g, '')]. *)
Fixpoint strip_start (s : string) : string :=
  match s with
  | EmptyString => EmptyString
  | String a rest => if is_dash a then strip_start rest else s
  end.

(** The [-+$] half. *)
Fixpoint strip_end (s : string) : string :=
  match s with
  | EmptyString => EmptyString
  | String a rest =>
      match strip_end rest with
      | EmptyString => if is_dash a then EmptyString else String a EmptyString
      | r => String a r
      end
  end.

(** The link of a featured company:
    [name.toLowerCase().replace(/[^a-z0-9]+/g, '-').replace(/^-+|-+$/g, '')]. *)
Definition slug (name : string) : string :=
  strip_end (strip_start (dashes false (toLowerCase name))).

Definition company_href (name : string) : string := "/company/" ++ slug name.

(** Slug bytes and single dashes only; [after_dash] tells that a dash
    came just before (or that none may come first). *)
Fixpoint shaped (after_dash : bool) (t : string) : bool :=
  match t with
  | EmptyString => true
  | String a rest =>
      if is_slug_char a then shaped false rest
      else is_dash a && negb after_dash && shaped true rest
  end.

(** The last byte, if any, is no dash. *)
Fixpoint ends_clean (t : string) : bool :=
  match t with
  | EmptyString => true
  | String a EmptyString => negb (is_dash a)
  | String _ rest => ends_clean rest
  end.

(** A clean slug: small letters and digits, joined by single dashes, with
    no dash at either end. *)
Definition clean_slug (t : string) : bool := shaped true t && ends_clean t.

End Text.

(* ===================================================================== *)
(** ** The analysis retrieval reconciler (interview analysis page) *)
(* ===================================================================== *)

Module Reconciler.
Import Js Text.

(** The client view of an analysis. A field the payload lacks is
    [undefined] ([None]); [analysis] is never [undefined]. *)
Record AnalysisStatus := {
  conversationId : option json;
  status : option json;
  updatedAt : option json;
  analysis : json
}.

(** [v ?? null] *)
Definition or_null (v : option json) : json :=
  match v with
  | None | Some JNull => JNull
  | Some x => x
  end.

(** The message of the [TypeError] for a property read on [null]; the
    exact text is the runtime's. *)
Definition null_read_message : string := "Cannot read properties of null".

(** [normalizeResponse]. Reading a property of [null] throws; of any other
    JSON value it gives the property or [undefined]. *)
Definition normalizeResponse (data : json) : completion AnalysisStatus :=
  match data with
  | JNull => Throw (ErrorObj null_read_message)
  | _ =>
      Normal {| conversationId := get data "conversation_id";
                status := get data "status";
                updatedAt := get data "updated_at";
                analysis := or_null (get data "analysis") |}
  end.

(** [v === text] for a possibly [undefined] value. *)
Definition is_text (v : option json) (text : string) : bool :=
  match v with
  | Some (JStr s) => String.eqb s text
  | _ => false
  end.

(** The variables one run of the effect declares and its closures share:
    the [conversationId] it was run for, [isCancelled] and [timeout]. A
    timer handle is a positive number, so [if (timeout)] holds exactly
    when one is recorded. *)
Record closure := {
  cl_conversationId : string;
  isCancelled : bool;
  timeout : option nat
}.

(** An outstanding [setTimeout(() => fetchAnalysis(false), delay)] of the
    effect run [owner]. *)
Record timer := {
  tid : nat;
  owner : nat;
  delay : Z
}.

(** A [fetch] awaited by [fetchAnalysis(withSpinner)] of the run
    [req_owner]. *)
Record request := {
  req_owner : nat;
  withSpinner : bool
}.

(** The component: the query parameter, the three state variables, one
    [closure] per run of the effect (in order), the run whose cleanup
    React holds, and the timers and requests outstanding. *)
Record component := {
  mounted : bool;
  param : option string;
  st_status : option AnalysisStatus;
  st_isLoading : bool;
  st_error : option string;
  closures : list closure;
  cleanup : option nat;
  timers : list timer;
  inflight : list request;
  next_timer : nat
}.

Definition setStatus (s : option AnalysisStatus) (c : component) : component :=
  {| mounted := mounted c; param := param c; st_status := s;
     st_isLoading := st_isLoading c; st_error := st_error c;
     closures := closures c; cleanup := cleanup c; timers := timers c;
     inflight := inflight c; next_timer := next_timer c |}.

Definition setIsLoading (b : bool) (c : component) : component :=
  {| mounted := mounted c; param := param c; st_status := st_status c;
     st_isLoading := b; st_error := st_error c;
     closures := closures c; cleanup := cleanup c; timers := timers c;
     inflight := inflight c; next_timer := next_timer c |}.

Definition setError (e : option string) (c : component) : component :=
  {| mounted := mounted c; param := param c; st_status := st_status c;
     st_isLoading := st_isLoading c; st_error := e;
     closures := closures c; cleanup := cleanup c; timers := timers c;
     inflight := inflight c; next_timer := next_timer c |}.

Definition with_closures (l : list closure) (c : component) : component :=
  {| mounted := mounted c; param := param c; st_status := st_status c;
     st_isLoading := st_isLoading c; st_error := st_error c;
     closures := l; cleanup := cleanup c; timers := timers c;
     inflight := inflight c; next_timer := next_timer c |}.

Definition with_cleanup (i : option nat) (c : component) : component :=
  {| mounted := mounted c; param := param c; st_status := st_status c;
     st_isLoading := st_isLoading c; st_error := st_error c;
     closures := closures c; cleanup := i; timers := timers c;
     inflight := inflight c; next_timer := next_timer c |}.

Definition with_timers (l : list timer) (n : nat) (c : component) : component :=
  {| mounted := mounted c; param := param c; st_status := st_status c;
     st_isLoading := st_isLoading c; st_error := st_error c;
     closures := closures c; cleanup := cleanup c; timers := l;
     inflight := inflight c; next_timer := n |}.

Definition with_inflight (l : list request) (c : component) : component :=
  {| mounted := mounted c; param := param c; st_status := st_status c;
     st_isLoading := st_isLoading c; st_error := st_error c;
     closures := closures c; cleanup := cleanup c; timers := timers c;
     inflight := l; next_timer := next_timer c |}.

Definition with_route (m : bool) (cid : option string) (c : component) : component :=
  {| mounted := m; param := cid; st_status := st_status c;
     st_isLoading := st_isLoading c; st_error := st_error c;
     closures := closures c; cleanup := cleanup c; timers := timers c;
     inflight := inflight c; next_timer := next_timer c |}.

(** [isCancelled] of run [i]. *)
Definition cancelled (i : nat) (c : component) : bool :=
  match closures c !! i with
  | Some cl => isCancelled cl
  | None => true
  end.

(** [timeout] of run [i]. *)
Definition timeout_of (i : nat) (c : component) : option nat :=
  match closures c !! i with
  | Some cl => timeout cl
  | None => None
  end.

(** [timeout = v] in run [i]. *)
Definition assign_timeout (i : nat) (v : option nat) (c : component) : component :=
  with_closures
    (alter (fun cl => {| cl_conversationId := cl_conversationId cl;
                         isCancelled := isCancelled cl; timeout := v |}) i (closures c))
    c.

(** [isCancelled = true] in run [i]. *)
Definition cancel (i : nat) (c : component) : component :=
  with_closures
    (alter (fun cl => {| cl_conversationId := cl_conversationId cl;
                         isCancelled := true; timeout := timeout cl |}) i (closures c))
    c.

(** [clearTimeout(t)]: the timer, if still outstanding, will not fire. *)
Definition clearTimeout (t : nat) (c : component) : component :=
  with_timers (filter (fun x => tid x ≠ t) (timers c)) (next_timer c) c.

Definition RETRY_DELAY : Z := 5000.

(** [setTimeout(() => fetchAnalysis(false), ms)] in run [i]; the handle is
    [next_timer c]. *)
Definition setTimeout (i : nat) (ms : Z) (c : component) : component :=
  with_timers (timers c ++ [{| tid := next_timer c; owner := i; delay := ms |}])
    (S (next_timer c)) c.

(** [fetchAnalysis(withSpinner)] of run [i] up to its [await fetch(...)]. *)
Definition fetchAnalysis_start (i : nat) (spinner : bool) (c : component) : component :=
  let c1 := if spinner then setIsLoading true c else c in
  with_inflight (inflight c1 ++ [{| req_owner := i; withSpinner := spinner |}]) c1.

(** The message of what
    [throw new Error(payload?.detail ?? payload?.message ?? "Unable to load analysis.")]
    throws. *)
Definition failure_message (payload : json) : string :=
  match nullish (get payload "detail")
          (nullish (get payload "message") (Some (JStr "Unable to load analysis."))) with
  | Some v => error_message_of v
  | None => ""
  end.

(** [await response.json().catch(() => null)] *)
Definition json_or_null (body : option json) : json :=
  match body with Some j => j | None => JNull end.

(** The [try] block of [fetchAnalysis] from the point where [fetch]
    settles. Every [throw] in it comes before its first state update. *)
Definition fetchAnalysis_try (i : nat) (o : outcome) (c : component) : completion component :=
  match o with
  | Rejected e => Throw e
  | Responded code body =>
      let payload := json_or_null body in
      if negb (ok code) || negb (truthy payload) then
        Throw (ErrorObj (failure_message payload))
      else if cancelled i c then Normal c
      else
        bind (normalizeResponse payload) (fun normalized =>
          let c1 := setError None (setStatus (Some normalized) c) in
          let c2 := match timeout_of i c1 with
                    | Some t => assign_timeout i None (clearTimeout t c1)
                    | None => c1
                    end in
          if is_text (status normalized) "pending" then
            Normal (assign_timeout i (Some (next_timer c2)) (setTimeout i RETRY_DELAY c2))
          else Normal c2)
  end.

(** The [catch] block. *)
Definition fetchAnalysis_catch (i : nat) (c : component) (err : thrown) : completion component :=
  if negb (cancelled i c) then
    Normal (setError (Some (message_or err "Unable to reach analysis service.")) c)
  else Normal c.

(** The [finally] block. *)
Definition fetchAnalysis_finally (i : nat) (spinner : bool) (c : component)
  : completion component :=
  if negb (cancelled i c) && spinner then Normal (setIsLoading false c) else Normal c.

(** [fetchAnalysis] from the point where [fetch] settles. *)
Definition fetchAnalysis_resume (r : request) (o : outcome) (c : component)
  : completion component :=
  bind (try_catch (fetchAnalysis_try (req_owner r) o c) (fetchAnalysis_catch (req_owner r) c))
       (fetchAnalysis_finally (req_owner r) (withSpinner r)).

(** [!conversationId] is false. *)
Definition present (cid : option string) : bool :=
  match cid with
  | Some s => negb (String.eqb s "")
  | None => false
  end.

(** The cleanup of the last run of the effect, if it returned one. *)
Definition effect_cleanup (c : component) : component :=
  match cleanup c with
  | None => c
  | Some i =>
      let c1 := cancel i c in
      let c2 := match timeout_of i c1 with
                | Some t => clearTimeout t c1
                | None => c1
                end in
      with_cleanup None c2
  end.

(** The body of the effect. *)
Definition effect_body (c : component) : component :=
  let c1 := setError None (setStatus None c) in
  match param c1 with
  | Some cid =>
      if String.eqb cid "" then setIsLoading false c1
      else
        let i := List.length (closures c1) in
        let c2 := with_closures
                    (closures c1 ++ [{| cl_conversationId := cid; isCancelled := false;
                                        timeout := None |}])%list c1 in
        with_cleanup (Some i) (fetchAnalysis_start i true c2)
  | None => setIsLoading false c1
  end.

(** The component as first mounted. *)
Definition mount (cid : option string) : component :=
  effect_body
    {| mounted := true; param := cid; st_status := None; st_isLoading := false;
       st_error := None; closures := []; cleanup := None; timers := [];
       inflight := []; next_timer := 1 |}.

(** A render with another [conversationId]: the effect is cleaned up and
    runs again; with the same one nothing happens. *)
Definition navigate (cid : option string) (c : component) : component :=
  if bool_decide (cid = param c) then c
  else effect_body (effect_cleanup (with_route true cid c)).

Definition unmount (c : component) : component :=
  with_route false (param c) (effect_cleanup c).

Definition remove_request (k : nat) (c : component) : component :=
  with_inflight (take k (inflight c) ++ drop (S k) (inflight c)) c.

Definition find_timer (t : nat) (c : component) : option timer :=
  List.find (fun x => Nat.eqb (tid x) t) (timers c).

Inductive event :=
  | Navigate (cid : option string)
  | Unmount
  | TimerFire (t : nat)
  | FetchDone (k : nat) (o : outcome).

Definition settle (c : completion component) : option component :=
  match c with Normal x => Some x | Throw _ => None end.

(** One event of the component. [None]: the event cannot happen in this
    state (component gone, no such timer outstanding, no such request in
    flight). *)
Definition step (e : event) (c : component) : option component :=
  match e with
  | Navigate cid => if mounted c then Some (navigate cid c) else None
  | Unmount => if mounted c then Some (unmount c) else None
  | TimerFire t =>
      match find_timer t c with
      | Some x => Some (fetchAnalysis_start (owner x) false (clearTimeout t c))
      | None => None
      end
  | FetchDone k o =>
      match inflight c !! k with
      | Some r => settle (fetchAnalysis_resume r o (remove_request k c))
      | None => None
      end
  end.

Fixpoint run (es : list event) (c : component) : option component :=
  match es with
  | [] => Some c
  | e :: es' => match step e c with Some c' => run es' c' | None => None end
  end.

(** Which card [renderContent] returns; [RenderError]: the render ends
    in a throw. *)
Inductive view :=
  | NoConversationCard
  | LoaderCard
  | ErrorCard (message : string)
  | Blank
  | PendingCard
  | NoDataCard
  | Report (analysis : json)
  | RenderError.

(** [confidenceScore] *)
Definition confidenceScore (confidence : string) : Z :=
  let value := toLowerCase confidence in
  if includes value "low" then 35%Z
  else if includes value "high" then 85%Z
  else 60%Z.

(** [status?.status === "ready" ? status.analysis : null] *)
Definition readyAnalysis (c : component) : json :=
  match st_status c with
  | Some s => if is_text (status s) "ready" then analysis s else JNull
  | None => JNull
  end.

(** The message of the [TypeError] for a property read on [undefined] or
    a call of something that is no function; the exact text is the
    runtime's. *)
Definition type_error_message : string := "Cannot read properties of undefined".

(** [readyAnalysis ? confidenceScore(readyAnalysis.case_summary.user_confidence) : 0],
    the value of the [useMemo]. Reading [user_confidence] off a missing
    [case_summary] throws, and so does calling [toLowerCase] on anything
    but a string. *)
Definition score (c : component) : completion Z :=
  if truthy (readyAnalysis c) then
    match get (readyAnalysis c) "case_summary" with
    | None | Some JNull => Throw (ErrorObj type_error_message)
    | Some summary =>
        match get summary "user_confidence" with
        | Some (JStr confidence) => Normal (confidenceScore confidence)
        | _ => Throw (ErrorObj type_error_message)
        end
    end
  else Normal 0%Z.

(** [(v ?? []).length ? v.map(item) : ...]: the list is mapped when its
    [length] is truthy, and only an array has a [map] to call; [item]
    tells that the callback goes through on an element. *)
Definition maps (v : option json) (item : json -> bool) : bool :=
  match v with
  | None | Some JNull => true
  | Some (JArr l) => forallb item l
  | Some (JStr s) => String.eqb s ""
  | Some (JObj m) => negb (truthy_opt (m !! "length"))
  | Some (JBool _) | Some (JNum _) => true
  end.

(** The callback of [keyEvents.map]: it reads the fields of the event
    (which throws on [null]), puts [event.timestamp ?? idx] into a
    template literal, calls [event.speaker?.toLowerCase()] (which only a
    text has) and prints [event.message]. *)
Definition event_reads (e : json) : bool :=
  match e with
  | JNull => false
  | _ =>
      converts_opt (nullish (get e "timestamp") None)
      && match get e "speaker" with
         | None | Some JNull | Some (JStr _) => true
         | Some _ => false
         end
      && renderable_opt (get e "message")
  end.

(** [readyAnalysis.coaching_feedback?.<field>] *)
Definition coaching (a : json) (field : string) : option json :=
  match get a "coaching_feedback" with
  | None | Some JNull => None
  | Some feedback => get feedback field
  end.

(** What the report card reads of the analysis goes through: the fields
    of [case_summary] and of [sentiment] are read off values that are
    there, every list that is mapped is an array, the callbacks go
    through, and what is printed is something React prints. *)
Definition report_reads (a : json) : bool :=
  match get a "case_summary" with
  | None | Some JNull => false
  | Some summary =>
      renderable_opt (get summary "case_type")
      && renderable_opt (get summary "overall_summary")
      && renderable_opt (get summary "user_confidence")
  end
  && maps (get a "key_events") event_reads
  && maps (coaching a "strengths") renderable
  && maps (coaching a "areas_for_improvement") renderable
  && maps (coaching a "next_practice_focus") renderable
  && maps (get a "action_items") renderable
  && match get a "sentiment" with
     | None | Some JNull => false
     | Some sentiment =>
         renderable_opt (get sentiment "user") && renderable_opt (get sentiment "assistant")
     end
  && match get a "engagement_summary" with
     | None | Some JNull => true
     | Some engagement =>
         match get engagement "summary" with
         | Some text => negb (truthy text) || renderable text
         | None => true
         end
     end.

(** What the pending card reads of the view goes through: it prints
    [status.conversationId] and builds [new Date(status.updatedAt)]. *)
Definition pending_reads (s : AnalysisStatus) : bool :=
  renderable_opt (conversationId s) && converts_opt (updatedAt s).

(** [renderContent] *)
Definition renderContent (c : component) : view :=
  if negb (present (param c)) then NoConversationCard
  else if st_isLoading c && negb (bool_decide (is_Some (st_status c))) then LoaderCard
  else
    match st_error c with
    | Some (String a m) => ErrorCard (String a m)
    | _ =>
        match st_status c with
        | None => Blank
        | Some s =>
            if is_text (status s) "pending" then
              if pending_reads s then PendingCard else RenderError
            else
              let readyAnalysis := if is_text (status s) "ready" then analysis s else JNull in
              if negb (truthy readyAnalysis) then NoDataCard
              else if report_reads readyAnalysis then Report readyAnalysis
              else RenderError
        end
    end.

(** One render of the page: the [useMemo] of the score is evaluated
    before [renderContent] is called, so a throw in it ends the render
    before any card is chosen; a throw within [renderContent] is its
    [RenderError]. *)
Definition render (c : component) : completion view :=
  bind (score c) (fun _ => Normal (renderContent c)).

(** What one render of the page comes to, as a view. *)
Definition rendered (c : component) : view :=
  match render c with
  | Normal v => v
  | Throw _ => RenderError
  end.

(** The views after each event of a run, starting with the one before. *)
Fixpoint views (es : list event) (c : component) : list view :=
  rendered c ::
  match es with
  | [] => []
  | e :: es' => match step e c with Some c' => views es' c' | None => [] end
  end.

Definition same_card (a b : view) : bool :=
  match a, b with
  | NoConversationCard, NoConversationCard | LoaderCard, LoaderCard
  | Blank, Blank | PendingCard, PendingCard | NoDataCard, NoDataCard => true
  | ErrorCard x, ErrorCard y => String.eqb x y
  | Report _, Report _ => true
  | RenderError, RenderError => true
  | _, _ => false
  end.

(** The render states a consumer tells apart: consecutive renders of the
    same card count once. *)
Fixpoint render_states (l : list view) : list view :=
  match l with
  | a :: ((b :: _) as rest) => if same_card a b then render_states rest else a :: render_states rest
  | _ => l
  end.

(** A response that normalizes to a [pending] view. *)
Definition pending_response (o : outcome) : bool :=
  match o with
  | Responded code (Some payload) => ok code && truthy payload && is_text (get payload "status") "pending"
  | _ => false
  end.

(** A fetch that failed: the call was rejected, the status is not a
    success, or there is no usable payload. *)
Definition failed (o : outcome) : bool :=
  match o with
  | Rejected _ => true
  | Responded code body => negb (ok code) || negb (truthy (json_or_null body))
  end.

(** The message the [catch] block stores for a failed fetch. *)
Definition error_text (o : outcome) : string :=
  match o with
  | Rejected e => message_or e "Unable to reach analysis service."
  | Responded _ body => failure_message (json_or_null body)
  end.

(** What [normalizeResponse] returns on a payload that is not [null]. *)
Definition view_of (payload : json) : AnalysisStatus :=
  {| conversationId := get payload "conversation_id"; status := get payload "status";
     updatedAt := get payload "updated_at"; analysis := or_null (get payload "analysis") |}.

(** The state after a successful response was taken in by the run [i]:
    the view stored, the error cleared, the recorded timer cleared, and a
    retry scheduled when the view is pending. *)
Definition accepted (i : nat) (payload : json) (c : component) : component :=
  let c1 := setError None (setStatus (Some (view_of payload)) c) in
  let c2 := match timeout_of i c1 with
            | Some t => assign_timeout i None (clearTimeout t c1)
            | None => c1
            end in
  if is_text (get payload "status") "pending" then
    assign_timeout i (Some (next_timer c2)) (setTimeout i RETRY_DELAY c2)
  else c2.

(** What the consumer sees. *)
Definition visible (c : component) : option AnalysisStatus * bool * option string :=
  (st_status c, st_isLoading c, st_error c).

(** Timers of run [i]. *)
Definition timers_of (i : nat) (c : component) : list timer :=
  filter (fun x => owner x = i) (timers c).

(** Requests in flight whose run is the one React holds the cleanup of. *)
Definition live_requests (c : component) : list request :=
  filter (fun r => cleanup c = Some (req_owner r)) (inflight c).

(** The invariant of the effect: only the current, uncancelled run owns
    timers, each of them recorded in its [timeout]; it has at most one
    timer or one request outstanding, never both. *)
Record inv (c : component) : Prop := {
  inv_live : forall i cl, closures c !! i = Some cl -> isCancelled cl = false -> cleanup c = Some i;
  inv_current : forall i, cleanup c = Some i -> cancelled i c = false;
  inv_timers : forall x, x ∈ timers c -> cleanup c = Some (owner x) /\ timeout_of (owner x) c = Some (tid x);
  inv_single : List.length (timers c) + List.length (live_requests c) <= 1;
  inv_fresh : forall x, x ∈ timers c -> tid x < next_timer c;
  inv_requests : forall r, r ∈ inflight c -> req_owner r < List.length (closures c)
}.

(** The states one run for [cid] goes through: a request in flight (with
    the view stored so far, the timer handle recorded so far and the next
    handle), a retry timer outstanding, and neither. *)
Definition fetching (cid : string) (v : option AnalysisStatus) (t : option nat) (n : nat)
    (spinner : bool) : component :=
  {| mounted := true; param := Some cid; st_status := v; st_isLoading := spinner;
     st_error := None;
     closures := [{| cl_conversationId := cid; isCancelled := false; timeout := t |}];
     cleanup := Some 0; timers := [];
     inflight := [{| req_owner := 0; withSpinner := spinner |}]; next_timer := n |}.

Definition waiting (cid : string) (v : AnalysisStatus) (n : nat) : component :=
  {| mounted := true; param := Some cid; st_status := Some v; st_isLoading := false;
     st_error := None;
     closures := [{| cl_conversationId := cid; isCancelled := false; timeout := Some n |}];
     cleanup := Some 0; timers := [{| tid := n; owner := 0; delay := RETRY_DELAY |}];
     inflight := []; next_timer := S n |}.

Definition resting (cid : string) (v : AnalysisStatus) (n : nat) : component :=
  {| mounted := true; param := Some cid; st_status := Some v; st_isLoading := false;
     st_error := None;
     closures := [{| cl_conversationId := cid; isCancelled := false; timeout := None |}];
     cleanup := Some 0; timers := []; inflight := []; next_timer := n |}.

(** No [Navigate] among the events: the consumer does not ask for another
    conversation. *)
Definition stays (es : list event) : Prop :=
  forall e, e ∈ es -> match e with Navigate _ => False | _ => True end.

(** Backend payloads used in examples. *)
Definition pending_payload : json :=
  JObj {[ "conversation_id" := JStr "c1"; "status" := JStr "pending";
          "updated_at" := JStr "2025-01-01T00:00:00Z"; "analysis" := JNull ]}.

Definition ready_payload : json :=
  JObj {[ "conversation_id" := JStr "c1"; "status" := JStr "ready";
          "updated_at" := JStr "2025-01-01T00:05:00Z";
          "analysis" := JObj {[ "action_items" := JArr [JStr "Practice structuring"] ]} ]}.

(** The types the page declares for what the backend answers. *)
Definition is_str (v : option json) : bool :=
  match v with Some (JStr _) => true | _ => false end.

Definition opt_str (v : option json) : bool :=
  match v with None | Some (JStr _) => true | _ => false end.

(** [string[]] *)
Definition strs (v : option json) : bool :=
  match v with
  | Some (JArr l) => forallb (fun x => match x with JStr _ => true | _ => false end) l
  | _ => false
  end.

(** [KeyEvent] *)
Definition typed_event (e : json) : bool :=
  match e with
  | JObj _ => opt_str (get e "timestamp") && is_str (get e "speaker") && is_str (get e "message")
  | _ => false
  end.

(** [Analysis] *)
Definition typed_analysis (a : json) : bool :=
  match a with
  | JObj _ =>
      match get a "case_summary" with
      | Some (JObj summary) =>
          is_str (summary !! "case_type") && is_str (summary !! "overall_summary")
          && is_str (summary !! "user_confidence")
      | _ => false
      end
      && match get a "key_events" with
         | Some (JArr l) => forallb typed_event l
         | _ => false
         end
      && match get a "coaching_feedback" with
         | Some (JObj feedback) =>
             strs (feedback !! "strengths") && strs (feedback !! "areas_for_improvement")
             && strs (feedback !! "next_practice_focus")
         | _ => false
         end
      && strs (get a "action_items")
      && match get a "sentiment" with
         | Some (JObj sentiment) => is_str (sentiment !! "user") && is_str (sentiment !! "assistant")
         | _ => false
         end
      && match get a "engagement_summary" with
         | None => true
         | Some (JObj engagement) => opt_str (engagement !! "summary")
         | Some _ => false
         end
      && opt_str (get a "source_transcript")
  | _ => false
  end.

(** [BackendAnalysisResponse] *)
Definition typed_response (payload : json) : bool :=
  is_str (get payload "conversation_id")
  && (is_text (get payload "status") "pending" || is_text (get payload "status") "ready")
  && is_str (get payload "updated_at")
  && match or_null (get payload "analysis") with
     | JNull => true
     | a => typed_analysis a
     end.

Definition typed_outcome (o : outcome) : bool :=
  match o with
  | Responded _ (Some payload) => typed_response payload
  | _ => false
  end.

(** A ready answer of the declared type. *)
Definition report_payload : json :=
  JObj {[ "conversation_id" := JStr "c1"; "status" := JStr "ready";
          "updated_at" := JStr "2025-01-01T00:05:00Z";
          "analysis"
          := JObj {[ "case_summary"
                     := JObj {[ "case_type" := JStr "Market entry";
                                "overall_summary" := JStr "A structured opening.";
                                "user_confidence" := JStr "High" ]};
                     "key_events"
                     := JArr [JObj {[ "speaker" := JStr "assistant";
                                      "message" := JStr "Walk me through your approach." ]}];
                     "coaching_feedback"
                     := JObj {[ "strengths" := JArr [JStr "Clear structure"];
                                "areas_for_improvement" := JArr [];
                                "next_practice_focus" := JArr [JStr "Mental math"] ]};
                     "action_items" := JArr [JStr "Practice structuring"];
                     "sentiment"
                     := JObj {[ "user" := JStr "positive";
                                "assistant" := JStr "neutral" ]} ]} ]}.

(** What the reconciler keeps true about what is shown: a run is current
    only for a [conversationId] that is present, and a retry (its timer,
    or its request, which has no spinner) exists only once a view has been
    stored. *)
Record view_inv (c : component) : Prop := {
  v_param : forall i, cleanup c = Some i -> present (param c) = true;
  v_retry : forall r, r ∈ live_requests c -> withSpinner r = false -> is_Some (st_status c);
  v_timer : forall x, x ∈ timers c -> is_Some (st_status c)
}.

(** The state between the cleanup of one run and the body of the next:
    no cleanup held, no timer outstanding, every run cancelled. *)
Record quiescent (c : component) : Prop := {
  q_cleanup : cleanup c = None;
  q_timers : timers c = [];
  q_cancelled : forall i cl, closures c !! i = Some cl -> isCancelled cl = true;
  q_requests : forall r, r ∈ inflight c -> req_owner r < List.length (closures c)
}.

End Reconciler.

(* ===================================================================== *)
(** ** The request each route sends upstream *)
(* ===================================================================== *)

Module Gateway.
Import Js Boundary.

(** The one [fetch] a route handler makes for an inbound request, if it
    makes any: the start route puts the session id into the path as it
    is, the analysis route percent-encodes the conversation id. *)
Definition upstream_request (env : option string) (enc : string -> string) (r : inbound)
  : option request :=
  match r with
  | CreateSession (Some payload) =>
      Some {| url := BACKEND_BASE_URL env ++ "/api/sessions"; method := Some "POST";
              body := Some (stringified payload) |}
  | CreateSession None => None
  | StartAgent s =>
      if String.eqb s "" then None
      else Some {| url := BACKEND_BASE_URL env ++ ("/api/sessions/" ++ s ++ "/start");
                   method := Some "POST"; body := None |}
  | GetAnalysis (Some c) =>
      if String.eqb c "" then None
      else Some {| url := BACKEND_BASE_URL env ++ ("/api/interviews/" ++ enc c ++ "/analysis");
                   method := None; body := None |}
  | GetAnalysis None => None
  end.

End Gateway.

(* ===================================================================== *)
(** ** The company page: what it derives from the session *)
(* ===================================================================== *)

Module CompanyPage.
Import Js Polling.

Definition STATUS_STYLES : gmap string string :=
  list_to_map [
    ("room_created", "bg-indigo-100 text-indigo-700");
    ("bot_starting", "bg-amber-100 text-amber-700");
    ("bot_running", "bg-emerald-100 text-emerald-700");
    ("bot_stopping", "bg-amber-100 text-amber-700");
    ("bot_completed", "bg-gray-200 text-gray-700");
    ("bot_error", "bg-red-100 text-red-700")
  ].

(** [session ? STATUS_STYLES[session.status] ?? "bg-gray-200 text-gray-700" : ""] *)
Definition statusBadgeStyle (session : option json) : shown :=
  match session with
  | Some s =>
      if truthy s then
        if negb (converts_opt (get s "status")) then LookupThrows
        else
          match record_get STATUS_STYLES (to_property_key (get s "status")) with
          | Own text => Text text
          | Inherited n => PrototypeValue n
          | Absent => Text "bg-gray-200 text-gray-700"
          end
      else Text ""
  | None => Text ""
  end.

(** [{errorMessage && (<div ...>{errorMessage}</div>)}]: the banner is
    drawn for a message that is not empty. *)
Definition banner (p : page) : option string :=
  match errorMessage p with
  | Some (String a m) => Some (String a m)
  | _ => None
  end.

(** [session?.status === "room_created"] *)
Definition canStartBot (session : option json) : bool :=
  match session_get session "status" with
  | Some (JStr s) => String.eqb s "room_created"
  | _ => false
  end.

(** [Boolean(session?.conversationId)] *)
Definition canViewAnalysis (session : option json) : bool :=
  truthy_opt (session_get session "conversationId").

(** [v] is [undefined] or [null]. *)
Definition is_nullish (v : option json) : bool :=
  match v with
  | None | Some JNull => true
  | Some _ => false
  end.

(** The interval, if one is held, comes due within one period. *)
Definition due_soon (p : page) : Prop :=
  forall t, interval p = Some t -> (next_due t <= clock p + POLL_INTERVAL)%Z.

End CompanyPage.

(* ===================================================================== *)
(** ** The analysis page: what keeps it going *)
(* ===================================================================== *)

Module AnalysisPage.
Import Js Text Reconciler.

(** What keeps the page going: while mounted, the spinner flag is up only
    while the first fetch of the current run is in flight, and a pending
    view with no failure recorded has exactly one retry timer or one
    request of the current run behind it; once a view that is not pending
    is stored, nothing is outstanding. *)
Record progress_inv (c : component) : Prop := {
  p_loading : mounted c = true -> st_isLoading c = true ->
              exists r, r ∈ live_requests c /\ withSpinner r = true;
  p_pending : mounted c = true -> st_error c = None ->
              (exists v, st_status c = Some v /\ is_text (status v) "pending" = true) ->
              List.length (timers c) + List.length (live_requests c) = 1;
  p_settled : forall v, st_status c = Some v -> is_text (status v) "pending" = false ->
              timers c = [] /\ live_requests c = []
}.

(** The events of a run of retries: each answer is followed by the firing
    of the timer it scheduled; [n] is the handle of the first. *)
Fixpoint retry_events (n : nat) (answers : list outcome) : list event :=
  match answers with
  | [] => []
  | o :: rest => FetchDone 0 o :: TimerFire n :: retry_events (S n) rest
  end.

End AnalysisPage.

(* ===================================================================== *)
(** ** The pages and the routes together *)
(* ===================================================================== *)

Module Wire.
Import Js Boundary.

(** What a page's [fetch] of a route settles to when the handler returned
    [resp]: the status, and the body that [NextResponse.json] wrote, read
    back by [response.json()]. *)
Definition delivered (resp : http_response) : outcome :=
  Responded (res_status resp) (Some (res_body resp)).

(** The route a request of the company page goes to. The page always
    posts a JSON body when it creates a session. Its status request goes
    to a path none of the handlers serves. *)
Definition route_of (rq : Polling.request) (r : inbound) : bool :=
  match rq, r with
  | Polling.ReqCreate, CreateSession (Some _) => true
  | Polling.ReqStart, StartAgent _ => true
  | _, _ => false
  end.

End Wire.

(* ===================================================================== *)
(** ** Facts: the backend-forwarding boundary *)
(* ===================================================================== *)

Module BoundaryFacts.
Import Js Boundary.

Section Routes.
Variable env : option string.
Variable enc : string -> string.
Variable backend : request -> outcome.

Lemma NextResponse_json_accepts payload status :
  accepts_body status = true ->
  NextResponse_json payload status
  = Normal {| res_status := status; res_body := stringified payload |}.
Proof.
  unfold accepts_body, NextResponse_json. intros H.
  apply andb_prop in H as [H1 H2]. rewrite H1. simpl.
  apply negb_true_iff in H2. now rewrite H2.
Qed.

Lemma NextResponse_json_refuses payload status :
  accepts_body status = false ->
  NextResponse_json payload status = Throw (ErrorObj bad_status_message).
Proof.
  unfold accepts_body, NextResponse_json. intros H.
  destruct ((200 <=? status)%Z && (status <=? 599)%Z); simpl in *; [|reflexivity].
  apply negb_false_iff in H. now rewrite H.
Qed.

(** The shared [try]/[catch] always ends normally. *)
Lemma relay_normal path m b : exists resp, relay env backend path m b = Normal resp.
Proof.
  unfold relay, forwardToBackend.
  destruct (backend _) as [e | status body]; simpl.
  - eexists; reflexivity.
  - destruct (accepts_body status) eqn:Ha.
    + rewrite NextResponse_json_accepts by assumption. simpl. eexists; reflexivity.
    + rewrite NextResponse_json_refuses by assumption. simpl. eexists; reflexivity.
Qed.

Lemma relay_unreachable path m b e :
  (forall q, backend q = Rejected e) ->
  relay env backend path m b
  = Normal {| res_status := 502; res_body := unreachable_envelope e |}.
Proof. intros H. unfold relay, forwardToBackend. rewrite H. reflexivity. Qed.

Lemma relay_malformed path m b status :
  (forall q, backend q = Responded status None) ->
  if accepts_body status then
    relay env backend path m b
    = Normal {| res_status := status;
                res_body := JObj {[ "message" := JStr "Unexpected backend response" ]} |}
  else
    exists details,
      relay env backend path m b
      = Normal {| res_status := 502;
                  res_body := JObj {[ "message" := JStr "Unable to reach backend service";
                                      "details" := JStr details ]} |}.
Proof.
  intros H. unfold relay, forwardToBackend. rewrite H. simpl.
  destruct (accepts_body status) eqn:Ha.
  - now rewrite NextResponse_json_accepts.
  - rewrite NextResponse_json_refuses by assumption. simpl. eexists. reflexivity.
Qed.

(** A forwarded request goes through the shared [try]/[catch]. *)
Lemma handle_forwarded r :
  forwarded r = true ->
  exists path m b, handle env enc backend r = relay env backend path m b.
Proof.
  destruct r as [[payload|] | sid | [c|]]; simpl; intros H; try discriminate.
  - do 3 eexists; reflexivity.
  - unfold POST_start. destruct (String.eqb sid ""); [discriminate|].
    do 3 eexists; reflexivity.
  - destruct (String.eqb c ""); [discriminate|]. do 3 eexists; reflexivity.
Qed.

Lemma handle_normal r : exists resp, handle env enc backend r = Normal resp.
Proof.
  destruct (forwarded r) eqn:Hf.
  - destruct (handle_forwarded r Hf) as (path & m & b & ->). apply relay_normal.
  - destruct r as [[payload|] | sid | [c|]]; simpl in *; try discriminate;
      try (eexists; reflexivity).
    + unfold POST_start. destruct (String.eqb sid ""); [|discriminate].
      eexists; reflexivity.
    + destruct (String.eqb c ""); [|discriminate]. eexists; reflexivity.
Qed.

End Routes.

(** C2 (as amended). For every inbound control request that is forwarded:
    when the upstream cannot be reached, the handler answers 502 with the
    "Unable to reach backend service" envelope; when the upstream body is
    not valid JSON, it answers [{"message": "Unexpected backend response"}]
    with the upstream's own status (502 with the envelope only when that
    status cannot carry a body); and every request, forwarded or not, gets
    a JSON response: no handler throws. *)
Theorem boundary_fallbacks (env : option string) (enc : string -> string)
    (backend : request -> outcome) (r : inbound) :
  forwarded r = true ->
  (forall e, (forall q, backend q = Rejected e) ->
     handle env enc backend r
     = Normal {| res_status := 502; res_body := unreachable_envelope e |})
  /\ (forall status, (forall q, backend q = Responded status None) ->
     if accepts_body status then
       handle env enc backend r
       = Normal {| res_status := status;
                   res_body := JObj {[ "message" := JStr "Unexpected backend response" ]} |}
     else
       exists details,
         handle env enc backend r
         = Normal {| res_status := 502;
                     res_body := JObj {[ "message" := JStr "Unable to reach backend service";
                                         "details" := JStr details ]} |})
  /\ (forall r', exists resp, handle env enc backend r' = Normal resp).
Proof.
  intros Hf. destruct (handle_forwarded env enc backend r Hf) as (path & m & b & ->).
  split; [|split].
  - intros e He. now apply relay_unreachable.
  - intros status Hs. now apply relay_malformed.
  - intros r'. apply handle_normal.
Qed.

Lemma boundary_fallbacks_witness :
  forwarded (StartAgent "s1") = true
  /\ handle None (fun s => s) (fun _ => Rejected (ErrorObj "fetch failed")) (StartAgent "s1")
     = Normal {| res_status := 502;
                 res_body := unreachable_envelope (ErrorObj "fetch failed") |}.
Proof.
  split; [reflexivity|].
  apply (boundary_fallbacks None (fun s => s) (fun _ => Rejected (ErrorObj "fetch failed"))
           (StartAgent "s1")); [reflexivity|].
  intros q; reflexivity.
Defined.

(** C2 (as stated) fails: an upstream that answers 500 with a body that is
    not JSON gets the fabricated body relayed with status 500, not 502. *)
Lemma boundary_malformed_keeps_upstream_status :
  handle None (fun s => s) (fun _ => Responded 500 None) (CreateSession (Some (JObj ∅)))
  = Normal {| res_status := 500;
              res_body := JObj {[ "message" := JStr "Unexpected backend response" ]} |}
  /\ (500 <> 502)%Z.
Proof. split; [reflexivity | discriminate]. Qed.

End BoundaryFacts.

(* ===================================================================== *)
(** ** Facts: normalization *)
(* ===================================================================== *)

Module NormalizeFacts.
Import Js Reconciler.

Lemma normalizeResponse_total data :
  data <> JNull ->
  normalizeResponse data
  = Normal {| conversationId := get data "conversation_id"; status := get data "status";
              updatedAt := get data "updated_at"; analysis := or_null (get data "analysis") |}.
Proof. intros H. destruct data; try reflexivity. congruence. Qed.

Lemma or_null_some a : or_null (Some a) = a.
Proof. now destruct a. Qed.

(** C3. Normalizing a backend payload with [conversation_id] ["c1"],
    [status] ["ready"], an [updated_at] text and an [analysis] gives the
    client view with [conversationId] ["c1"], [status] ["ready"], the same
    [updatedAt] and the same [analysis]; on every object payload the
    function returns a view, field by field, and a [null] (or missing)
    analysis becomes [null]. *)
Theorem normalizeResponse_round_trip (m : gmap string json) :
  (forall u a,
     m !! "conversation_id" = Some (JStr "c1") ->
     m !! "status" = Some (JStr "ready") ->
     m !! "updated_at" = Some (JStr u) ->
     m !! "analysis" = Some a ->
     normalizeResponse (JObj m)
     = Normal {| conversationId := Some (JStr "c1"); status := Some (JStr "ready");
                 updatedAt := Some (JStr u); analysis := a |})
  /\ (exists v, normalizeResponse (JObj m) = Normal v
        /\ conversationId v = m !! "conversation_id" /\ status v = m !! "status"
        /\ updatedAt v = m !! "updated_at"
        /\ (m !! "analysis" = Some JNull -> analysis v = JNull)
        /\ (m !! "analysis" = None -> analysis v = JNull)).
Proof.
  split.
  - intros u a H1 H2 H3 H4. rewrite normalizeResponse_total by discriminate.
    unfold get. simpl. rewrite H1, H2, H3, H4, or_null_some. reflexivity.
  - eexists. split; [apply normalizeResponse_total; discriminate|].
    unfold get; simpl. repeat split; intros ->; reflexivity.
Qed.

Lemma normalizeResponse_round_trip_witness :
  normalizeResponse
    (JObj {[ "conversation_id" := JStr "c1"; "status" := JStr "ready";
             "updated_at" := JStr "2025-01-01T00:00:00Z";
             "analysis" := JObj {[ "action_items" := JArr [JStr "Practice"] ]} ]})
  = Normal {| conversationId := Some (JStr "c1"); status := Some (JStr "ready");
              updatedAt := Some (JStr "2025-01-01T00:00:00Z");
              analysis := JObj {[ "action_items" := JArr [JStr "Practice"] ]} |}.
Proof.
  apply (proj1 (normalizeResponse_round_trip _)); reflexivity.
Defined.

End NormalizeFacts.

(* ===================================================================== *)
(** ** Facts: the status polling client *)
(* ===================================================================== *)

Module PollingFacts.
Import Js Polling.

Lemma object_is_eq a b : object_is a b = true -> a = b.
Proof.
  destruct a as [[]|], b as [[]|]; simpl; try discriminate; try reflexivity; intros H.
  - apply Bool.eqb_prop in H. congruence.
  - apply String.eqb_eq in H. congruence.
  - apply String.eqb_eq in H. congruence.
Qed.

Lemma deps_same_eq s s' : deps_same (deps s) (deps s') = true -> deps s = deps s'.
Proof.
  unfold deps_same, deps. simpl. intros H. apply andb_prop in H as [H1 H2].
  apply object_is_eq in H1, H2. congruence.
Qed.

Lemma wants_polling_deps s s' : deps s = deps s' -> wants_polling s = wants_polling s'.
Proof. unfold deps, wants_polling. intros [= -> ->]. reflexivity. Qed.

(** [synced] only looks at the session, the interval and the clock. *)
Lemma synced_ext p q :
  session q = session p -> interval q = interval p -> clock q = clock p ->
  synced p -> synced q.
Proof. unfold synced. intros -> -> ->. trivial. Qed.

Lemma poll_fields sid p :
  session (poll sid p) = session p /\ interval (poll sid p) = interval p
  /\ clock (poll sid p) = clock p /\ errorMessage (poll sid p) = errorMessage p
  /\ logged (poll sid p)
     = logged p + (if truthy_opt sid && negb (converts_opt sid) then 1 else 0)
  /\ status_fetches (poll sid p) = status_fetches p + (if fetchable sid then 1 else 0)
  /\ inflight (poll sid p)
     = (inflight p ++ if fetchable sid then [ReqStatus sid] else [])%list.
Proof.
  unfold poll, fetchSessionStatus_start, fetchable.
  destruct (truthy_opt sid), (converts_opt sid); simpl;
    rewrite ?app_nil_r; repeat split; lia.
Qed.

Lemma fire_fields n sid p :
  session (fire n sid p) = session p /\ interval (fire n sid p) = interval p
  /\ clock (fire n sid p) = clock p /\ errorMessage (fire n sid p) = errorMessage p
  /\ status_fetches (fire n sid p) = status_fetches p + (if fetchable sid then n else 0).
Proof.
  revert p. induction n as [|n IH]; intros p; simpl.
  - repeat split. destruct (fetchable sid); lia.
  - destruct (IH (poll sid p)) as (-> & -> & -> & -> & ->).
    destruct (poll_fields sid p) as (-> & -> & -> & -> & _ & -> & _).
    repeat split. destruct (fetchable sid); lia.
Qed.

(** The status fetches a stretch of time adds. *)
Lemma tick_status_fetches dt p :
  status_fetches (tick dt p)
  = status_fetches p
    + match interval p with
      | Some t => if fetchable (target t) then due_count t (clock p + dt) else 0
      | None => 0
      end.
Proof.
  unfold tick. destruct (interval p) as [t|]; simpl; [|lia].
  now destruct (fire_fields (due_count t (clock p + dt)) (target t) p) as (_ & _ & _ & _ & ->).
Qed.

Lemma tick_session dt p : session (tick dt p) = session p.
Proof.
  unfold tick. destruct (interval p) as [t|]; simpl; [|reflexivity].
  now destruct (fire_fields (due_count t (clock p + dt)) (target t) p) as (-> & _).
Qed.

Lemma tick_idle dt p : interval p = None -> interval (tick dt p) = None.
Proof. intros H. unfold tick. rewrite H. simpl. exact H. Qed.

Lemma due_next t now :
  (0 < period t)%Z ->
  (now < next_due t + Z.of_nat (due_count t now) * period t)%Z.
Proof.
  intros Hp. unfold due_count. destruct (Z.leb_spec (next_due t) now) as [Hle|Hlt].
  - assert (0 <= (now - next_due t) / period t)%Z by (apply Z.div_pos; lia).
    rewrite Z2Nat.id by lia.
    pose proof (Z.mul_succ_div_gt (now - next_due t) (period t) Hp). lia.
  - simpl. lia.
Qed.

Lemma synced_tick dt p : synced p -> synced (tick dt p).
Proof.
  unfold synced, tick. destruct (interval p) as [t|] eqn:Hi; simpl.
  - destruct (fire_fields (due_count t (clock p + dt)) (target t) p) as (Hs & _).
    rewrite Hs. intros (Hw & Hp & Ht & _). repeat split; try assumption.
    apply due_next. rewrite Hp. reflexivity.
  - now rewrite Hi.
Qed.

Lemma setSession_session f p : session (setSession f p) = f (session p).
Proof.
  unfold setSession, effect_body, effect_cleanup.
  repeat (case_match; simpl; try reflexivity).
  now destruct (poll_fields (session_get (f (session p)) "sessionId")
                  (with_interval None (with_session (f (session p)) p))) as (-> & _).
Qed.

Lemma setSession_frame f p :
  errorMessage (setSession f p) = errorMessage p /\ clock (setSession f p) = clock p.
Proof.
  unfold setSession, effect_body, effect_cleanup.
  repeat (case_match; simpl; try (repeat split; reflexivity)).
  destruct (poll_fields (session_get (f (session p)) "sessionId")
              (with_interval None (with_session (f (session p)) p))) as (_ & _ & -> & -> & _).
  repeat split.
Qed.

(** Running the effect again leaves it matching the new session. *)
Lemma synced_setSession f p : synced p -> synced (setSession f p).
Proof.
  intros Hs. unfold setSession.
  destruct (deps_same _ _) eqn:Hd.
  - apply deps_same_eq in Hd. simpl in Hd.
    pose proof (wants_polling_deps _ _ Hd) as Hw.
    unfold synced in *. simpl. destruct (interval p) as [t|].
    + destruct Hs as (H1 & H2 & H3 & H4). repeat split; try assumption.
      * now rewrite <- Hw.
      * rewrite H3. unfold deps in Hd. congruence.
    + now rewrite <- Hw.
  - unfold effect_body, effect_cleanup. simpl.
    destruct (truthy_opt (session_get (f (session p)) "sessionId")) eqn:Ht; simpl.
    + destruct (pollable (session_get (f (session p)) "status")) eqn:Hp; simpl.
      * destruct (poll_fields (session_get (f (session p)) "sessionId")
                    (with_interval None (with_session (f (session p)) p)))
          as (Hs1 & _ & Hc1 & _).
        unfold synced. simpl. rewrite Hs1, Hc1. simpl.
        unfold wants_polling. rewrite Ht, Hp. unfold POLL_INTERVAL. repeat split. lia.
      * unfold synced, wants_polling. simpl. now rewrite Ht, Hp.
    + unfold synced, wants_polling. simpl. now rewrite Ht.
Qed.

Lemma fetchSessionStatus_resume_normal o p :
  exists q, fetchSessionStatus_resume o p = Normal q /\ (synced p -> synced q).
Proof.
  unfold fetchSessionStatus_resume. destruct o as [e | status body]; simpl.
  - eexists; split; [reflexivity|]. now apply synced_ext.
  - destruct (ok status); simpl; [|eauto].
    destruct (truthy (parseJsonSafe body)); simpl; [|eauto].
    eexists; split; [reflexivity|]. apply synced_setSession.
Qed.

Lemma handleCreateSession_resume_normal o p :
  exists q, handleCreateSession_resume o p = Normal q /\ (synced p -> synced q).
Proof.
  unfold handleCreateSession_resume. destruct o as [e | status body]; simpl.
  - eexists; split; [reflexivity|]. now apply synced_ext.
  - destruct (ok status); simpl.
    + destruct (truthy (parseJsonSafe body)); simpl.
      * eexists; split; [reflexivity|]. intros H.
        apply (synced_ext (setSession (fun _ => Some (parseJsonSafe body)) p));
          [reflexivity..|now apply synced_setSession].
      * eexists; split; [reflexivity|]. now apply synced_ext.
    + eexists; split; [reflexivity|]. now apply synced_ext.
Qed.

Lemma handleStartBot_resume_normal o p :
  exists q, handleStartBot_resume o p = Normal q /\ (synced p -> synced q).
Proof.
  unfold handleStartBot_resume. destruct o as [e | status body]; simpl.
  - eexists; split; [reflexivity|]. now apply synced_ext.
  - destruct (ok status); simpl.
    + destruct (truthy (parseJsonSafe body)); simpl.
      * eexists; split; [reflexivity|]. intros H.
        apply (synced_ext (setSession (merge (parseJsonSafe body)) p));
          [reflexivity..|now apply synced_setSession].
      * eexists; split; [reflexivity|]. now apply synced_ext.
    + eexists; split; [reflexivity|]. now apply synced_ext.
Qed.

Lemma synced_step e p q : synced p -> step e p = Some q -> synced q.
Proof.
  intros Hs. destruct e as [| | i | dt | k o]; simpl.
  - intros [= <-]. unfold handleCreateSession_start.
    destruct (negb _); [assumption|]. now apply (synced_ext p).
  - intros [= <-]. unfold handleStartBot_start.
    destruct (session p) as [s|] eqn:E; [|assumption].
    destruct (negb (truthy s)); [assumption|].
    destruct (negb _); now apply (synced_ext p).
  - intros [= <-]. unfold selectInterview.
    destruct (Nat.eqb _ _); [assumption|].
    apply (synced_ext (setSession (fun _ => None) (with_selected i p)));
      [reflexivity..|].
    apply synced_setSession. now apply (synced_ext p).
  - destruct (dt <? 0)%Z; [discriminate|]. intros [= <-]. now apply synced_tick.
  - destruct (inflight p !! k) as [[| | sid]|]; [| | |discriminate].
    + destruct (handleCreateSession_resume_normal o (remove_request k p)) as (x & -> & Hx).
      simpl. intros [= <-]. apply Hx. now apply (synced_ext p).
    + destruct (handleStartBot_resume_normal o (remove_request k p)) as (x & -> & Hx).
      simpl. intros [= <-]. apply Hx. now apply (synced_ext p).
    + destruct (fetchSessionStatus_resume_normal o (remove_request k p)) as (x & -> & Hx).
      simpl. intros [= <-]. apply Hx. now apply (synced_ext p).
Qed.

Lemma synced_run es : forall p q, synced p -> run es p = Some q -> synced q.
Proof.
  induction es as [|e es IH]; simpl; intros p q Hs.
  - now intros [= <-].
  - destruct (step e p) as [p'|] eqn:E; [|discriminate].
    apply IH. eapply synced_step; eassumption.
Qed.

(** In every state the page can reach, the polling effect matches the
    session. *)
Lemma reachable_synced n es p : run es (initial n) = Some p -> synced p.
Proof. apply synced_run. reflexivity. Qed.

Lemma ticks_idle dts : forall p,
  interval p = None -> status_fetches (ticks dts p) = status_fetches p.
Proof.
  unfold ticks. induction dts as [|dt dts IH]; intros p Hi; simpl; [reflexivity|].
  rewrite IH by now apply tick_idle.
  rewrite tick_status_fetches, Hi. lia.
Qed.

Lemma merge_truthy data prev s :
  truthy data = true -> merge data prev = Some s -> truthy s = true.
Proof.
  intros Hd. unfold merge. destruct prev as [v|]; [destruct (truthy v)|];
    intros [= <-]; trivial.
Qed.

Lemma session_truthy_ext p q : session q = session p -> session_truthy p -> session_truthy q.
Proof. unfold session_truthy. now intros ->. Qed.

Lemma session_truthy_setSession f p :
  (forall s, f (session p) = Some s -> truthy s = true) -> session_truthy (setSession f p).
Proof. unfold session_truthy. now rewrite setSession_session. Qed.

Lemma session_truthy_step e p q : session_truthy p -> step e p = Some q -> session_truthy q.
Proof.
  intros Hs. destruct e as [| | i | dt | k o]; simpl.
  - intros [= <-]. unfold handleCreateSession_start.
    destruct (negb _); [assumption|]. now apply (session_truthy_ext p).
  - intros [= <-]. unfold handleStartBot_start.
    destruct (session p) as [s|] eqn:E; [|assumption].
    destruct (negb (truthy s)); [assumption|].
    destruct (negb _); now apply (session_truthy_ext p).
  - intros [= <-]. unfold selectInterview.
    destruct (Nat.eqb _ _); [assumption|].
    apply (session_truthy_ext (setSession (fun _ => None) (with_selected i p)));
      [reflexivity|]. apply session_truthy_setSession. discriminate.
  - destruct (dt <? 0)%Z; [discriminate|]. intros [= <-].
    apply (session_truthy_ext p); [apply tick_session | assumption].
  - assert (Hr : session_truthy (remove_request k p)) by now apply (session_truthy_ext p).
    revert Hr. generalize (remove_request k p). intros r Hr.
    destruct (inflight p !! k) as [[| | sid]|]; [| | |discriminate].
    + unfold handleCreateSession_resume. destruct o as [e | status body]; simpl.
      * intros [= <-]. now apply (session_truthy_ext r).
      * destruct (ok status); simpl; [|intros [= <-]; now apply (session_truthy_ext r)].
        destruct (truthy (parseJsonSafe body)) eqn:Ht; simpl;
          [|intros [= <-]; now apply (session_truthy_ext r)].
        intros [= <-].
        apply (session_truthy_ext (setSession (fun _ => Some (parseJsonSafe body)) r));
          [reflexivity|]. apply session_truthy_setSession. now intros s [= <-].
    + unfold handleStartBot_resume. destruct o as [e | status body]; simpl.
      * intros [= <-]. now apply (session_truthy_ext r).
      * destruct (ok status); simpl; [|intros [= <-]; now apply (session_truthy_ext r)].
        destruct (truthy (parseJsonSafe body)) eqn:Ht; simpl;
          [|intros [= <-]; now apply (session_truthy_ext r)].
        intros [= <-].
        apply (session_truthy_ext (setSession (merge (parseJsonSafe body)) r));
          [reflexivity|]. apply session_truthy_setSession.
        intros s. now apply merge_truthy.
    + unfold fetchSessionStatus_resume. destruct o as [e | status body]; simpl.
      * intros [= <-]. now apply (session_truthy_ext r).
      * destruct (ok status); simpl; [|now intros [= <-]].
        destruct (truthy (parseJsonSafe body)) eqn:Ht; simpl; [|now intros [= <-]].
        intros [= <-]. apply session_truthy_setSession.
        intros s. now apply merge_truthy.
Qed.

Lemma reachable_session_truthy n es p : run es (initial n) = Some p -> session_truthy p.
Proof.
  assert (H : session_truthy (initial n)) by (intros s; discriminate).
  revert H. generalize (initial n). induction es as [|e es IH]; simpl; intros p0 H0.
  - now intros [= <-].
  - destruct (step e p0) as [p'|] eqn:E; [|discriminate].
    apply IH. eapply session_truthy_step; eassumption.
Qed.


Lemma unknown_not_pollable st : st ∉ known_statuses -> pollable (Some (JStr st)) = false.
Proof.
  unfold known_statuses. rewrite !not_elem_of_cons. intros (_ & H1 & H2 & H3 & _).
  simpl. apply bool_decide_eq_false_2. unfold pollableStatuses.
  rewrite !not_elem_of_cons. repeat split; try assumption. apply not_elem_of_nil.
Qed.

(** Without a pollable status there is no interval, and time adds no
    status fetch. *)
Lemma not_pollable_idle p :
  synced p -> pollable (session_get (session p) "status") = false ->
  interval p = None /\ forall dts, status_fetches (ticks dts p) = status_fetches p.
Proof.
  intros Hs Hp. assert (Hi : interval p = None).
  { unfold synced, wants_polling in Hs. destruct (interval p) as [t|]; [|reflexivity].
    destruct Hs as (Hw & _). rewrite Hp, andb_false_r in Hw. discriminate. }
  split; [assumption|]. intros dts. now apply ticks_idle.
Qed.

Lemma unknown_label st :
  st ∉ known_statuses -> st ∉ object_prototype_names ->
  record_get SESSION_STATUS_LABELS st = Absent.
Proof.
  intros Hk Hp. unfold record_get.
  assert (SESSION_STATUS_LABELS !! st = None) as ->.
  { apply not_elem_of_list_to_map_1. exact Hk. }
  now rewrite bool_decide_eq_false_2.
Qed.

(** C1 (as amended). For every session the page can hold whose status is
    a string outside the six known ones, the polling effect holds no
    interval and time passing issues no status fetch (only [bot_starting],
    [bot_running] and [bot_stopping] are polled); the status line shows
    the generic "Updating session..." text, provided the string is not a
    name that object literals inherit. *)
Theorem unknown_status_not_polled_generic_label (n : nat) (es : list event) (p : page)
    (s : json) (st : string) :
  run es (initial n) = Some p ->
  session p = Some s ->
  get s "status" = Some (JStr st) ->
  st ∉ known_statuses ->
  interval p = None
  /\ (forall dts, status_fetches (ticks dts p) = status_fetches p)
  /\ (st ∉ object_prototype_names ->
      statusDescription (session p) = Some (Text "Updating session...")).
Proof.
  intros Hrun Hs Hst Hk.
  pose proof (reachable_synced _ _ _ Hrun) as Hsync.
  pose proof (reachable_session_truthy _ _ _ Hrun s Hs) as Ht.
  assert (Hp : pollable (session_get (session p) "status") = false).
  { rewrite Hs. simpl. rewrite Hst. now apply unknown_not_pollable. }
  destruct (not_pollable_idle p Hsync Hp) as [Hi Hflat].
  repeat split; try assumption.
  intros Hproto. rewrite Hs. unfold statusDescription. rewrite Ht, Hst. simpl.
  now rewrite unknown_label.
Qed.

Lemma unknown_status_not_polled_generic_label_witness :
  statusDescription (Some (snapshot "paused")) = Some (Text "Updating session...")
  /\ status_fetches (ticks [4000; 4000]%Z (page_after (create_session "paused"))) = 0.
Proof.
  assert (Hk : "paused" ∉ known_statuses).
  { unfold known_statuses. rewrite !not_elem_of_cons.
    repeat split; try discriminate. apply not_elem_of_nil. }
  assert (Hp : "paused" ∉ object_prototype_names).
  { unfold object_prototype_names. rewrite !not_elem_of_cons.
    repeat split; try discriminate. apply not_elem_of_nil. }
  destruct (unknown_status_not_polled_generic_label 1 (create_session "paused")
              (page_after (create_session "paused")) (snapshot "paused") "paused"
              eq_refl eq_refl eq_refl Hk) as (_ & Hflat & Hlabel).
  split; [exact (Hlabel Hp) | exact (Hflat [4000; 4000]%Z)].
Defined.

(** A status that names something every object inherits finds that value
    in the label table, so the generic text is not used for it. *)
Example inherited_name_is_not_a_label :
  statusDescription (Some (snapshot "constructor")) = Some (PrototypeValue "constructor").
Proof. reflexivity. Qed.

(** C1 (as stated) fails: a session that comes back with the unknown
    status ["paused"] is not polled: eight seconds later there is no
    interval and no status fetch has been issued. *)
Lemma unknown_status_is_not_polled :
("paused" ∉ known_statuses)
  /\ (fun p => (interval p, status_fetches p, clock p))
       <$> run (create_session "paused" ++ [Tick 4000; Tick 4000]) (initial 1)
     = Some (None, 0, 8000%Z).
Proof.
  split; [|reflexivity].
  unfold known_statuses. rewrite !not_elem_of_cons.
  repeat split; try discriminate. apply not_elem_of_nil.
Qed.









Lemma object_is_text x : object_is (Some (JStr x)) (Some (JStr x)) = true.
Proof. simpl. apply String.eqb_refl. Qed.











Lemma fetchSessionStatus_resume_failed o p :
  failed o = true ->
  fetchSessionStatus_resume o p = Normal p \/ fetchSessionStatus_resume o p = Normal (log p).
Proof.
  unfold failed, fetchSessionStatus_resume. destruct o as [e | status body]; simpl.
  - now right.
  - intros H. destruct (ok status); simpl in *; [|now left].
    rewrite H. now left.
Qed.

Lemma tick_depends dt p q :
  interval q = interval p -> clock q = clock p -> status_fetches q = status_fetches p ->
  status_fetches (tick dt q) = status_fetches (tick dt p)
  /\ interval (tick dt q) = interval (tick dt p).
Proof.
  intros Hi Hc Hf. split.
  - now rewrite !tick_status_fetches, Hi, Hc, Hf.
  - unfold tick. rewrite Hi, Hc. destruct (interval p) as [t|] eqn:E; simpl; [reflexivity|].
    congruence.
Qed.

(** C7. A status fetch that fails (rejected, a status that is not a
    success, or a body that is not JSON) leaves the session, the error
    banner, the interval and the fetch count as they were (a rejection is
    logged on the console), so further time brings the same fetches as if
    it had not happened; and [fetchSessionStatus] ends normally on every
    outcome: nothing is raised to the caller. *)
Theorem status_fetch_failure_swallowed (p : page) (k : nat) (sid : option json) (o : outcome) :
  inflight p !! k = Some (ReqStatus sid) ->
  failed o = true ->
  (exists q, step (Response k o) p = Some q
     /\ session q = session p /\ errorMessage q = errorMessage p
     /\ interval q = interval p /\ clock q = clock p
     /\ status_fetches q = status_fetches p
     /\ (logged q = logged p \/ logged q = S (logged p))
     /\ forall dt, status_fetches (tick dt q) = status_fetches (tick dt p)
                   /\ interval (tick dt q) = interval (tick dt p))
  /\ (forall o' p0, exists q0, fetchSessionStatus_resume o' p0 = Normal q0).
Proof.
  intros Hk Hf. split.
  - simpl. rewrite Hk.
    destruct (fetchSessionStatus_resume_failed o (remove_request k p) Hf) as [-> | ->];
      simpl; eexists; (split; [reflexivity|]); simpl;
      (do 6 (split; [auto|])); intros dt; now apply tick_depends.
  - intros o' p0. destruct (fetchSessionStatus_resume_normal o' p0) as (q0 & H & _). eauto.
Qed.

Lemma status_fetch_failure_swallowed_witness :
  exists q,
    step (Response 0 (Rejected (ErrorObj "Failed to fetch")))
      (page_after (create_session "bot_running")) = Some q
    /\ session q = session (page_after (create_session "bot_running"))
    /\ errorMessage q = None
    /\ status_fetches (tick 4000 q) = 2.
Proof.
  assert (Hk : inflight (page_after (create_session "bot_running")) !! 0
               = Some (ReqStatus (Some (JStr "s1")))) by reflexivity.
  assert (Hf : failed (Rejected (ErrorObj "Failed to fetch")) = true) by reflexivity.
  destruct (status_fetch_failure_swallowed _ 0 _ _ Hk Hf)
    as [(q & Hq & Hs & He & _ & _ & _ & _ & Ht) _].
  exists q. split; [exact Hq|]. split; [exact Hs|].
  split; [rewrite He; reflexivity|]. destruct (Ht 4000%Z) as [-> _]. reflexivity.
Defined.

(** C8. A successful status fetch merges the response into the session
    held: every field the response has takes the response's value, every
    other field keeps the value it had, and no field is dropped. (With no
    session held, the response becomes the session.) *)
Theorem status_fetch_merges (p : page) (k : nat) (sid : option json) (code : Z)
    (data : json) :
  inflight p !! k = Some (ReqStatus sid) ->
  ok code = true ->
  truthy data = true ->
  exists q,
    step (Response k (Responded code (Some data))) p = Some q
    /\ (session p = None -> session q = Some data)
    /\ (forall prev, session p = Some prev -> truthy prev = true ->
        exists m, session q = Some (JObj m)
          /\ (forall key v, get data key = Some v -> m !! key = Some v)
          /\ (forall key, get data key = None -> m !! key = get prev key)
          /\ (forall key, is_Some (get prev key) -> is_Some (m !! key))).
Proof.
  intros Hk Hok Hd. simpl. rewrite Hk.
  unfold fetchSessionStatus_resume. simpl. rewrite Hok, Hd. simpl.
  eexists. split; [reflexivity|]. rewrite setSession_session. simpl. split.
  - now intros ->.
  - intros prev -> Hp. simpl. rewrite Hp. exists (own_props data ∪ own_props prev).
    split; [reflexivity|]. unfold get. repeat split.
    + intros key v Hv. now apply lookup_union_Some_l.
    + intros key Hn. now apply lookup_union_r.
    + intros key [v Hv]. rewrite lookup_union.
      rewrite Hv. destruct (own_props data !! key); simpl; eauto.
Qed.

Lemma status_fetch_merges_witness :
  exists q m,
    step (Response 0 (Responded 200 (Some (JObj {[ "status" := JStr "bot_completed";
                                                  "conversationId" := JStr "conv-42" ]}))))
      (page_after (create_session "bot_running")) = Some q
    /\ session q = Some (JObj m)
    /\ m !! "status" = Some (JStr "bot_completed")
    /\ m !! "conversationId" = Some (JStr "conv-42")
    /\ m !! "roomUrl" = Some (JStr "https://x.daily.co/r1").
Proof.
  pose (data := JObj {[ "status" := JStr "bot_completed"; "conversationId" := JStr "conv-42" ]}).
  assert (Hk : inflight (page_after (create_session "bot_running")) !! 0
               = Some (ReqStatus (Some (JStr "s1")))) by reflexivity.
  assert (Hok : ok 200 = true) by reflexivity.
  assert (Hd : truthy data = true) by reflexivity.
  assert (Hs : session (page_after (create_session "bot_running"))
               = Some (snapshot "bot_running")) by reflexivity.
  assert (Hp : truthy (snapshot "bot_running") = true) by reflexivity.
  destruct (status_fetch_merges _ 0 _ 200 data Hk Hok Hd) as (q & Hq & _ & Hmerge).
  destruct (Hmerge _ Hs Hp) as (m & Hm & Hover & Hkeep & _).
  exists q, m. split; [exact Hq|]. split; [exact Hm|].
  split; [now apply Hover|]. split; [now apply Hover|].
  now rewrite Hkeep.
Defined.

End PollingFacts.

(* ===================================================================== *)
(** ** Facts: the analysis retrieval reconciler *)
(* ===================================================================== *)

Module ReconcilerFacts.
Import Js Reconciler.

(** The invariant only looks at the closures, the cleanup, the timers and
    the requests. *)
Lemma inv_ext c c' :
  closures c' = closures c -> cleanup c' = cleanup c -> timers c' = timers c ->
  inflight c' = inflight c -> next_timer c' = next_timer c ->
  inv c -> inv c'.
Proof.
  intros H1 H2 H3 H4 H5 [A B C D E F].
  constructor; unfold cancelled, timeout_of, live_requests in *;
    rewrite ?H1, ?H2, ?H3, ?H4, ?H5; assumption.
Qed.

Lemma filter_none {A} (P : A -> Prop) `{forall x, Decision (P x)} (l : list A) :
  (forall x, x ∈ l -> ~ P x) -> filter P l = [].
Proof.
  induction l as [|a l IH]; intros Hl; [reflexivity|].
  rewrite filter_cons_False by (apply Hl; left).
  apply IH. intros x Hx. apply Hl. now right.
Qed.

Lemma cancelled_cancel i j c :
  cancelled j (cancel i c) = if decide (i = j) then true else cancelled j c.
Proof.
  unfold cancelled, cancel. simpl. rewrite list_lookup_alter.
  destruct (decide (i = j)) as [->|]; [|reflexivity].
  destruct (closures c !! j); reflexivity.
Qed.

Lemma timeout_of_cancel i j c : timeout_of j (cancel i c) = timeout_of j c.
Proof.
  unfold timeout_of, cancel. simpl. rewrite list_lookup_alter.
  destruct (decide (i = j)) as [->|]; [|reflexivity].
  destruct (closures c !! j); reflexivity.
Qed.

Lemma cancelled_assign i j v c : cancelled j (assign_timeout i v c) = cancelled j c.
Proof.
  unfold cancelled, assign_timeout. simpl. rewrite list_lookup_alter.
  destruct (decide (i = j)) as [->|]; [|reflexivity].
  destruct (closures c !! j); reflexivity.
Qed.

Lemma timeout_of_assign i v c :
  i < List.length (closures c) -> timeout_of i (assign_timeout i v c) = v.
Proof.
  intros Hi. unfold timeout_of, assign_timeout. simpl. rewrite list_lookup_alter_eq.
  destruct (lookup_lt_is_Some_2 _ _ Hi) as [cl ->]. reflexivity.
Qed.

(** After the cleanup nothing of the old run is left to fire. *)
Lemma effect_cleanup_quiescent c :
  inv c ->
  quiescent (effect_cleanup c)
  /\ inflight (effect_cleanup c) = inflight c
  /\ next_timer (effect_cleanup c) = next_timer c
  /\ List.length (closures (effect_cleanup c)) = List.length (closures c)
  /\ visible (effect_cleanup c) = visible c
  /\ param (effect_cleanup c) = param c /\ mounted (effect_cleanup c) = mounted c.
Proof.
  intros [Hlive Hcur Htim Hsingle Hfresh Hreq]. unfold effect_cleanup.
  destruct (cleanup c) as [i|] eqn:Hc.
  - assert (Hgone : timers (match timeout_of i (cancel i c) with
                            | Some t => clearTimeout t (cancel i c)
                            | None => cancel i c
                            end) = []).
    { rewrite timeout_of_cancel. destruct (timeout_of i c) as [t|] eqn:Ht; simpl.
      - apply filter_none. intros x Hx Hne. destruct (Htim x Hx) as [Ho Hto].
        congruence.
      - destruct (timers c) as [|x l] eqn:E; [reflexivity|].
        destruct (Htim x) as [Ho Hto]; [left|]. congruence. }
    assert (Hcl : closures (match timeout_of i (cancel i c) with
                            | Some t => clearTimeout t (cancel i c)
                            | None => cancel i c
                            end) = closures (cancel i c))
      by (destruct (timeout_of i (cancel i c)); reflexivity).
    assert (Hrest : forall X (f : component -> X),
              (forall t d, f (clearTimeout t d) = f d) ->
              f (match timeout_of i (cancel i c) with
                 | Some t => clearTimeout t (cancel i c)
                 | None => cancel i c
                 end) = f (cancel i c))
      by (intros X f Hf; destruct (timeout_of i (cancel i c)); [apply Hf | reflexivity]).
    split; [|repeat split; simpl; try (now rewrite Hrest); try reflexivity].
    + constructor; simpl.
      * reflexivity.
      * exact Hgone.
      * rewrite Hcl. simpl. intros j cl. rewrite list_lookup_alter.
        destruct (decide (i = j)) as [->|Hne].
        -- destruct (closures c !! j); simpl; [|discriminate]. now intros [= <-].
        -- intros Hj. destruct (isCancelled cl) eqn:Hcan; [reflexivity|].
           pose proof (Hlive j cl Hj Hcan). congruence.
      * rewrite Hcl, (Hrest _ inflight) by reflexivity. simpl.
        rewrite length_alter. exact Hreq.
    + rewrite Hcl. simpl. apply length_alter.
    + unfold visible. simpl.
      now rewrite (Hrest _ st_status), (Hrest _ st_isLoading), (Hrest _ st_error).
  - split; [|repeat split].
    constructor; try assumption.
    + destruct (timers c) as [|x l] eqn:E; [reflexivity|].
      destruct (Htim x) as [Ho _]; [left|]. discriminate.
    + intros j cl Hj. destruct (isCancelled cl) eqn:Hcan; [reflexivity|].
      pose proof (Hlive j cl Hj Hcan). congruence.
Qed.

Lemma quiescent_inv c : quiescent c -> inv c.
Proof.
  intros [Hc Ht Hcan Hreq]. constructor.
  - intros i cl Hi Hf. rewrite (Hcan i cl Hi) in Hf. discriminate.
  - intros i Hi. congruence.
  - rewrite Ht. intros x Hx. now apply elem_of_nil in Hx.
  - rewrite Ht. unfold live_requests. rewrite filter_none; [simpl; lia|].
    intros r _. rewrite Hc. discriminate.
  - rewrite Ht. intros x Hx. now apply elem_of_nil in Hx.
  - exact Hreq.
Qed.

Lemma quiescent_ext c c' :
  closures c' = closures c -> cleanup c' = cleanup c -> timers c' = timers c ->
  inflight c' = inflight c -> quiescent c -> quiescent c'.
Proof.
  intros H1 H2 H3 H4 [A B C D]. constructor; rewrite ?H1, ?H2, ?H3, ?H4; assumption.
Qed.

(** The body of the effect starts from a quiescent state and establishes
    the invariant. *)
Lemma effect_body_inv c : quiescent c -> inv (effect_body c).
Proof.
  intros Hq. unfold effect_body.
  assert (Hidle : inv (setIsLoading false (setError None (setStatus None c)))).
  { apply quiescent_inv. now apply (quiescent_ext c). }
  simpl param. destruct (param c) as [cid|]; [|exact Hidle].
  destruct (String.eqb cid ""); [exact Hidle|].
  destruct Hq as [Hc Ht Hcan Hreq]. constructor; simpl.
  - intros i cl Hi Hf. f_equal.
    destruct (decide (i < List.length (closures c))) as [Hlt|Hge].
    + rewrite lookup_app_l in Hi by exact Hlt. rewrite (Hcan i cl Hi) in Hf. discriminate.
    + apply lookup_lt_Some in Hi. rewrite length_app in Hi. simpl in Hi. lia.
  - intros i [= <-]. unfold cancelled. simpl.
    rewrite lookup_app_r by lia. now rewrite Nat.sub_diag.
  - rewrite Ht. intros x Hx. now apply elem_of_nil in Hx.
  - rewrite Ht. unfold live_requests. simpl. rewrite filter_app.
    rewrite (filter_none _ (inflight c)).
    + simpl. rewrite filter_cons_True by reflexivity. simpl. lia.
    + intros r Hr [= Heq]. apply Hreq in Hr. lia.
  - rewrite Ht. intros x Hx. now apply elem_of_nil in Hx.
  - intros r. rewrite elem_of_app, list_elem_of_singleton, length_app. simpl.
    intros [Hr | ->]; [apply Hreq in Hr|simpl]; lia.
Qed.

Lemma mount_inv cid : inv (mount cid).
Proof.
  apply effect_body_inv. constructor; simpl; try reflexivity.
  - intros i cl Hi. now rewrite lookup_nil in Hi.
  - intros r Hr. now apply elem_of_nil in Hr.
Qed.

Lemma find_timer_Some t c x : find_timer t c = Some x -> x ∈ timers c /\ tid x = t.
Proof.
  unfold find_timer. intros H. apply List.find_some in H as [Hin Heq].
  split; [now apply list_elem_of_In | now apply Nat.eqb_eq].
Qed.

Lemma find_timer_None t c : timers c = [] -> find_timer t c = None.
Proof. unfold find_timer. now intros ->. Qed.

(** An outstanding timer is the only one, and no request of the current
    run is in flight beside it. *)
Lemma single_timer c x :
  inv c -> x ∈ timers c -> timers c = [x] /\ live_requests c = [].
Proof.
  intros Hinv Hx. pose proof (inv_single c Hinv) as Hs.
  destruct (timers c) as [|y [|z l]] eqn:E; simpl in Hs.
  - now apply elem_of_nil in Hx.
  - apply list_elem_of_singleton in Hx as ->. split; [reflexivity|].
    destruct (live_requests c); [reflexivity | simpl in Hs; lia].
  - lia.
Qed.

Lemma cancelled_false i c :
  cancelled i c = false -> exists cl, closures c !! i = Some cl /\ isCancelled cl = false.
Proof. unfold cancelled. destruct (closures c !! i) as [cl|]; [eauto | discriminate]. Qed.

Lemma live_requests_remove c k r :
  inflight c !! k = Some r ->
  List.length (live_requests c)
  = List.length (live_requests (remove_request k c))
    + (if decide (cleanup c = Some (req_owner r)) then 1 else 0).
Proof.
  intros Hk. unfold live_requests, remove_request. simpl.
  rewrite <- (take_drop_middle _ _ _ Hk) at 1.
  rewrite !filter_app, filter_cons, !length_app.
  destruct (decide (cleanup c = Some (req_owner r))); simpl; lia.
Qed.

Lemma elem_of_remove_request c k r : r ∈ inflight (remove_request k c) -> r ∈ inflight c.
Proof.
  unfold remove_request. simpl. rewrite elem_of_app. intros [H|H].
  - now apply (subseteq_take k).
  - now apply (subseteq_drop (S k)).
Qed.

Lemma live_requests_remove_subseteq c k r :
  r ∈ live_requests (remove_request k c) -> r ∈ live_requests c.
Proof.
  unfold live_requests. rewrite !list_elem_of_filter. simpl.
  intros [H1 H2]. split; [assumption|]. eapply elem_of_remove_request. exact H2.
Qed.

(** Taking a settled request out keeps the invariant; if its run is the
    current one, no timer is outstanding and no other request of the run
    is in flight. *)
Lemma remove_request_inv c k r :
  inv c -> inflight c !! k = Some r ->
  inv (remove_request k c)
  /\ (cancelled (req_owner r) c = false ->
      timers c = [] /\ live_requests (remove_request k c) = []).
Proof.
  intros Hinv Hk. pose proof (live_requests_remove c k r Hk) as Hlen.
  destruct Hinv as [Hlive Hcur Htim Hsingle Hfresh Hreq]. split.
  - constructor; try assumption.
    + simpl. destruct (decide (cleanup c = Some (req_owner r))); lia.
    + intros x Hx. apply Hreq. eapply elem_of_remove_request. exact Hx.
  - intros Hc. apply cancelled_false in Hc as (cl & Hcl & Hf).
    pose proof (Hlive _ _ Hcl Hf) as Hcu.
    rewrite decide_True in Hlen by assumption.
    split; [destruct (timers c) | destruct (live_requests (remove_request k c))];
      try reflexivity; simpl in *; lia.
Qed.

Lemma timer_fire_inv c t x :
  inv c -> find_timer t c = Some x ->
  inv (fetchAnalysis_start (owner x) false (clearTimeout t c)).
Proof.
  intros Hinv Hf. apply find_timer_Some in Hf as [Hx Ht].
  destruct (single_timer c x Hinv Hx) as [Htimers Hno].
  destruct Hinv as [Hlive Hcur Htim Hsingle Hfresh Hreq].
  destruct (Htim x Hx) as [Ho Hto].
  assert (Hgone : filter (fun y => tid y ≠ t) (timers c) = []).
  { rewrite Htimers. apply filter_none. intros y Hy.
    apply list_elem_of_singleton in Hy as ->. congruence. }
  constructor; unfold fetchAnalysis_start, clearTimeout; simpl; try assumption.
  - rewrite Hgone. intros y Hy. now apply elem_of_nil in Hy.
  - rewrite Hgone. unfold live_requests in *. simpl. rewrite filter_app, Hno.
    rewrite filter_cons_True by exact Ho. simpl. lia.
  - rewrite Hgone. intros y Hy. now apply elem_of_nil in Hy.
  - intros r. rewrite elem_of_app, list_elem_of_singleton.
    intros [Hr | ->]; [now apply Hreq|]. simpl.
    unfold timeout_of in Hto. destruct (closures c !! owner x) eqn:E; [|discriminate].
    eapply lookup_lt_Some. exact E.
Qed.

Lemma normalizeResponse_truthy payload :
  truthy payload = true -> normalizeResponse payload = Normal (view_of payload).
Proof. destruct payload; simpl; intros H; try reflexivity. discriminate. Qed.

Lemma cancelled_accepted i j payload c : cancelled j (accepted i payload c) = cancelled j c.
Proof.
  unfold accepted. simpl.
  assert (H : cancelled j
                (match timeout_of i (setError None (setStatus (Some (view_of payload)) c)) with
                 | Some t => assign_timeout i None
                               (clearTimeout t (setError None (setStatus (Some (view_of payload)) c)))
                 | None => setError None (setStatus (Some (view_of payload)) c)
                 end) = cancelled j c).
  { destruct (timeout_of i _); [rewrite cancelled_assign|]; reflexivity. }
  destruct (is_text _ _); [rewrite cancelled_assign|]; exact H.
Qed.

(** A request of a cancelled run settles without touching anything. *)
Lemma resume_cancelled r o c :
  cancelled (req_owner r) c = true -> fetchAnalysis_resume r o c = Normal c.
Proof.
  intros Hc. unfold fetchAnalysis_resume, fetchAnalysis_try, fetchAnalysis_catch,
    fetchAnalysis_finally.
  destruct o as [e | code body]; simpl; rewrite ?Hc; simpl.
  - now rewrite Hc.
  - destruct (negb (ok code) || negb (truthy (json_or_null body))); simpl; now rewrite Hc.
Qed.

(** A failed fetch of the current run stores the message and schedules
    nothing. *)
Lemma resume_failed r o c :
  cancelled (req_owner r) c = false -> failed o = true ->
  fetchAnalysis_resume r o c
  = Normal (if withSpinner r then setIsLoading false (setError (Some (error_text o)) c)
            else setError (Some (error_text o)) c).
Proof.
  intros Hc Hf. unfold fetchAnalysis_resume, fetchAnalysis_try, fetchAnalysis_catch,
    fetchAnalysis_finally.
  destruct o as [e | code body]; simpl in *.
  - rewrite Hc. simpl. unfold cancelled in *. simpl. rewrite Hc. simpl.
    now destruct (withSpinner r).
  - rewrite Hf. simpl. rewrite Hc. simpl. unfold cancelled in *. simpl. rewrite Hc. simpl.
    now destruct (withSpinner r).
Qed.

Lemma try_success i code payload c :
  cancelled i c = false -> ok code = true -> truthy payload = true ->
  fetchAnalysis_try i (Responded code (Some payload)) c = Normal (accepted i payload c).
Proof.
  intros Hc Hok Ht. unfold fetchAnalysis_try. simpl.
  rewrite Hok, Ht, Hc. simpl. rewrite (normalizeResponse_truthy _ Ht). simpl.
  unfold accepted. destruct (is_text (get payload "status") "pending"); reflexivity.
Qed.

(** A successful response is taken in by the current run. *)
Lemma resume_success r code payload c :
  cancelled (req_owner r) c = false -> ok code = true -> truthy payload = true ->
  fetchAnalysis_resume r (Responded code (Some payload)) c
  = Normal (if withSpinner r then setIsLoading false (accepted (req_owner r) payload c)
            else accepted (req_owner r) payload c).
Proof.
  intros Hc Hok Ht. unfold fetchAnalysis_resume.
  rewrite try_success by assumption. simpl.
  unfold fetchAnalysis_finally. rewrite cancelled_accepted, Hc. simpl.
  now destruct (withSpinner r).
Qed.

Lemma failed_false o :
  failed o = false ->
  exists code payload, o = Responded code (Some payload) /\ ok code = true
                       /\ truthy payload = true.
Proof.
  destruct o as [e | code [payload|]]; simpl; try discriminate.
  - intros H. apply orb_false_elim in H as [H1 H2].
    apply negb_false_iff in H1, H2. eauto.
  - rewrite orb_true_r. discriminate.
Qed.

(** [fetchAnalysis] ends normally on every outcome. *)
Lemma resume_normal r o c : exists c', fetchAnalysis_resume r o c = Normal c'.
Proof.
  destruct (cancelled (req_owner r) c) eqn:Hc.
  - rewrite resume_cancelled by assumption. eauto.
  - destruct (failed o) eqn:Hf.
    + rewrite resume_failed by assumption. eauto.
    + apply failed_false in Hf as (code & payload & -> & Hok & Ht).
      rewrite resume_success by assumption. eauto.
Qed.

Lemma inv_live_cancelled c i : inv c -> cancelled i c = false -> cleanup c = Some i.
Proof.
  intros Hinv Hc. apply cancelled_false in Hc as (cl & Hcl & Hf).
  eapply inv_live; eassumption.
Qed.

Lemma lookup_cancelled c i cl :
  closures c !! i = Some cl -> cancelled i c = isCancelled cl.
Proof. unfold cancelled. now intros ->. Qed.

(** What taking a response in changes, given that no timer is outstanding
    (the request just settled belonged to the current run). *)
Lemma accepted_fields i payload c :
  timers c = [] ->
  timers (accepted i payload c)
  = (if is_text (get payload "status") "pending"
     then [{| tid := next_timer c; owner := i; delay := RETRY_DELAY |}] else [])
  /\ next_timer (accepted i payload c)
     = (if is_text (get payload "status") "pending" then S (next_timer c) else next_timer c)
  /\ cleanup (accepted i payload c) = cleanup c
  /\ inflight (accepted i payload c) = inflight c
  /\ List.length (closures (accepted i payload c)) = List.length (closures c)
  /\ st_status (accepted i payload c) = Some (view_of payload)
  /\ st_error (accepted i payload c) = None
  /\ st_isLoading (accepted i payload c) = st_isLoading c
  /\ param (accepted i payload c) = param c
  /\ mounted (accepted i payload c) = mounted c.
Proof.
  intros Ht. unfold accepted.
  change (timeout_of i (setError None (setStatus (Some (view_of payload)) c)))
    with (timeout_of i c).
  destruct (timeout_of i c) as [t|]; destruct (is_text (get payload "status") "pending");
    simpl; rewrite ?Ht, ?length_alter; simpl; repeat split; reflexivity.
Qed.

Lemma accepted_timeout i payload c :
  timers c = [] -> i < List.length (closures c) ->
  is_text (get payload "status") "pending" = true ->
  timeout_of i (accepted i payload c) = Some (next_timer c).
Proof.
  intros Ht Hi Hp. unfold accepted. rewrite Hp.
  change (timeout_of i (setError None (setStatus (Some (view_of payload)) c)))
    with (timeout_of i c).
  destruct (timeout_of i c) as [t|]; rewrite timeout_of_assign; simpl;
    rewrite ?length_alter; auto.
Qed.

Lemma accepted_inv i payload c :
  inv c -> timers c = [] -> live_requests c = [] -> cleanup c = Some i ->
  i < List.length (closures c) ->
  inv (accepted i payload c).
Proof.
  intros Hinv Ht Hl Hc Hi.
  destruct (accepted_fields i payload c Ht)
    as (Htim & Hnext & Hcl & Hin & Hlen & _).
  constructor.
  - intros j cl Hj Hf. rewrite Hcl. apply (inv_live_cancelled c j Hinv).
    rewrite <- (cancelled_accepted i j payload c). now rewrite (lookup_cancelled _ _ _ Hj).
  - intros j Hj. rewrite cancelled_accepted. apply (inv_current c Hinv). congruence.
  - rewrite Htim. destruct (is_text (get payload "status") "pending") eqn:Hp.
    + intros x Hx. apply list_elem_of_singleton in Hx as ->. simpl.
      split; [congruence|]. now apply accepted_timeout.
    + intros x Hx. now apply elem_of_nil in Hx.
  - unfold live_requests in *. rewrite Hcl, Hin, Hl, Htim.
    destruct (is_text _ _); simpl; lia.
  - rewrite Htim, Hnext. destruct (is_text _ _).
    + intros x Hx. apply list_elem_of_singleton in Hx as ->. simpl. lia.
    + intros x Hx. now apply elem_of_nil in Hx.
  - rewrite Hin, Hlen. apply (inv_requests c Hinv).
Qed.

Lemma fetch_done_inv c k r o c' :
  inv c -> inflight c !! k = Some r ->
  fetchAnalysis_resume r o (remove_request k c) = Normal c' -> inv c'.
Proof.
  intros Hinv Hk. destruct (remove_request_inv c k r Hinv Hk) as [Hinv0 Hcur].
  assert (Hlt : req_owner r < List.length (closures c)).
  { apply (inv_requests c Hinv). eapply list_elem_of_lookup_2. exact Hk. }
  destruct (cancelled (req_owner r) (remove_request k c)) eqn:Hc.
  - rewrite resume_cancelled by assumption. now intros [= <-].
  - destruct (Hcur Hc) as [Ht Hl].
    destruct (failed o) eqn:Hf.
    + rewrite resume_failed by assumption. intros [= <-].
      destruct (withSpinner r); now apply (inv_ext (remove_request k c)).
    + apply failed_false in Hf as (code & payload & -> & Hok & Htr).
      rewrite resume_success by assumption. intros [= <-].
      assert (inv (accepted (req_owner r) payload (remove_request k c))).
      { apply accepted_inv; try assumption.
        now apply (inv_live_cancelled _ _ Hinv0). }
      destruct (withSpinner r); [|assumption].
      now apply (inv_ext (accepted (req_owner r) payload (remove_request k c))).
Qed.

Lemma navigate_inv cid c : inv c -> inv (navigate cid c).
Proof.
  intros Hinv. unfold navigate. destruct (bool_decide (cid = param c)); [assumption|].
  apply effect_body_inv. apply effect_cleanup_quiescent.
  now apply (inv_ext c).
Qed.

Lemma unmount_inv c : inv c -> inv (unmount c).
Proof.
  intros Hinv. unfold unmount.
  apply (inv_ext (effect_cleanup c)); try reflexivity.
  apply quiescent_inv. now apply effect_cleanup_quiescent.
Qed.

Lemma step_inv e c c' : inv c -> step e c = Some c' -> inv c'.
Proof.
  intros Hinv. destruct e as [cid | | t | k o]; simpl.
  - destruct (mounted c); [|discriminate]. intros [= <-]. now apply navigate_inv.
  - destruct (mounted c); [|discriminate]. intros [= <-]. now apply unmount_inv.
  - destruct (find_timer t c) as [x|] eqn:Hf; [|discriminate].
    intros [= <-]. now apply timer_fire_inv.
  - destruct (inflight c !! k) as [r|] eqn:Hk; [|discriminate].
    destruct (fetchAnalysis_resume r o (remove_request k c)) as [d|e] eqn:Hr;
      [|discriminate].
    simpl. intros [= <-]. eapply fetch_done_inv; eassumption.
Qed.

Lemma run_inv es : forall c c', inv c -> run es c = Some c' -> inv c'.
Proof.
  induction es as [|e es IH]; simpl; intros c c' Hinv.
  - now intros [= <-].
  - destruct (step e c) as [d|] eqn:E; [|discriminate].
    apply IH. eapply step_inv; eassumption.
Qed.

(** The invariant holds in every state the component can reach. *)
Lemma reachable_inv cid es c : run es (mount cid) = Some c -> inv c.
Proof. apply run_inv, mount_inv. Qed.

Lemma view_inv_ext c c' :
  cleanup c' = cleanup c -> param c' = param c -> st_status c' = st_status c ->
  timers c' = timers c -> inflight c' = inflight c ->
  view_inv c -> view_inv c'.
Proof.
  intros H1 H2 H3 H4 H5 [A B C].
  constructor; unfold live_requests in *; rewrite ?H1, ?H2, ?H3, ?H4, ?H5; assumption.
Qed.

Lemma view_inv_stored c c' :
  cleanup c' = cleanup c -> param c' = param c -> is_Some (st_status c') ->
  view_inv c -> view_inv c'.
Proof.
  intros H1 H2 H3 [A B C]. constructor; auto. rewrite H1, H2. exact A.
Qed.

Lemma quiescent_view c : quiescent c -> view_inv c.
Proof.
  intros [Hc Ht Hcan Hreq]. constructor.
  - intros i Hi. congruence.
  - intros r Hr. unfold live_requests in Hr. apply list_elem_of_filter in Hr as [Hr _].
    congruence.
  - rewrite Ht. intros x Hx. now apply elem_of_nil in Hx.
Qed.

Lemma effect_body_view c : quiescent c -> view_inv (effect_body c).
Proof.
  intros Hq. unfold effect_body.
  assert (Hidle : view_inv (setIsLoading false (setError None (setStatus None c)))).
  { apply quiescent_view. now apply (quiescent_ext c). }
  simpl param. destruct (param c) as [cid|] eqn:Hp; [|exact Hidle].
  destruct (String.eqb cid "") eqn:He; [exact Hidle|].
  destruct Hq as [Hc Ht Hcan Hreq]. constructor; simpl.
  - intros i _. rewrite Hp. simpl. now rewrite He.
  - intros r Hr Hs. unfold live_requests in Hr. simpl in Hr.
    apply list_elem_of_filter in Hr as [Ho Hr].
    apply elem_of_app in Hr as [Hr | Hr].
    + apply Hreq in Hr. injection Ho as Ho. lia.
    + apply list_elem_of_singleton in Hr as ->. discriminate.
  - rewrite Ht. intros x Hx. now apply elem_of_nil in Hx.
Qed.

Lemma step_view e c c' : inv c -> view_inv c -> step e c = Some c' -> view_inv c'.
Proof.
  intros Hinv Hv. destruct e as [cid | | t | k o]; simpl.
  - destruct (mounted c); [|discriminate]. intros [= <-]. unfold navigate.
    destruct (bool_decide (cid = param c)); [assumption|].
    apply effect_body_view. apply effect_cleanup_quiescent. now apply (inv_ext c).
  - destruct (mounted c); [|discriminate]. intros [= <-]. unfold unmount.
    destruct (effect_cleanup_quiescent c Hinv) as (Hq & _ & _ & _ & _ & Hpar & _).
    apply (view_inv_ext (effect_cleanup c)); simpl; try reflexivity.
    + now rewrite Hpar.
    + now apply quiescent_view.
  - destruct (find_timer t c) as [x|] eqn:Hf; [|discriminate]. intros [= <-].
    apply find_timer_Some in Hf as [Hx _].
    apply (view_inv_stored c); try reflexivity; try assumption.
    simpl. eapply v_timer; eassumption.
  - destruct (inflight c !! k) as [r|] eqn:Hk; [|discriminate].
    assert (Hv0 : view_inv (remove_request k c)).
    { destruct Hv as [A B C]. constructor; try assumption.
      intros x Hx. apply B. eapply live_requests_remove_subseteq. exact Hx. }
    destruct (remove_request_inv c k r Hinv Hk) as [Hinv0 Hcur].
    destruct (cancelled (req_owner r) (remove_request k c)) eqn:Hc.
    + rewrite resume_cancelled by assumption. simpl. now intros [= <-].
    + destruct (Hcur Hc) as [Ht Hl]. destruct (failed o) eqn:Hfail.
      * rewrite resume_failed by assumption. simpl. intros [= <-].
        destruct (withSpinner r); now apply (view_inv_ext (remove_request k c)).
      * apply failed_false in Hfail as (code & payload & -> & Hok & Htr).
        rewrite resume_success by assumption. simpl. intros [= <-].
        destruct (accepted_fields (req_owner r) payload (remove_request k c) Ht)
          as (_ & _ & Hcl & _ & _ & Hst & _ & _ & Hpar & _).
        apply (view_inv_stored (remove_request k c)); try assumption;
          destruct (withSpinner r); simpl; rewrite ?Hcl, ?Hpar, ?Hst; eauto.
Qed.

Lemma mount_view cid : view_inv (mount cid).
Proof.
  apply effect_body_view. constructor; simpl; try reflexivity.
  - intros i cl Hi. now rewrite lookup_nil in Hi.
  - intros r Hr. now apply elem_of_nil in Hr.
Qed.

Lemma reachable_view cid es c : run es (mount cid) = Some c -> inv c /\ view_inv c.
Proof.
  assert (H : inv (mount cid) /\ view_inv (mount cid))
    by (split; [apply mount_inv | apply mount_view]).
  revert H. generalize (mount cid). induction es as [|e es IH]; simpl; intros c0 [Hi Hv].
  - intros [= <-]. now split.
  - destruct (step e c0) as [d|] eqn:E; [|discriminate].
    apply IH. split; [eapply step_inv | eapply step_view]; eassumption.
Qed.

Lemma pending_response_inv o :
  pending_response o = true ->
  exists code payload, o = Responded code (Some payload) /\ ok code = true
    /\ truthy payload = true /\ is_text (get payload "status") "pending" = true.
Proof.
  destruct o as [e | code [payload|]]; simpl; try discriminate.
  intros H. apply andb_prop in H as [H H3]. apply andb_prop in H as [H1 H2]. eauto 10.
Qed.

(** C4. In every state the reconciler can reach at most one retry timer is
    outstanding; and whenever a fetch of the current run completes with a
    response that normalizes to [pending], the step leaves exactly one
    timer outstanding: a new one, with a delay of 5000 ms, recorded in the
    run's [timeout]. *)
Theorem single_retry_timer (cid : option string) (es : list event) (c : component) :
  run es (mount cid) = Some c ->
  List.length (timers c) <= 1
  /\ (forall k r o,
       inflight c !! k = Some r ->
       cancelled (req_owner r) c = false ->
       pending_response o = true ->
       exists c', step (FetchDone k o) c = Some c'
         /\ timers c' = [{| tid := next_timer c; owner := req_owner r; delay := 5000 |}]
         /\ timeout_of (req_owner r) c' = Some (next_timer c)).
Proof.
  intros Hrun. pose proof (reachable_inv _ _ _ Hrun) as Hinv. split.
  - pose proof (inv_single c Hinv). lia.
  - intros k r o Hk Hc Hp.
    apply pending_response_inv in Hp as (code & payload & -> & Hok & Htr & Hpend).
    destruct (remove_request_inv c k r Hinv Hk) as [Hinv0 Hcur].
    destruct (Hcur Hc) as [Ht Hl].
    assert (Hlt : req_owner r < List.length (closures c)).
    { apply (inv_requests c Hinv). eapply list_elem_of_lookup_2. exact Hk. }
    simpl. rewrite Hk. rewrite resume_success by assumption. simpl.
    destruct (accepted_fields (req_owner r) payload (remove_request k c) Ht)
      as (Htim & _).
    pose proof (accepted_timeout (req_owner r) payload (remove_request k c) Ht Hlt Hpend)
      as Hto.
    rewrite Hpend in Htim. simpl in Htim, Hto.
    eexists; split; [reflexivity|].
    destruct (withSpinner r); simpl; split; assumption.
Qed.

Lemma single_retry_timer_witness :
  exists c',
    step (FetchDone 0 (Responded 200 (Some pending_payload))) (mount (Some "c1")) = Some c'
    /\ timers c' = [{| tid := 1; owner := 0; delay := 5000 |}].
Proof.
  assert (Hrun : run [] (mount (Some "c1")) = Some (mount (Some "c1"))) by reflexivity.
  assert (Hk : inflight (mount (Some "c1")) !! 0
               = Some {| req_owner := 0; withSpinner := true |}) by reflexivity.
  assert (Hc : cancelled 0 (mount (Some "c1")) = false) by reflexivity.
  assert (Hp : pending_response (Responded 200 (Some pending_payload)) = true) by reflexivity.
  destruct (proj2 (single_retry_timer _ _ _ Hrun) 0 _ _ Hk Hc Hp) as (c' & Hs & Ht & _).
  exists c'. split; [exact Hs | exact Ht].
Defined.

Lemma effect_body_fields d :
  st_status (effect_body d) = None /\ st_error (effect_body d) = None
  /\ timers (effect_body d) = timers d
  /\ inflight (effect_body d)
     = (inflight d ++ if present (param d)
                      then [{| req_owner := List.length (closures d); withSpinner := true |}]
                      else [])%list
  /\ (forall i, i < List.length (closures d) ->
       cancelled i (effect_body d) = cancelled i d).
Proof.
  unfold effect_body. simpl.
  destruct (param d) as [cid|]; simpl; [destruct (String.eqb cid ""); simpl|];
    rewrite ?app_nil_r; (do 4 (split; [reflexivity|])); try reflexivity.
  intros i Hi. unfold cancelled. simpl. now rewrite lookup_app_l.
Qed.

Lemma quiescent_cancelled d i : quiescent d -> cancelled i d = true.
Proof.
  intros Hq. unfold cancelled. destruct (closures d !! i) as [cl|] eqn:E; [|reflexivity].
  eapply q_cancelled; eassumption.
Qed.

(** A request whose run was cancelled settles without any visible change. *)
Lemma stale_fetch_invisible c k r o :
  inflight c !! k = Some r -> cancelled (req_owner r) c = true ->
  step (FetchDone k o) c = Some (remove_request k c).
Proof.
  intros Hk Hc. simpl. rewrite Hk. now rewrite resume_cancelled.
Qed.

(** C10. From every state the reconciler can reach: a render with another
    [conversationId] clears the outstanding retry timer (it can no longer
    fire), marks the runs of all earlier requests cancelled, resets
    [status] and [error] to [null], and only then issues the first fetch
    for the new [conversationId]; unmounting clears the timer and cancels
    likewise; and a request whose run is cancelled settles, whatever the
    outcome, without changing what is shown and without scheduling
    anything. *)
Theorem navigate_cancels_and_resets (cid0 : option string) (es : list event) (c : component) :
  run es (mount cid0) = Some c ->
  (forall cid, mounted c = true -> cid <> param c ->
     exists c', step (Navigate cid) c = Some c'
       /\ timers c' = []
       /\ (forall x, x ∈ timers c -> step (TimerFire (tid x)) c' = None)
       /\ st_status c' = None /\ st_error c' = None
       /\ inflight c'
          = (inflight c ++ if present cid
                           then [{| req_owner := List.length (closures c);
                                    withSpinner := true |}]
                           else [])%list
       /\ (forall r, r ∈ inflight c -> cancelled (req_owner r) c' = true))
  /\ (mounted c = true ->
      exists c', step Unmount c = Some c'
        /\ timers c' = [] /\ visible c' = visible c /\ inflight c' = inflight c
        /\ (forall r, r ∈ inflight c -> cancelled (req_owner r) c' = true))
  /\ (forall k r o, inflight c !! k = Some r -> cancelled (req_owner r) c = true ->
      exists c', step (FetchDone k o) c = Some c'
        /\ visible c' = visible c /\ timers c' = timers c
        /\ closures c' = closures c).
Proof.
  intros Hrun. pose proof (reachable_inv _ _ _ Hrun) as Hinv. split; [|split].
  - intros cid Hm Hne. simpl. rewrite Hm. unfold navigate.
    rewrite bool_decide_eq_false_2 by exact Hne.
    assert (Hinv0 : inv (with_route true cid c)) by now apply (inv_ext c).
    destruct (effect_cleanup_quiescent _ Hinv0) as (Hq & Hin & _ & Hlen & _ & Hpar & _).
    destruct (effect_body_fields (effect_cleanup (with_route true cid c)))
      as (Hst & Herr & Htim & Hfl & Hcan).
    eexists; split; [reflexivity|].
    assert (Hnone : timers (effect_body (effect_cleanup (with_route true cid c))) = [])
      by (rewrite Htim; apply (q_timers _ Hq)).
    repeat split; try assumption.
    + intros x _. simpl. now rewrite find_timer_None.
    + rewrite Hfl, Hin, Hpar, Hlen. reflexivity.
    + intros r Hr. rewrite Hcan.
      * now apply quiescent_cancelled.
      * rewrite Hlen. apply (inv_requests c Hinv r Hr).
  - intros Hm. simpl. rewrite Hm. unfold unmount.
    destruct (effect_cleanup_quiescent _ Hinv) as (Hq & Hin & _ & Hlen & Hvis & _).
    eexists; split; [reflexivity|]. repeat split; try assumption.
    + apply (q_timers _ Hq).
    + intros r Hr. apply (quiescent_cancelled (effect_cleanup c)). exact Hq.
  - intros k r o Hk Hc. rewrite (stale_fetch_invisible c k r o Hk Hc).
    eexists; split; [reflexivity|]. repeat split.
Qed.

Lemma navigate_cancels_and_resets_witness :
  exists c c',
    run [FetchDone 0 (Responded 200 (Some pending_payload))] (mount (Some "c1")) = Some c
    /\ timers c = [{| tid := 1; owner := 0; delay := 5000 |}]
    /\ step (Navigate (Some "c2")) c = Some c'
    /\ timers c' = [] /\ st_status c' = None /\ st_error c' = None
    /\ inflight c' = [{| req_owner := 1; withSpinner := true |}].
Proof.
  destruct (run [FetchDone 0 (Responded 200 (Some pending_payload))] (mount (Some "c1")))
    as [c|] eqn:Hrun; [|discriminate].
  pose proof Hrun as Hval. vm_compute in Hval. injection Hval as Hval.
  assert (Hm : mounted c = true) by (rewrite <- Hval; reflexivity).
  assert (Hne : Some "c2" <> param c) by (rewrite <- Hval; discriminate).
  destruct (proj1 (navigate_cancels_and_resets _ _ _ Hrun) (Some "c2") Hm Hne)
    as (c' & Hstep & Ht & _ & Hs & He & Hin & _).
  exists c, c'. split; [reflexivity|]. split; [rewrite <- Hval; reflexivity|].
  split; [exact Hstep|]. split; [exact Ht|]. split; [exact Hs|]. split; [exact He|].
  rewrite Hin, <- Hval. reflexivity.
Defined.

(** A failed fetch of the current run with a message that is not empty:
    the message is stored, the error card is shown, and nothing is
    scheduled. *)
Lemma fetch_failure_surfaces_error (cid : option string) (es : list event) (c : component)
    (k : nat) (r : request) (o : outcome) :
  run es (mount cid) = Some c ->
  inflight c !! k = Some r ->
  cancelled (req_owner r) c = false ->
  failed o = true ->
  error_text o <> "" ->
  exists c', step (FetchDone k o) c = Some c'
    /\ st_error c' = Some (error_text o)
    /\ renderContent c' = ErrorCard (error_text o)
    /\ timers c' = [] /\ live_requests c' = [].
Proof.
  intros Hrun Hk Hc Hf Hne.
  destruct (reachable_view _ _ _ Hrun) as [Hinv Hv].
  destruct (remove_request_inv c k r Hinv Hk) as [Hinv0 Hcur].
  destruct (Hcur Hc) as [Ht Hl].
  pose proof (inv_live_cancelled c _ Hinv Hc) as Hcl.
  pose proof (v_param c Hv _ Hcl) as Hpar.
  simpl. rewrite Hk. rewrite resume_failed by assumption. simpl.
  eexists; split; [reflexivity|].
  assert (Hshown : withSpinner r = false -> is_Some (st_status c)).
  { apply (v_retry c Hv). unfold live_requests. apply list_elem_of_filter.
    split; [exact Hcl | eapply list_elem_of_lookup_2; exact Hk]. }
  destruct (error_text o) as [|a m] eqn:Et; [congruence|].
  destruct (withSpinner r) eqn:Hsp; unfold renderContent; simpl; rewrite Hpar; simpl.
  - repeat split; assumption.
  - destruct (Hshown eq_refl) as [v Hv']. rewrite Hv'. simpl.
    rewrite andb_false_r. repeat split; assumption.
Qed.

(** C5, at the failing input: a retry answered 500 with an empty [detail]
    stores the empty message, which [renderContent] does not take for an
    error: the pending card stays, and no retry is outstanding. *)
Lemma empty_error_message_keeps_pending_card :
  (fun c => (renderContent c, st_error c, timers c, inflight c))
    <$> run [FetchDone 0 (Responded 200 (Some pending_payload)); TimerFire 1;
             FetchDone 0 (Responded 500 (Some (JObj {[ "detail" := JStr "" ]})))]
          (mount (Some "c1"))
  = Some (PendingCard, Some "", [], []).
Proof. reflexivity. Qed.

Lemma step_success c k r code payload :
  inflight c !! k = Some r -> cancelled (req_owner r) c = false ->
  ok code = true -> truthy payload = true ->
  step (FetchDone k (Responded code (Some payload))) c
  = Some (if withSpinner r
          then setIsLoading false (accepted (req_owner r) payload (remove_request k c))
          else accepted (req_owner r) payload (remove_request k c)).
Proof.
  intros Hk Hc Hok Ht. simpl. rewrite Hk. now rewrite resume_success.
Qed.

Lemma mount_present cid : cid <> "" -> mount (Some cid) = fetching cid None None 1 true.
Proof.
  intros H. apply String.eqb_neq in H. unfold mount, effect_body. simpl. now rewrite H.
Qed.

Lemma fetching_pending cid v t n spinner code payload :
  ok code = true -> truthy payload = true ->
  is_text (get payload "status") "pending" = true ->
  step (FetchDone 0 (Responded code (Some payload))) (fetching cid v t n spinner)
  = Some (waiting cid (view_of payload) n).
Proof.
  intros Hok Ht Hp.
  rewrite step_success with (r := {| req_owner := 0; withSpinner := spinner |});
    [|reflexivity|reflexivity|assumption|assumption].
  unfold accepted. rewrite Hp. destruct t, spinner; reflexivity.
Qed.

Lemma fetching_settled cid v t n spinner code payload :
  ok code = true -> truthy payload = true ->
  is_text (get payload "status") "pending" = false ->
  step (FetchDone 0 (Responded code (Some payload))) (fetching cid v t n spinner)
  = Some (resting cid (view_of payload) n).
Proof.
  intros Hok Ht Hp.
  rewrite step_success with (r := {| req_owner := 0; withSpinner := spinner |});
    [|reflexivity|reflexivity|assumption|assumption].
  unfold accepted. rewrite Hp. destruct t, spinner; reflexivity.
Qed.

Lemma waiting_fires cid v n :
  step (TimerFire n) (waiting cid v n) = Some (fetching cid (Some v) (Some n) (S n) false).
Proof.
  simpl. unfold find_timer. simpl. rewrite Nat.eqb_refl.
  unfold fetchAnalysis_start, clearTimeout, fetching. simpl.
  rewrite filter_cons_False by (simpl; intros H; now apply H). reflexivity.
Qed.

(** An answer of the declared type is one the cards can read. *)
Lemma is_str_renderable v : is_str v = true -> renderable_opt v = true.
Proof. now destruct v as [[]|]. Qed.

Lemma is_str_converts v : is_str v = true -> converts_opt v = true.
Proof. now destruct v as [[]|]. Qed.

Lemma strs_maps v : strs v = true -> maps v renderable = true.
Proof.
  destruct v as [[| | | |l|]|]; try discriminate. simpl.
  induction l as [|x l IH]; [reflexivity|]. simpl.
  destruct x; try discriminate. exact IH.
Qed.

Lemma typed_event_reads e : typed_event e = true -> event_reads e = true.
Proof.
  destruct e as [| | | | |m]; try discriminate.
  unfold typed_event, event_reads, get. cbn [own_props].
  intros H. apply andb_prop in H as [H Hm]. apply andb_prop in H as [Ht Hs].
  rewrite (is_str_renderable _ Hm), andb_true_r.
  apply andb_true_intro. split.
  - now destruct (m !! "timestamp") as [[]|].
  - now destruct (m !! "speaker") as [[]|].
Qed.

Lemma typed_events_read l : forallb typed_event l = true -> forallb event_reads l = true.
Proof.
  induction l as [|e l IH]; [reflexivity|]. simpl. intros H.
  apply andb_prop in H as [He Hl]. now rewrite (typed_event_reads e He), IH.
Qed.

Lemma typed_report_reads a : typed_analysis a = true -> report_reads a = true.
Proof.
  destruct a as [| | | | |m]; try discriminate.
  unfold typed_analysis, report_reads, coaching, get. cbn [own_props].
  intros H.
  apply andb_prop in H as [H _]. apply andb_prop in H as [H Heng].
  apply andb_prop in H as [H Hsent]. apply andb_prop in H as [H Hact].
  apply andb_prop in H as [H Hfb]. apply andb_prop in H as [Hsum Hev].
  repeat (apply andb_true_intro; split).
  - destruct (m !! "case_summary") as [[| | | | |summary]|]; try discriminate.
    cbn [own_props].
    apply andb_prop in Hsum as [Hsum H3]. apply andb_prop in Hsum as [H1 H2].
    now rewrite !is_str_renderable.
  - destruct (m !! "key_events") as [[| | | |l|]|]; try discriminate.
    now apply typed_events_read.
  - destruct (m !! "coaching_feedback") as [[| | | | |feedback]|]; try discriminate.
    cbn [own_props].
    apply andb_prop in Hfb as [Hfb _]. apply andb_prop in Hfb as [Hfb _].
    now apply strs_maps.
  - destruct (m !! "coaching_feedback") as [[| | | | |feedback]|]; try discriminate.
    cbn [own_props].
    apply andb_prop in Hfb as [Hfb _]. apply andb_prop in Hfb as [_ Hfb].
    now apply strs_maps.
  - destruct (m !! "coaching_feedback") as [[| | | | |feedback]|]; try discriminate.
    cbn [own_props].
    apply andb_prop in Hfb as [_ Hfb].
    now apply strs_maps.
  - now apply strs_maps.
  - destruct (m !! "sentiment") as [[| | | | |sentiment]|]; try discriminate.
    cbn [own_props].
    apply andb_prop in Hsent as [H1 H2].
    now rewrite !is_str_renderable.
  - destruct (m !! "engagement_summary") as [[| | | | |engagement]|];
      try discriminate; try reflexivity.
    cbn [own_props].
    now destruct (engagement !! "summary") as [[]|]; try discriminate; try reflexivity;
      rewrite orb_true_r.
Qed.

Lemma typed_pending_reads payload :
  typed_response payload = true -> pending_reads (view_of payload) = true.
Proof.
  unfold typed_response, pending_reads, view_of. simpl. intros H.
  apply andb_prop in H as [H _]. apply andb_prop in H as [H Hu].
  apply andb_prop in H as [Hc _].
  now rewrite (is_str_renderable _ Hc), (is_str_converts _ Hu).
Qed.

Lemma typed_ready_reads payload :
  typed_response payload = true -> truthy (or_null (get payload "analysis")) = true ->
  report_reads (or_null (get payload "analysis")) = true.
Proof.
  unfold typed_response. intros H Ht. apply andb_prop in H as [_ H].
  apply typed_report_reads.
  now destruct (or_null (get payload "analysis")).
Qed.

(** The score of an analysis of the declared type has a value. *)
Lemma typed_score c v :
  st_status c = Some v -> is_text (status v) "ready" = true ->
  typed_analysis (analysis v) = true ->
  exists n, score c = Normal n.
Proof.
  intros Hs Hr Ht. unfold score, readyAnalysis. rewrite Hs, Hr.
  destruct (truthy (analysis v)); [|now eexists].
  destruct (analysis v) as [| | | | |m]; try discriminate.
  unfold typed_analysis, get in *. cbn [own_props] in *.
  repeat (apply andb_prop in Ht as [Ht _]).
  destruct (m !! "case_summary") as [[| | | | |summary]|]; try discriminate.
  cbn [own_props].
  apply andb_prop in Ht as [_ Ht].
  destruct (summary !! "user_confidence") as [[]|]; try discriminate. now eexists.
Qed.

Lemma render_pending cid c v :
  cid <> "" -> param c = Some cid -> st_status c = Some v -> st_error c = None ->
  is_text (status v) "pending" = true -> pending_reads v = true ->
  renderContent c = PendingCard.
Proof.
  intros Hcid Hp Hs He Hpend Hreads. apply String.eqb_neq in Hcid.
  unfold renderContent. rewrite Hp, Hs, He. simpl. rewrite Hcid, Hpend, Hreads. simpl.
  now rewrite andb_false_r.
Qed.

Lemma is_text_exclusive v a b : a <> b -> is_text v a = true -> is_text v b = false.
Proof.
  unfold is_text. destruct v as [[]|]; try discriminate.
  intros Hne Ha. apply String.eqb_eq in Ha as ->. now apply String.eqb_neq.
Qed.

Lemma render_ready cid c v :
  cid <> "" -> param c = Some cid -> st_status c = Some v -> st_error c = None ->
  is_text (status v) "ready" = true -> truthy (analysis v) = true ->
  report_reads (analysis v) = true ->
  renderContent c = Report (analysis v).
Proof.
  intros Hcid Hp Hs He Hready Han Hreads. apply String.eqb_neq in Hcid.
  unfold renderContent. rewrite Hp, Hs, He. simpl. rewrite Hcid. simpl.
  rewrite andb_false_r.
  rewrite (is_text_exclusive _ "ready" "pending") by (discriminate || assumption).
  now rewrite Hready, Han, Hreads.
Qed.

(** A render that throws in no memo is the card [renderContent] returns. *)
Lemma render_score c n : score c = Normal n -> render c = Normal (renderContent c).
Proof. unfold render. now intros ->. Qed.

Lemma rendered_score c n : score c = Normal n -> rendered c = renderContent c.
Proof. intros H. unfold rendered. now rewrite (render_score c n H). Qed.

Lemma score_pending c v :
  st_status c = Some v -> is_text (status v) "pending" = true -> score c = Normal 0%Z.
Proof.
  intros Hs Hp. unfold score, readyAnalysis. rewrite Hs.
  now rewrite (is_text_exclusive _ "pending" "ready") by (discriminate || assumption).
Qed.

Lemma score_unset c : st_status c = None -> score c = Normal 0%Z.
Proof. intros Hs. unfold score, readyAnalysis. now rewrite Hs. Qed.

(** With no timer outstanding and no request in flight, nothing but the
    consumer changes what is shown. *)
Lemma resting_stays es : forall c c',
  timers c = [] -> inflight c = [] -> stays es -> run es c = Some c' ->
  render c' = render c.
Proof.
  induction es as [|e es IH]; simpl; intros c c' Ht Hi Hst.
  - now intros [= <-].
  - assert (Hst' : stays es) by (intros x Hx; apply Hst; now right).
    pose proof (Hst e (list_elem_of_here _ _)) as He.
    destruct e as [cid | | t | k o]; simpl.
    + contradiction.
    + destruct (mounted c); [|discriminate]. intros Hrun.
      assert (Hu : timers (unmount c) = [] /\ inflight (unmount c) = []
                   /\ render (unmount c) = render c).
      { unfold unmount, effect_cleanup. destruct (cleanup c) as [i|]; simpl.
        - destruct (timeout_of i (cancel i c)) as [t|]; simpl; rewrite ?Ht; simpl;
            repeat split; assumption.
        - repeat split; assumption. }
      destruct Hu as (Hu1 & Hu2 & Hu3). rewrite <- Hu3. now apply IH.
    + now rewrite find_timer_None.
    + now rewrite Hi, lookup_nil.
Qed.

#[local] Arguments get : simpl never.

Lemma rendered_loader cid n :
  cid <> "" -> rendered (fetching cid None None n true) = LoaderCard.
Proof.
  intros Hcid. apply String.eqb_neq in Hcid.
  rewrite (rendered_score _ 0%Z) by now apply score_unset.
  unfold renderContent. simpl. now rewrite Hcid.
Qed.

Lemma rendered_pending cid c v :
  cid <> "" -> param c = Some cid -> st_status c = Some v -> st_error c = None ->
  is_text (status v) "pending" = true -> pending_reads v = true ->
  rendered c = PendingCard.
Proof.
  intros Hcid Hp Hs He Hpend Hreads.
  rewrite (rendered_score c 0%Z) by now apply (score_pending c v).
  now apply (render_pending cid c v).
Qed.

Lemma render_report cid c v :
  cid <> "" -> param c = Some cid -> st_status c = Some v -> st_error c = None ->
  is_text (status v) "ready" = true -> truthy (analysis v) = true ->
  typed_analysis (analysis v) = true ->
  render c = Normal (Report (analysis v)).
Proof.
  intros Hcid Hp Hs He Hready Han Hty.
  destruct (typed_score c v Hs Hready Hty) as [n Hn].
  rewrite (render_score c n Hn). f_equal.
  apply (render_ready cid c v); try assumption. now apply typed_report_reads.
Qed.

Lemma typed_ready_analysis payload :
  typed_response payload = true -> truthy (or_null (get payload "analysis")) = true ->
  typed_analysis (or_null (get payload "analysis")) = true.
Proof.
  unfold typed_response. intros H Ht. apply andb_prop in H as [_ H].
  now destruct (or_null (get payload "analysis")).
Qed.

(** C9. Given the backend answers pending, pending, ready for one
    [conversationId], each answer of the type the page declares for it,
    the page shows the loader, then the pending card (through both pending
    answers and the retries between them), then the report: one pending
    render state followed by one ready render state, no render ending in
    a throw. After the ready answer no timer is outstanding and no request
    is in flight, and whatever happens next, short of the consumer asking
    for another conversation, the page renders the report. *)
Theorem pending_pending_ready (cid : string) (o1 o2 : outcome) (code : Z) (payload : json) :
  cid <> "" ->
  pending_response o1 = true -> typed_outcome o1 = true ->
  pending_response o2 = true -> typed_outcome o2 = true ->
  ok code = true -> truthy payload = true ->
  is_text (get payload "status") "ready" = true ->
  truthy (or_null (get payload "analysis")) = true ->
  typed_response payload = true ->
  let es := [FetchDone 0 o1; TimerFire 1; FetchDone 0 o2; TimerFire 2;
             FetchDone 0 (Responded code (Some payload))] in
  views es (mount (Some cid))
  = [LoaderCard; PendingCard; PendingCard; PendingCard; PendingCard;
     Report (or_null (get payload "analysis"))]
  /\ render_states (views es (mount (Some cid)))
     = [LoaderCard; PendingCard; Report (or_null (get payload "analysis"))]
  /\ exists c, run es (mount (Some cid)) = Some c
       /\ timers c = [] /\ inflight c = []
       /\ forall es' c', stays es' -> run es' c = Some c' ->
            render c' = Normal (Report (or_null (get payload "analysis"))).
Proof.
  intros Hcid H1 Hty1 H2 Hty2 Hok Ht Hready Han Hty es.
  apply pending_response_inv in H1 as (code1 & p1 & -> & Hok1 & Ht1 & Hp1).
  apply pending_response_inv in H2 as (code2 & p2 & -> & Hok2 & Ht2 & Hp2).
  simpl in Hty1, Hty2.
  pose proof (typed_pending_reads p1 Hty1) as Hr1.
  pose proof (typed_pending_reads p2 Hty2) as Hr2.
  pose proof (typed_ready_analysis payload Hty Han) as Hta.
  pose proof (is_text_exclusive _ "ready" "pending" ltac:(discriminate) Hready) as Hnp.
  assert (Hreport : render (resting cid (view_of payload) 3)
                    = Normal (Report (or_null (get payload "analysis")))).
  { now apply (render_report cid _ (view_of payload)). }
  assert (Hviews : views es (mount (Some cid))
                   = [LoaderCard; PendingCard; PendingCard; PendingCard; PendingCard;
                      Report (or_null (get payload "analysis"))]).
  { subst es. rewrite (mount_present cid Hcid). unfold views.
    rewrite (fetching_pending cid _ _ _ _ code1 p1 Hok1 Ht1 Hp1).
    rewrite waiting_fires.
    rewrite (fetching_pending cid _ _ _ _ code2 p2 Hok2 Ht2 Hp2).
    rewrite waiting_fires.
    rewrite (fetching_settled cid _ _ _ _ code payload Hok Ht Hnp).
    f_equal; [|f_equal; [|f_equal; [|f_equal; [|f_equal; [|f_equal]]]]].
    - now apply rendered_loader.
    - now apply (rendered_pending cid _ (view_of p1)).
    - now apply (rendered_pending cid _ (view_of p1)).
    - now apply (rendered_pending cid _ (view_of p2)).
    - now apply (rendered_pending cid _ (view_of p2)).
    - unfold rendered. now rewrite Hreport. }
  split; [exact Hviews|]. split; [rewrite Hviews; reflexivity|].
  exists (resting cid (view_of payload) 3). split.
  { subst es. rewrite (mount_present cid Hcid). unfold run.
    rewrite (fetching_pending cid _ _ _ _ code1 p1 Hok1 Ht1 Hp1).
    rewrite waiting_fires.
    rewrite (fetching_pending cid _ _ _ _ code2 p2 Hok2 Ht2 Hp2).
    rewrite waiting_fires.
    now rewrite (fetching_settled cid _ _ _ _ code payload Hok Ht Hnp). }
  split; [reflexivity|]. split; [reflexivity|].
  intros es' c' Hst Hrun.
  now rewrite (resting_stays es' (resting cid (view_of payload) 3) c' eq_refl eq_refl Hst Hrun).
Qed.

Lemma pending_pending_ready_witness :
  render_states
    (views [FetchDone 0 (Responded 200 (Some pending_payload)); TimerFire 1;
            FetchDone 0 (Responded 200 (Some pending_payload)); TimerFire 2;
            FetchDone 0 (Responded 200 (Some report_payload))]
       (mount (Some "c1")))
  = [LoaderCard; PendingCard; Report (or_null (get report_payload "analysis"))].
Proof.
  assert (Hcid : "c1" <> "") by discriminate.
  assert (Hp : pending_response (Responded 200 (Some pending_payload)) = true) by reflexivity.
  assert (Hpt : typed_outcome (Responded 200 (Some pending_payload)) = true) by reflexivity.
  assert (Hok : ok 200 = true) by reflexivity.
  assert (Ht : truthy report_payload = true) by reflexivity.
  assert (Hr : is_text (get report_payload "status") "ready" = true) by reflexivity.
  assert (Ha : truthy (or_null (get report_payload "analysis")) = true) by reflexivity.
  assert (Hty : typed_response report_payload = true) by reflexivity.
  exact (proj1 (proj2 (pending_pending_ready "c1" _ _ 200 report_payload
                         Hcid Hp Hpt Hp Hpt Hok Ht Hr Ha Hty))).
Defined.

End ReconcilerFacts.

(* ===================================================================== *)
(** ** Further facts: the backend-forwarding boundary *)
(* ===================================================================== *)

Module GatewayFacts.
Import Js Boundary Gateway.

(** What a route answers is decided by the outcome of its one upstream
    request. *)
Lemma handle_upstream env enc backend r q :
  upstream_request env enc r = Some q ->
  handle env enc backend r
  = try_catch
      (bind (match backend q with
             | Rejected e => Throw e
             | Responded status b => Normal (status, parseJsonResponse b)
             end)
            (fun '(status, payload) => NextResponse_json payload status))
      (fun e => NextResponse_json (unreachable_envelope e) 502).
Proof.
  destruct r as [[payload|] | sid | [c|]]; simpl; try discriminate.
  - now intros [= <-].
  - unfold POST_start. destruct (String.eqb sid ""); [discriminate|]. now intros [= <-].
  - destruct (String.eqb c ""); [discriminate|]. now intros [= <-].
Qed.

Lemma handle_local env enc backend r :
  upstream_request env enc r = None ->
  exists msg, handle env enc backend r
              = Normal {| res_status := 400; res_body := JObj {[ "message" := JStr msg ]} |}.
Proof.
  destruct r as [[payload|] | sid | [c|]]; simpl; try discriminate; intros H;
    try (eexists; reflexivity).
  - unfold POST_start. destruct (String.eqb sid ""); [|discriminate]. eexists; reflexivity.
  - destruct (String.eqb c ""); [|discriminate]. eexists; reflexivity.
Qed.

Lemma fold_all (P : json -> bool) (m : gmap string json) :
  map_fold (fun _ x acc => P x && acc) true m = true ->
  forall k x, m !! k = Some x -> P x = true.
Proof.
  induction m as [|k x m Hk Hfold IH] using map_first_key_ind.
  - intros _ k x. rewrite lookup_empty. discriminate.
  - rewrite map_fold_insert_first_key by assumption.
    intros H. apply andb_prop in H as [Hx Hm]. intros k' x'.
    rewrite lookup_insert_Some. intros [[<- <-] | [_ Hl]]; [assumption | eauto].
Qed.

Lemma json_size_lookup (m : gmap string json) : forall k x,
  m !! k = Some x -> json_size x <= map_fold (fun _ y acc => json_size y + acc) 0 m.
Proof.
  induction m as [|k' x' m Hk Hfold IHm] using map_first_key_ind; intros k x Hx.
  - rewrite lookup_empty in Hx. discriminate.
  - rewrite map_fold_insert_first_key by assumption.
    apply lookup_insert_Some in Hx as [[<- <-] | [_ Hl]]; [lia|].
    specialize (IHm k x Hl). lia.
Qed.

Lemma stringified_finite_aux n : forall v,
  json_size v <= n -> all_finite v = true -> stringified v = v.
Proof.
  induction n as [|n IH]; intros v Hsz Hf.
  - destruct v; simpl in Hsz; lia.
  - destruct v as [| | r | | l | m]; simpl in *; try reflexivity.
    + now rewrite Hf.
    + f_equal. apply le_S_n in Hsz. clear -IH Hsz Hf.
      induction l as [|a l IHl]; simpl in *; [reflexivity|].
      apply andb_prop in Hf as [Ha Hl]. f_equal.
      * apply IH; [lia | assumption].
      * apply IHl; [lia | assumption].
    + f_equal. apply le_S_n in Hsz. apply map_eq. intros k.
      rewrite lookup_fmap. destruct (m !! k) as [x|] eqn:Hx; simpl; [|reflexivity].
      f_equal. apply IH.
      * pose proof (json_size_lookup m k x Hx). lia.
      * eapply fold_all with (P := all_finite); eassumption.
Qed.

(** Writing a value whose numbers are all finite and reading it back
    gives the value. *)
Lemma stringified_finite v : all_finite v = true -> stringified v = v.
Proof. apply (stringified_finite_aux (json_size v)). lia. Qed.

(** X1. When the upstream answers a forwarded request with a JSON body
    and a status that can carry one, the route relays the same status,
    success or error alike, and the payload as [JSON.stringify] writes
    it; that is the payload itself whenever every number in it is finite
    (a number that is not finite is written as [null]). *)
Theorem relays_upstream_answer (env : option string) (enc : string -> string)
    (backend : request -> outcome) (r : inbound) (q : request) (status : Z) (payload : json) :
  upstream_request env enc r = Some q ->
  backend q = Responded status (Some payload) ->
  accepts_body status = true ->
  handle env enc backend r
  = Normal {| res_status := status; res_body := stringified payload |}
  /\ (all_finite payload = true ->
      handle env enc backend r = Normal {| res_status := status; res_body := payload |}).
Proof.
  intros Hq Hb Ha.
  assert (H : handle env enc backend r
              = Normal {| res_status := status; res_body := stringified payload |}).
  { rewrite (handle_upstream _ _ _ _ _ Hq), Hb. simpl.
    unfold NextResponse_json, accepts_body in *.
    apply andb_prop in Ha as [H1 H2]. rewrite H1. simpl.
    apply negb_true_iff in H2. now rewrite H2. }
  split; [exact H|]. intros Hfin. now rewrite H, stringified_finite.
Qed.

Lemma relays_upstream_answer_witness :
  handle None (fun s => s)
    (fun q => if String.eqb (url q) "http://localhost:8000/api/sessions/s1/start"
              then Responded 404 (Some (JObj {[ "detail" := JStr "Session not found" ]}))
              else Rejected NotAnError)
    (StartAgent "s1")
  = Normal {| res_status := 404; res_body := JObj {[ "detail" := JStr "Session not found" ]} |}
  /\ handle None (fun s => s)
       (fun _ => Responded 200 (Some (JObj {[ "expiresAt" := JNum "Infinity" ]})))
       (StartAgent "s1")
     = Normal {| res_status := 200; res_body := JObj {[ "expiresAt" := JNull ]} |}.
Proof.
  split.
  - apply (proj2 (relays_upstream_answer None (fun s => s)
             (fun q => if String.eqb (url q) "http://localhost:8000/api/sessions/s1/start"
                       then Responded 404
                              (Some (JObj {[ "detail" := JStr "Session not found" ]}))
                       else Rejected NotAnError)
             (StartAgent "s1")
             {| url := "http://localhost:8000/api/sessions/s1/start"; method := Some "POST";
                body := None |}
             404 (JObj {[ "detail" := JStr "Session not found" ]}) eq_refl eq_refl eq_refl)).
    reflexivity.
  - exact (proj1 (relays_upstream_answer None (fun s => s)
             (fun _ => Responded 200 (Some (JObj {[ "expiresAt" := JNum "Infinity" ]})))
             (StartAgent "s1")
             {| url := "http://localhost:8000/api/sessions/s1/start"; method := Some "POST";
                body := None |}
             200 (JObj {[ "expiresAt" := JNum "Infinity" ]}) eq_refl eq_refl eq_refl)).
Defined.

(** X2. A request that fails the route's own check of its input (a body
    that is not JSON, an empty session or conversation id) is answered
    400 with a JSON message, the same whatever the upstream would do: the
    upstream is not asked. *)
Theorem invalid_input_answered_locally (env : option string) (enc : string -> string)
    (r : inbound) :
  forwarded r = false ->
  exists msg, forall backend,
    handle env enc backend r
    = Normal {| res_status := 400; res_body := JObj {[ "message" := JStr msg ]} |}.
Proof.
  destruct r as [[payload|] | sid | [c|]]; simpl; try discriminate; intros H.
  - eexists; intros; reflexivity.
  - unfold POST_start. destruct (String.eqb sid ""); [|discriminate].
    eexists; intros; reflexivity.
  - destruct (String.eqb c ""); [|discriminate]. eexists; intros; reflexivity.
  - eexists; intros; reflexivity.
Qed.

Lemma invalid_input_answered_locally_witness :
  exists msg, forall backend,
    handle None (fun s => s) backend (CreateSession None)
    = Normal {| res_status := 400; res_body := JObj {[ "message" := JStr msg ]} |}.
Proof. apply (invalid_input_answered_locally None (fun s => s) (CreateSession None)). reflexivity. Defined.

(** X3. Every response a route returns has a status that can carry a
    body, and that status is 400, 502, or the status of the upstream's
    answer to the request the route sent. *)
Theorem response_status_discipline (env : option string) (enc : string -> string)
    (backend : request -> outcome) (r : inbound) (resp : http_response) :
  handle env enc backend r = Normal resp ->
  accepts_body (res_status resp) = true
  /\ (res_status resp = 400%Z \/ res_status resp = 502%Z
      \/ exists q b, upstream_request env enc r = Some q
                     /\ backend q = Responded (res_status resp) b).
Proof.
  destruct (upstream_request env enc r) as [q|] eqn:Hq.
  - rewrite (handle_upstream _ _ _ _ _ Hq).
    destruct (backend q) as [e | status b] eqn:Hb; simpl.
    + intros [= <-]. split; [reflexivity|]. right; now left.
    + unfold NextResponse_json at 1.
      destruct ((200 <=? status)%Z && (status <=? 599)%Z) eqn:Hr; simpl.
      * destruct (null_body_status status) eqn:Hn; simpl.
        -- intros [= <-]. split; [reflexivity|]. right; now left.
        -- intros [= <-]. simpl. split.
           ++ unfold accepts_body. now rewrite Hr, Hn.
           ++ right; right. eauto.
      * intros [= <-]. split; [reflexivity|]. right; now left.
  - destruct (handle_local env enc backend r Hq) as [msg ->].
    intros [= <-]. split; [reflexivity|]. now left.
Qed.

Lemma response_status_discipline_witness :
  accepts_body 502 = true.
Proof.
  apply (response_status_discipline None (fun s => s) (fun _ => Responded 204 None)
           (StartAgent "s1")
           {| res_status := 502;
              res_body := unreachable_envelope (ErrorObj bad_status_message) |}).
  reflexivity.
Defined.

(** The answers a route gives when the upstream cannot be reached, and
    when its answer is not JSON. *)
Lemma handle_unreachable env enc backend r q e :
  upstream_request env enc r = Some q -> backend q = Rejected e ->
  handle env enc backend r
  = Normal {| res_status := 502; res_body := unreachable_envelope e |}.
Proof. intros Hq Hb. rewrite (handle_upstream _ _ _ _ _ Hq), Hb. reflexivity. Qed.

Lemma handle_not_json env enc backend r q status :
  upstream_request env enc r = Some q -> backend q = Responded status None ->
  accepts_body status = true ->
  handle env enc backend r
  = Normal {| res_status := status; res_body := parseJsonResponse None |}.
Proof.
  intros Hq Hb Ha. rewrite (handle_upstream _ _ _ _ _ Hq), Hb. simpl.
  unfold NextResponse_json, accepts_body in *.
  apply andb_prop in Ha as [H1 H2]. rewrite H1. simpl.
  apply negb_true_iff in H2. now rewrite H2.
Qed.

End GatewayFacts.

(* ===================================================================== *)
(** ** Further facts: the company page *)
(* ===================================================================== *)

Module CompanyPageFacts.
Import Js Polling CompanyPage PollingFacts.

Lemma failure_message_detail data fallback d :
  get data "detail" = Some d -> d <> JNull ->
  failure_message data fallback = error_message_of d.
Proof. unfold failure_message. intros -> Hd. destruct d; simpl; congruence. Qed.

Lemma failure_message_message data fallback m :
  is_nullish (get data "detail") = true -> get data "message" = Some m -> m <> JNull ->
  failure_message data fallback = error_message_of m.
Proof.
  unfold failure_message, is_nullish. intros Hd -> Hm.
  destruct (get data "detail") as [[]|]; try discriminate; destruct m; simpl; congruence.
Qed.

Lemma failure_message_fallback data fallback :
  is_nullish (get data "detail") = true -> is_nullish (get data "message") = true ->
  failure_message data fallback = fallback.
Proof.
  unfold failure_message, is_nullish. intros Hd Hm.
  destruct (get data "detail") as [[]|]; try discriminate;
    destruct (get data "message") as [[]|]; try discriminate; reflexivity.
Qed.

(** The banner shows the stored message exactly when it is not empty. *)
Lemma banner_text q text :
  errorMessage q = Some text ->
  banner q = if String.eqb text "" then None else Some text.
Proof. unfold banner. intros ->. now destruct text. Qed.

(** X4. When the answer to "Start Interview" arrives, the page always
    leaves the creating state. A success with a usable body replaces the
    session by the body as it is. Anything else leaves the session and
    the polling alone and stores a message: the error's message for a
    rejected request; for a non-success answer the text of the body's
    [detail], else of its [message] (or the conversion error when that
    value does not convert to a text), else "Unable to start
    interview."; for a success without a usable body the "Unexpected
    response" text. The banner is drawn with the stored message when it
    is not empty; an empty [detail] leaves the page without a banner. *)
Theorem create_response_outcome (p : page) (k : nat) (o : outcome) :
  inflight p !! k = Some ReqCreate ->
  exists q, step (Response k o) p = Some q
    /\ isCreatingSession q = false
    /\ (forall code data, o = Responded code (Some data) -> ok code = true ->
          truthy data = true ->
          session q = Some data /\ errorMessage q = errorMessage p)
    /\ (failed o = true ->
          session q = session p /\ interval q = interval p
          /\ status_fetches q = status_fetches p
          /\ exists text, errorMessage q = Some text
               /\ banner q = if String.eqb text "" then None else Some text)
    /\ (forall e, o = Rejected e ->
          errorMessage q = Some (message_or e "Unable to start interview."))
    /\ (forall code body, o = Responded code body -> ok code = false ->
          (forall d, get (parseJsonSafe body) "detail" = Some d -> d <> JNull ->
             errorMessage q
             = Some (if converts d then to_string d else conversion_error_message))
          /\ (forall m, is_nullish (get (parseJsonSafe body) "detail") = true ->
               get (parseJsonSafe body) "message" = Some m -> m <> JNull ->
               errorMessage q
               = Some (if converts m then to_string m else conversion_error_message))
          /\ (is_nullish (get (parseJsonSafe body) "detail") = true ->
              is_nullish (get (parseJsonSafe body) "message") = true ->
              errorMessage q = Some "Unable to start interview."))
    /\ (forall code body, o = Responded code body -> ok code = true ->
          truthy (parseJsonSafe body) = false ->
          errorMessage q
          = Some "Unexpected response from server while starting the interview.").
Proof.
  intros Hk. simpl. rewrite Hk. unfold handleCreateSession_resume.
  destruct o as [e | code body]; simpl;
    [|destruct (ok code) eqn:Hok; simpl;
      [destruct (truthy (parseJsonSafe body)) eqn:Ht; simpl|]];
    (eexists; split; [reflexivity|]); simpl;
    repeat match goal with |- _ /\ _ => split end;
    try reflexivity; intros; simplify_eq/=; try congruence;
    try (repeat match goal with |- _ /\ _ => split end; try reflexivity;
         eexists; (split; [reflexivity|]); now apply banner_text).
  - rewrite setSession_session.
    destruct (setSession_frame (fun _ => Some data) (remove_request k p)) as (-> & _).
    split; reflexivity.
  - repeat match goal with |- _ /\ _ => split end; intros.
    + now rewrite (failure_message_detail _ _ d).
    + now rewrite (failure_message_message _ _ m).
    + now rewrite failure_message_fallback.
Qed.

Lemma create_response_outcome_witness :
  (exists q,
    step (Response 0 (Responded 503 (Some (JObj {[ "detail" := JStr "Daily is unavailable" ]}))))
      (page_after [ClickCreate]) = Some q
    /\ session q = None /\ errorMessage q = Some "Daily is unavailable"
    /\ isCreatingSession q = false)
  /\ (exists q,
    step (Response 0 (Responded 500 (Some (JObj {[ "detail" := JStr "" ]}))))
      (page_after [ClickCreate]) = Some q
    /\ errorMessage q = Some "" /\ banner q = None).
Proof.
  assert (Hk : inflight (page_after [ClickCreate]) !! 0 = Some ReqCreate) by reflexivity.
  split.
  - destruct (create_response_outcome _ 0
                (Responded 503 (Some (JObj {[ "detail" := JStr "Daily is unavailable" ]}))) Hk)
      as (q & Hq & Hflag & _ & Hfail & _ & Hmsg & _).
    exists q. split; [exact Hq|].
    destruct (Hfail eq_refl) as (Hs & _).
    destruct (Hmsg _ _ eq_refl eq_refl) as (Hd & _).
    split; [rewrite Hs; reflexivity|]. split; [|exact Hflag].
    rewrite (Hd (JStr "Daily is unavailable")); [reflexivity|reflexivity|discriminate].
  - destruct (create_response_outcome _ 0
                (Responded 500 (Some (JObj {[ "detail" := JStr "" ]}))) Hk)
      as (q & Hq & _ & _ & Hfail & _ & Hmsg & _).
    exists q. split; [exact Hq|].
    destruct (Hfail eq_refl) as (_ & _ & _ & text & Ht & Hb).
    destruct (Hmsg _ _ eq_refl eq_refl) as (Hd & _).
    pose proof (Hd (JStr "") eq_refl ltac:(discriminate)) as He. simpl in He.
    split; [exact He|]. rewrite He in Ht. injection Ht as <-. exact Hb.
Defined.

(** X5. "Bring the AI": with no session the click does nothing. With a
    session whose [sessionId] the request path can take in, the click
    raises the starting flag, clears the message and sends the request;
    with one it cannot take in, no request goes out and the conversion
    error is stored at once. When the answer arrives the page always
    leaves the starting state; a success with a usable body is merged
    into the session held; anything else leaves the session and the
    polling alone and stores a message: the error's message for a
    rejection (a fixed text ending in " Try again." when it is no
    [Error]), for a non-success answer the text of the body's [detail],
    else of its [message], else "Unable to bring the AI into the room.",
    for a success without a usable body the "Unexpected response" text.
    The banner is drawn with the stored message when it is not empty. *)
Theorem start_bot_outcome (p : page) :
  (session p = None -> step ClickStart p = Some p)
  /\ (forall s, session p = Some s -> truthy s = true ->
       converts_opt (get s "sessionId") = true ->
       exists q, step ClickStart p = Some q
         /\ isStartingBot q = true /\ errorMessage q = None /\ banner q = None
         /\ inflight q = (inflight p ++ [ReqStart])%list /\ session q = session p)
  /\ (forall s, session p = Some s -> truthy s = true ->
       converts_opt (get s "sessionId") = false ->
       exists q, step ClickStart p = Some q
         /\ isStartingBot q = false /\ errorMessage q = Some conversion_error_message
         /\ inflight q = inflight p /\ session q = session p)
  /\ (forall k o, inflight p !! k = Some ReqStart ->
       exists q, step (Response k o) p = Some q
         /\ isStartingBot q = false
         /\ (forall code data, o = Responded code (Some data) -> ok code = true ->
               truthy data = true ->
               session q = merge data (session p) /\ errorMessage q = errorMessage p)
         /\ (failed o = true ->
               session q = session p /\ interval q = interval p
               /\ status_fetches q = status_fetches p
               /\ exists text, errorMessage q = Some text
                    /\ banner q = if String.eqb text "" then None else Some text)
         /\ (forall e, o = Rejected e ->
               errorMessage q
               = Some (message_or e "Unable to bring the AI into the room. Try again."))
         /\ (forall code body, o = Responded code body -> ok code = false ->
               (forall d, get (parseJsonSafe body) "detail" = Some d -> d <> JNull ->
                  errorMessage q
                  = Some (if converts d then to_string d else conversion_error_message))
               /\ (forall m, is_nullish (get (parseJsonSafe body) "detail") = true ->
                    get (parseJsonSafe body) "message" = Some m -> m <> JNull ->
                    errorMessage q
                    = Some (if converts m then to_string m else conversion_error_message))
               /\ (is_nullish (get (parseJsonSafe body) "detail") = true ->
                   is_nullish (get (parseJsonSafe body) "message") = true ->
                   errorMessage q = Some "Unable to bring the AI into the room."))
         /\ (forall code body, o = Responded code body -> ok code = true ->
               truthy (parseJsonSafe body) = false ->
               errorMessage q
               = Some "Unexpected response from server while starting the AI.")).
Proof.
  split; [|split; [|split]].
  - intros Hs. simpl. unfold handleStartBot_start. now rewrite Hs.
  - intros s Hs Ht Hc. simpl. unfold handleStartBot_start. rewrite Hs, Ht, Hc. simpl.
    eexists; split; [reflexivity|]. simpl. repeat split; assumption.
  - intros s Hs Ht Hc. simpl. unfold handleStartBot_start. rewrite Hs, Ht, Hc. simpl.
    eexists; split; [reflexivity|]. simpl. repeat split; assumption.
  - intros k o Hk. simpl. rewrite Hk. unfold handleStartBot_resume.
    destruct o as [e | code body]; simpl;
      [|destruct (ok code) eqn:Hok; simpl;
        [destruct (truthy (parseJsonSafe body)) eqn:Ht; simpl|]];
      (eexists; split; [reflexivity|]); simpl;
      repeat match goal with |- _ /\ _ => split end;
      try reflexivity; intros; simplify_eq/=; try congruence;
      try (repeat match goal with |- _ /\ _ => split end; try reflexivity;
         eexists; (split; [reflexivity|]); now apply banner_text).
    + rewrite setSession_session.
      destruct (setSession_frame (merge data) (remove_request k p)) as (-> & _).
      split; reflexivity.
    + repeat match goal with |- _ /\ _ => split end; intros.
      * now rewrite (failure_message_detail _ _ d).
      * now rewrite (failure_message_message _ _ m).
      * now rewrite failure_message_fallback.
Qed.

Lemma start_bot_outcome_witness :
  (exists q,
    step (Response 0 (Responded 200 (Some (JObj {[ "status" := JStr "bot_starting" ]}))))
      (page_after (create_session "room_created" ++ [ClickStart])) = Some q
    /\ session q = Some (spread (snapshot "room_created")
                           (JObj {[ "status" := JStr "bot_starting" ]}))
    /\ isStartingBot q = false)
  /\ (exists q,
    step (Response 0 (Responded 500 (Some (JObj {[ "detail" := JStr "" ]}))))
      (page_after (create_session "room_created" ++ [ClickStart])) = Some q
    /\ errorMessage q = Some "" /\ banner q = None).
Proof.
  assert (Hk : inflight (page_after (create_session "room_created" ++ [ClickStart])) !! 0
               = Some ReqStart) by reflexivity.
  split.
  - destruct (proj2 (proj2 (proj2 (start_bot_outcome _))) 0
                (Responded 200 (Some (JObj {[ "status" := JStr "bot_starting" ]}))) Hk)
      as (q & Hq & Hflag & Hok & _).
    exists q. split; [exact Hq|]. split; [|exact Hflag].
    destruct (Hok _ _ eq_refl eq_refl eq_refl) as [-> _]. reflexivity.
  - destruct (proj2 (proj2 (proj2 (start_bot_outcome _))) 0
                (Responded 500 (Some (JObj {[ "detail" := JStr "" ]}))) Hk)
      as (q & Hq & _ & _ & Hfail & _ & Hmsg & _).
    exists q. split; [exact Hq|].
    destruct (Hfail eq_refl) as (_ & _ & _ & text & Ht & Hb).
    destruct (Hmsg _ _ eq_refl eq_refl) as (Hd & _).
    pose proof (Hd (JStr "") eq_refl ltac:(discriminate)) as He. simpl in He.
    split; [exact He|]. rewrite He in Ht. injection Ht as <-. exact Hb.
Defined.

Lemma selectInterview_fields i p :
  synced p -> i <> selectedInterview p ->
  selectedInterview (selectInterview i p) = i
  /\ session (selectInterview i p) = None /\ errorMessage (selectInterview i p) = None
  /\ isCreatingSession (selectInterview i p) = false
  /\ isStartingBot (selectInterview i p) = false
  /\ interval (selectInterview i p) = None
  /\ inflight (selectInterview i p) = inflight p
  /\ status_fetches (selectInterview i p) = status_fetches p
  /\ clock (selectInterview i p) = clock p.
Proof.
  intros Hs Hne. unfold selectInterview.
  rewrite (proj2 (Nat.eqb_neq i (selectedInterview p)) Hne). simpl.
  assert (Hs' : synced (with_selected i p)) by now apply (synced_ext p).
  pose proof (synced_setSession (fun _ => None) _ Hs') as Hq.
  pose proof (setSession_session (fun _ => None) (with_selected i p)) as Hnone.
  assert (Hi : interval (setSession (fun _ => None) (with_selected i p)) = None).
  { unfold synced in Hq. rewrite Hnone in Hq.
    destruct (interval (setSession (fun _ => None) (with_selected i p))); [|reflexivity].
    destruct Hq as (Hw & _). discriminate. }
  assert (Hrest : inflight (setSession (fun _ => None) (with_selected i p)) = inflight p
                  /\ status_fetches (setSession (fun _ => None) (with_selected i p))
                     = status_fetches p
                  /\ clock (setSession (fun _ => None) (with_selected i p)) = clock p
                  /\ selectedInterview (setSession (fun _ => None) (with_selected i p)) = i).
  { unfold setSession, effect_body, effect_cleanup. simpl.
    destruct (deps_same _ _); simpl; repeat split; reflexivity. }
  destruct Hrest as (H1 & H2 & H3 & H4). repeat split; assumption.
Qed.

(** X6. Choosing the tab already shown changes nothing. Choosing another
    one resets the flow in every state the page can reach: no session, no
    banner, neither busy flag, no polling interval, so time adds no status
    fetch; the requests already in flight stay in flight. *)
Theorem selection_change_resets (n : nat) (es : list event) (p : page) (i : nat) :
  run es (initial n) = Some p ->
  (i = selectedInterview p -> step (SelectInterview i) p = Some p)
  /\ (i <> selectedInterview p ->
      exists q, step (SelectInterview i) p = Some q
        /\ selectedInterview q = i /\ session q = None /\ errorMessage q = None
        /\ isCreatingSession q = false /\ isStartingBot q = false
        /\ interval q = None /\ inflight q = inflight p
        /\ forall dts, status_fetches (ticks dts q) = status_fetches p).
Proof.
  intros Hrun. pose proof (reachable_synced _ _ _ Hrun) as Hs. split.
  - intros ->. simpl. unfold selectInterview. now rewrite Nat.eqb_refl.
  - intros Hne. simpl. eexists; split; [reflexivity|].
    destruct (selectInterview_fields i p Hs Hne)
      as (H1 & H2 & H3 & H4 & H5 & H6 & H7 & H8 & _).
    repeat match goal with |- _ /\ _ => split end; try assumption.
    intros dts. now rewrite ticks_idle.
Qed.

Lemma selection_change_resets_witness :
  exists q,
    step (SelectInterview 1) (page_after (create_session "bot_running")) = Some q
    /\ session q = None /\ interval q = None
    /\ inflight q = [ReqStatus (Some (JStr "s1"))]
    /\ status_fetches (ticks [4000; 4000]%Z q) = 1.
Proof.
  assert (Hrun : run (create_session "bot_running") (initial 1)
                 = Some (page_after (create_session "bot_running"))) by reflexivity.
  assert (Hne : 1 <> selectedInterview (page_after (create_session "bot_running")))
    by discriminate.
  destruct (proj2 (selection_change_resets 1 _ _ 1 Hrun) Hne)
    as (q & Hq & _ & Hs & _ & _ & _ & Hi & Hin & Hflat).
  exists q. split; [exact Hq|]. split; [exact Hs|]. split; [exact Hi|].
  split; [rewrite Hin; reflexivity | rewrite Hflat; reflexivity].
Defined.

(** X7. Nothing discards an answer that was asked for before the tab
    changed: if it arrives afterwards as a success with a usable body, the
    body becomes the session of the new tab, and if it carries a
    [sessionId] and a pollable status the polling starts again with a
    status fetch at once (for a [sessionId] that the request path cannot
    take in, the interval is set but the fetch is not issued). *)
Theorem late_answer_becomes_session (n : nat) (es : list event) (p : page) (k : nat)
    (rq : request) (i : nat) (code : Z) (data : json) :
  run es (initial n) = Some p ->
  inflight p !! k = Some rq ->
  i <> selectedInterview p ->
  ok code = true -> truthy data = true ->
  exists q, run [SelectInterview i; Response k (Responded code (Some data))] p = Some q
    /\ session q = Some data
    /\ (wants_polling (Some data) = true ->
        is_Some (interval q)
        /\ status_fetches q
           = if converts_opt (get data "sessionId") then S (status_fetches p)
             else status_fetches p).
Proof.
  intros Hrun Hk Hne Hok Ht. pose proof (reachable_synced _ _ _ Hrun) as Hs.
  destruct (selectInterview_fields i p Hs Hne)
    as (_ & Hnone & _ & _ & _ & Hint & Hin & Hfetch & _).
  set (p1 := selectInterview i p) in *.
  assert (Hnone' : session (remove_request k p1) = None) by exact Hnone.
  assert (Hset : forall f, f None = Some data ->
            session (setSession f (remove_request k p1)) = Some data
            /\ (wants_polling (Some data) = true ->
                is_Some (interval (setSession f (remove_request k p1)))
                /\ status_fetches (setSession f (remove_request k p1))
                   = if converts_opt (get data "sessionId") then S (status_fetches p)
                     else status_fetches p)).
  { intros f Hf. split; [now rewrite setSession_session, Hnone'|].
    intros Hw. unfold wants_polling in Hw. apply andb_prop in Hw as [Hw1 Hw2].
    simpl in Hw1, Hw2.
    unfold setSession. rewrite Hnone', Hf. cbn [session with_session].
    assert (Hd : deps_same (deps None) (deps (Some data)) = false).
    { unfold deps_same, deps. simpl.
      destruct (get data "sessionId") as [[]|]; simpl in *; try discriminate; reflexivity. }
    rewrite Hd. unfold effect_body, effect_cleanup. simpl. rewrite Hw1, Hw2. simpl.
    unfold poll, fetchSessionStatus_start. rewrite Hw1. simpl.
    split; [eauto|]. destruct (converts_opt (get data "sessionId")); simpl;
      now rewrite Hfetch. }
  simpl. fold p1. rewrite Hin, Hk.
  destruct rq as [| | sid].
  - unfold handleCreateSession_resume. simpl. rewrite Hok, Ht. simpl.
    eexists; split; [reflexivity|]. simpl. apply (Hset (fun _ => Some data)). reflexivity.
  - unfold handleStartBot_resume. simpl. rewrite Hok, Ht. simpl.
    eexists; split; [reflexivity|]. simpl. apply (Hset (merge data)). reflexivity.
  - unfold fetchSessionStatus_resume. simpl. rewrite Hok, Ht. simpl.
    eexists; split; [reflexivity|]. apply (Hset (merge data)). reflexivity.
Qed.

Lemma late_answer_becomes_session_witness :
  exists q,
    run [SelectInterview 1;
         Response 0 (Responded 200 (Some (snapshot "bot_running")))]
      (page_after (create_session "bot_running")) = Some q
    /\ session q = Some (snapshot "bot_running")
    /\ status_fetches q = 2.
Proof.
  assert (Hrun : run (create_session "bot_running") (initial 1)
                 = Some (page_after (create_session "bot_running"))) by reflexivity.
  assert (Hk : inflight (page_after (create_session "bot_running")) !! 0
               = Some (ReqStatus (Some (JStr "s1")))) by reflexivity.
  assert (Hne : 1 <> selectedInterview (page_after (create_session "bot_running")))
    by discriminate.
  assert (Hok : ok 200 = true) by reflexivity.
  assert (Ht : truthy (snapshot "bot_running") = true) by reflexivity.
  assert (Hw : wants_polling (Some (snapshot "bot_running")) = true) by reflexivity.
  destruct (late_answer_becomes_session 1 _ _ 0 _ 1 200 _ Hrun Hk Hne Hok Ht)
    as (q & Hq & Hs & Hp).
  exists q. split; [exact Hq|]. split; [exact Hs|].
  destruct (Hp Hw) as [_ ->]. reflexivity.
Defined.

Lemma due_soon_ext p q :
  interval q = interval p -> clock q = clock p -> due_soon p -> due_soon q.
Proof. unfold due_soon. intros -> ->. trivial. Qed.

Lemma due_soon_setSession f p : due_soon p -> due_soon (setSession f p).
Proof.
  intros Hd. unfold setSession. destruct (deps_same _ _).
  - now apply (due_soon_ext p).
  - unfold effect_body, effect_cleanup. simpl.
    destruct (truthy_opt _) eqn:Ht; simpl; [destruct (pollable _); simpl|];
      try (intros t; simpl; discriminate).
    intros t. simpl. intros [= <-]. simpl.
    destruct (poll_fields (session_get (f (session p)) "sessionId")
                (with_interval None (with_session (f (session p)) p)))
      as (_ & _ & -> & _).
    simpl. lia.
Qed.

Lemma due_soon_tick dt p :
  (0 <= dt)%Z -> synced p -> due_soon p -> due_soon (tick dt p).
Proof.
  intros Hdt Hs Hd. unfold due_soon, tick. unfold synced in Hs.
  destruct (interval p) as [t|] eqn:Hi; simpl.
  - destruct Hs as (_ & HP & _ & Hlt). pose proof (Hd t Hi) as Hle.
    intros t' [= <-]. simpl. unfold due_count, POLL_INTERVAL in *. rewrite HP.
    destruct (Z.leb_spec (next_due t) (clock p + dt)) as [H|H].
    + assert (0 <= (clock p + dt - next_due t) / 4000)%Z by (apply Z.div_pos; lia).
      rewrite Z2Nat.id by lia.
      pose proof (Z.mul_div_le (clock p + dt - next_due t) 4000 ltac:(lia)). lia.
    + simpl. lia.
  - rewrite Hi. discriminate.
Qed.

Lemma due_soon_step e p q : synced p -> due_soon p -> step e p = Some q -> due_soon q.
Proof.
  intros Hs Hd. destruct e as [| | i | dt | k o]; simpl.
  - intros [= <-]. unfold handleCreateSession_start.
    destruct (negb _); [assumption|]. now apply (due_soon_ext p).
  - intros [= <-]. unfold handleStartBot_start.
    destruct (session p) as [s|]; [|assumption].
    destruct (negb (truthy s)); [assumption|].
    destruct (negb _); now apply (due_soon_ext p).
  - intros [= <-]. unfold selectInterview.
    destruct (Nat.eqb _ _); [assumption|].
    apply (due_soon_ext (setSession (fun _ => None) (with_selected i p)));
      [reflexivity..|].
    apply due_soon_setSession. now apply (due_soon_ext p).
  - destruct (Z.ltb_spec dt 0); [discriminate|]. intros [= <-]. now apply due_soon_tick.
  - assert (Hr : due_soon (remove_request k p)) by now apply (due_soon_ext p).
    revert Hr. generalize (remove_request k p). intros r Hr.
    destruct (inflight p !! k) as [[| | sid]|]; [| | |discriminate].
    + unfold handleCreateSession_resume. destruct o as [e | code body]; simpl.
      * intros [= <-]. now apply (due_soon_ext r).
      * destruct (ok code); simpl; [|intros [= <-]; now apply (due_soon_ext r)].
        destruct (truthy (parseJsonSafe body)); simpl;
          [|intros [= <-]; now apply (due_soon_ext r)].
        intros [= <-].
        apply (due_soon_ext (setSession (fun _ => Some (parseJsonSafe body)) r));
          [reflexivity..|]. now apply due_soon_setSession.
    + unfold handleStartBot_resume. destruct o as [e | code body]; simpl.
      * intros [= <-]. now apply (due_soon_ext r).
      * destruct (ok code); simpl; [|intros [= <-]; now apply (due_soon_ext r)].
        destruct (truthy (parseJsonSafe body)); simpl;
          [|intros [= <-]; now apply (due_soon_ext r)].
        intros [= <-].
        apply (due_soon_ext (setSession (merge (parseJsonSafe body)) r));
          [reflexivity..|]. now apply due_soon_setSession.
    + unfold fetchSessionStatus_resume. destruct o as [e | code body]; simpl.
      * intros [= <-]. now apply (due_soon_ext r).
      * destruct (ok code); simpl; [|now intros [= <-]].
        destruct (truthy (parseJsonSafe body)); simpl; [|now intros [= <-]].
        intros [= <-]. now apply due_soon_setSession.
Qed.

Lemma reachable_due_soon n es p : run es (initial n) = Some p -> synced p /\ due_soon p.
Proof.
  assert (H : synced (initial n) /\ due_soon (initial n))
    by (split; [reflexivity | intros t; discriminate]).
  revert H. generalize (initial n). induction es as [|e es IH]; simpl; intros p0 [Hs Hd].
  - intros [= <-]. now split.
  - destruct (step e p0) as [p'|] eqn:E; [|discriminate].
    apply IH. split; [eapply synced_step | eapply due_soon_step]; eassumption.
Qed.

Lemma canStartBot_not_pollable s : canStartBot s = true -> wants_polling s = false.
Proof.
  unfold canStartBot, wants_polling.
  destruct (session_get s "status") as [[| | |st| |]|]; try discriminate.
  intros H. apply String.eqb_eq in H as ->. simpl. apply andb_false_r.
Qed.

(** X8. In every state the page can reach, it holds a polling interval
    exactly when the session has a [sessionId] and one of the three
    pollable statuses; the interval then has a period of 4000 ms, polls
    for that [sessionId], and comes due next within the coming 4000 ms.
    While the start button is enabled (status [room_created]) no interval
    is held. *)
Theorem polling_follows_session (n : nat) (es : list event) (p : page) :
  run es (initial n) = Some p ->
  (is_Some (interval p) <-> wants_polling (session p) = true)
  /\ (forall t, interval p = Some t ->
       period t = 4000%Z /\ target t = session_get (session p) "sessionId"
       /\ (clock p < next_due t <= clock p + 4000)%Z)
  /\ (canStartBot (session p) = true -> interval p = None).
Proof.
  intros Hrun. destruct (reachable_due_soon _ _ _ Hrun) as [Hs Hd].
  unfold synced in Hs. split; [|split].
  - destruct (interval p) as [t|].
    + destruct Hs as (Hw & _). split; eauto.
    + split; [intros [? ?]; discriminate | congruence].
  - intros t Ht. pose proof (Hd t Ht) as Hle. rewrite Ht in Hs.
    destruct Hs as (_ & HP & Htar & Hlt). unfold POLL_INTERVAL in *. repeat split; assumption.
  - intros Hc. apply canStartBot_not_pollable in Hc.
    destruct (interval p) as [t|]; [|reflexivity].
    destruct Hs as (Hw & _). congruence.
Qed.

Lemma polling_follows_session_witness :
  is_Some (interval (page_after (create_session "bot_running")))
  /\ interval (page_after (create_session "room_created")) = None.
Proof.
  assert (H1 : run (create_session "bot_running") (initial 1)
               = Some (page_after (create_session "bot_running"))) by reflexivity.
  assert (H2 : run (create_session "room_created") (initial 1)
               = Some (page_after (create_session "room_created"))) by reflexivity.
  split.
  - apply (proj1 (polling_follows_session 1 _ _ H1)). reflexivity.
  - apply (proj2 (proj2 (polling_follows_session 1 _ _ H2))). reflexivity.
Defined.

Lemma table_keys (l : list (string * string)) key :
  is_Some ((list_to_map l : gmap string string) !! key) <-> key ∈ l.*1.
Proof.
  split.
  - intros [x Hx]. apply elem_of_list_to_map_2 in Hx.
    apply list_elem_of_fmap. exists (key, x). split; [reflexivity | assumption].
  - intros Hin. destruct ((list_to_map l : gmap string string) !! key) eqn:E; [eauto|].
    apply not_elem_of_list_to_map in E. contradiction.
Qed.

Lemma tables_same_keys key :
  is_Some (SESSION_STATUS_LABELS !! key) <-> is_Some (STATUS_STYLES !! key).
Proof. unfold SESSION_STATUS_LABELS, STATUS_STYLES. rewrite !table_keys. reflexivity. Qed.

Lemma label_not_generic key label :
  SESSION_STATUS_LABELS !! key = Some label -> label <> "Updating session...".
Proof.
  intros H. apply elem_of_list_to_map_2 in H.
  rewrite !elem_of_cons, elem_of_nil in H.
  repeat (destruct H as [[= -> ->] | H]; [discriminate|]). destruct H.
Qed.

(** X9. The status text and the colour of the badge never disagree. With
    no session both are empty; a session whose status has a label of its
    own has the style of that same status, one of the six known ones; a
    session shown with the generic "Updating session..." text has the
    grey style; and the one finds a value on the prototype exactly when
    the other does. *)
Theorem badge_matches_label (session : option json) :
  (statusDescription session = None -> statusBadgeStyle session = Text "")
  /\ (forall label, statusDescription session = Some (Text label) ->
        label <> "Updating session..." ->
        exists key style, key ∈ known_statuses
          /\ SESSION_STATUS_LABELS !! key = Some label
          /\ STATUS_STYLES !! key = Some style
          /\ statusBadgeStyle session = Text style)
  /\ (statusDescription session = Some (Text "Updating session...") ->
      statusBadgeStyle session = Text "bg-gray-200 text-gray-700")
  /\ (forall name, statusDescription session = Some (PrototypeValue name) <->
                   statusBadgeStyle session = PrototypeValue name).
Proof.
  unfold statusDescription, statusBadgeStyle, record_get.
  destruct session as [s|]; [destruct (truthy s)|];
    try (repeat match goal with |- _ /\ _ => split end; intros; try split;
         try reflexivity; discriminate).
  destruct (negb (converts_opt (get s "status"))).
  { split; [discriminate|]. split; [intros; discriminate|]. split; [discriminate|].
    intros name. split; discriminate. }
  set (key := to_property_key (get s "status")).
  pose proof (tables_same_keys key) as Hsame.
  pose proof (label_not_generic key) as Hgen.
  pose proof (proj1 (table_keys _ key : is_Some (SESSION_STATUS_LABELS !! key) <-> _))
    as Hknown.
  destruct (SESSION_STATUS_LABELS !! key) as [l|] eqn:EL;
    destruct (STATUS_STYLES !! key) as [st|] eqn:ES.
  - split; [discriminate|]. split; [|split].
    + intros label [= <-] _. exists key, st. repeat split; try assumption.
      apply Hknown. eauto.
    + intros [= ->]. now destruct (Hgen _ eq_refl).
    + intros name. split; discriminate.
  - destruct (proj1 Hsame) as [? [=]]. eauto.
  - destruct (proj2 Hsame) as [? [=]]. eauto.
  - destruct (bool_decide (key ∈ object_prototype_names)).
    + split; [discriminate|]. split; [discriminate|]. split; [discriminate|].
      intros name. split; intros [= <-]; reflexivity.
    + split; [discriminate|]. split; [|split].
      * intros label [= <-] Hne. now destruct Hne.
      * reflexivity.
      * intros name. split; discriminate.
Qed.

Lemma badge_matches_label_witness :
  statusBadgeStyle (Some (JObj {[ "sessionId" := JStr "s1"; "status" := JStr "paused" ]}))
  = Text "bg-gray-200 text-gray-700".
Proof.
  apply (proj1 (proj2 (proj2 (badge_matches_label
           (Some (JObj {[ "sessionId" := JStr "s1"; "status" := JStr "paused" ]})))))).
  reflexivity.
Defined.

End CompanyPageFacts.

(* ===================================================================== *)
(** ** Further facts: text helpers *)
(* ===================================================================== *)

Module TextFacts.
Import Text.

Lemma toLowerCase_app a b : toLowerCase (a ++ b) = toLowerCase a ++ toLowerCase b.
Proof. induction a as [|x a IH]; simpl; [reflexivity | now rewrite IH]. Qed.

Lemma prefix_app p b : String.prefix p (p ++ b) = true.
Proof.
  induction p as [|x p IH]; simpl; [now destruct b|].
  destruct (ascii_dec x x); [exact IH | contradiction].
Qed.

Lemma includes_unfold s pat :
  includes s pat
  = String.prefix pat s
    || match s with EmptyString => false | String _ rest => includes rest pat end.
Proof. now destruct s. Qed.

Lemma includes_app a pat b : includes (a ++ pat ++ b) pat = true.
Proof.
  induction a as [|x a IH].
  - change (includes (pat ++ b) pat = true). now rewrite includes_unfold, prefix_app.
  - change (includes (String x (a ++ pat ++ b)) pat = true).
    rewrite includes_unfold, IH. apply orb_true_r.
Qed.

Lemma lower_slug_char a : is_slug_char a = true -> lower_ascii a = a.
Proof.
  destruct a as [b0 b1 b2 b3 b4 b5 b6 b7].
  destruct b0, b1, b2, b3, b4, b5, b6, b7; vm_compute; intros H;
    first [reflexivity | discriminate].
Qed.

Lemma is_dash_eq a : is_dash a = true -> a = "-"%char.
Proof. unfold is_dash. apply Ascii.eqb_eq. Qed.

Lemma slug_char_no_dash a : is_slug_char a = true -> is_dash a = false.
Proof.
  intros H. destruct (is_dash a) eqn:E; [|reflexivity].
  apply is_dash_eq in E. subst. discriminate.
Qed.

Lemma dashes_shaped s : forall b, shaped b (dashes b s) = true.
Proof.
  induction s as [|a s IH]; intros b; simpl; [reflexivity|].
  destruct (is_slug_char a) eqn:Ha; simpl.
  - rewrite Ha. apply IH.
  - destruct b; [apply IH|]. simpl. apply IH.
Qed.

Lemma shaped_weaken t : shaped true t = true -> shaped false t = true.
Proof.
  destruct t as [|a t]; simpl; [trivial|].
  destruct (is_slug_char a); [trivial|]. rewrite andb_false_r. discriminate.
Qed.

Lemma shaped_strip_start t : shaped true t = true -> strip_start t = t.
Proof.
  destruct t as [|a t]; simpl; [trivial|].
  destruct (is_slug_char a) eqn:Ha.
  - now rewrite (slug_char_no_dash a Ha).
  - rewrite andb_false_r. discriminate.
Qed.

Lemma strip_start_shaped t : shaped false t = true -> shaped true (strip_start t) = true.
Proof.
  destruct t as [|a t]; simpl; [trivial|].
  destruct (is_slug_char a) eqn:Ha.
  - rewrite (slug_char_no_dash a Ha). simpl. now rewrite Ha.
  - intros H. apply andb_prop in H as [H Ht]. apply andb_prop in H as [Hd _].
    rewrite Hd. now rewrite shaped_strip_start.
Qed.

Lemma strip_end_shaped t : forall b, shaped b t = true -> shaped b (strip_end t) = true.
Proof.
  induction t as [|a t IH]; intros b; simpl; [trivial|].
  destruct (is_slug_char a) eqn:Ha.
  - intros H. pose proof (IH false H) as IH'.
    destruct (strip_end t) as [|c r]; simpl.
    + rewrite (slug_char_no_dash a Ha). simpl. now rewrite Ha.
    + rewrite Ha. exact IH'.
  - intros H. apply andb_prop in H as [H Ht]. apply andb_prop in H as [Hd Hb].
    pose proof (IH true Ht) as IH'.
    destruct (strip_end t) as [|c r]; simpl.
    + now rewrite Hd.
    + rewrite Ha, Hd, Hb. exact IH'.
Qed.

Lemma strip_end_clean t : ends_clean (strip_end t) = true.
Proof.
  induction t as [|a t IH]; simpl; [reflexivity|].
  destruct (strip_end t) as [|c r]; simpl.
  - destruct (is_dash a) eqn:Hd; simpl; [reflexivity | now rewrite Hd].
  - exact IH.
Qed.

Lemma ends_clean_strip t : ends_clean t = true -> strip_end t = t.
Proof.
  induction t as [|a t IH]; simpl; [trivial|].
  destruct t as [|c r].
  - simpl. intros H. apply negb_true_iff in H. now rewrite H.
  - intros H. rewrite (IH H). reflexivity.
Qed.

Lemma shaped_dashes t : forall b, shaped b t = true -> dashes b t = t.
Proof.
  induction t as [|a t IH]; intros b; simpl; [trivial|].
  destruct (is_slug_char a) eqn:Ha.
  - intros H. now rewrite (IH false H).
  - intros H. apply andb_prop in H as [H Ht]. apply andb_prop in H as [Hd Hb].
    apply negb_true_iff in Hb. subst b. apply is_dash_eq in Hd. subst a.
    now rewrite (IH true Ht).
Qed.

Lemma shaped_lower t : forall b, shaped b t = true -> toLowerCase t = t.
Proof.
  induction t as [|a t IH]; intros b; simpl; [trivial|].
  destruct (is_slug_char a) eqn:Ha.
  - intros H. now rewrite (lower_slug_char a Ha), (IH false H).
  - intros H. apply andb_prop in H as [H Ht]. apply andb_prop in H as [Hd _].
    apply is_dash_eq in Hd. subst a. now rewrite (IH true Ht).
Qed.

Lemma shaped_alphabet t : forall b a,
  shaped b t = true -> In a (String.list_ascii_of_string t) ->
  is_slug_char a || is_dash a = true.
Proof.
  induction t as [|c t IH]; intros b a; simpl; [intros _ []|].
  destruct (is_slug_char c) eqn:Hc.
  - intros H [<- | Hin]; [now rewrite Hc | eapply IH; eassumption].
  - intros H. apply andb_prop in H as [H Ht]. apply andb_prop in H as [Hd _].
    intros [<- | Hin]; [rewrite Hd; apply orb_true_r | eapply IH; eassumption].
Qed.

Lemma dashes_none s :
  (forall a, In a (String.list_ascii_of_string s) -> is_slug_char a = false) ->
  dashes true s = EmptyString
  /\ (dashes false s = EmptyString \/ dashes false s = "-").
Proof.
  induction s as [|a s IH]; simpl; intros H; [split; [|left]; reflexivity|].
  rewrite (H a (or_introl eq_refl)).
  destruct IH as [IH _]; [intros x Hx; apply H; now right|].
  rewrite IH. split; [reflexivity | now right].
Qed.

Lemma slug_is_clean name : clean_slug (slug name) = true.
Proof.
  unfold clean_slug, slug. apply andb_true_intro. split.
  - apply strip_end_shaped, strip_start_shaped, dashes_shaped.
  - apply strip_end_clean.
Qed.

Lemma clean_slug_fixed t : clean_slug t = true -> slug t = t.
Proof.
  unfold clean_slug, slug. intros H. apply andb_prop in H as [Hs He].
  rewrite (shaped_lower t true Hs), (shaped_dashes t false (shaped_weaken t Hs)).
  now rewrite (shaped_strip_start t Hs), (ends_clean_strip t He).
Qed.

Lemma in_toLowerCase s a :
  In a (String.list_ascii_of_string (toLowerCase s)) ->
  exists b, In b (String.list_ascii_of_string s) /\ a = lower_ascii b.
Proof.
  induction s as [|c s IH]; simpl; [intros []|].
  intros [<- | Hin]; [eauto|]. destruct (IH Hin) as (b & Hb & ->). eauto.
Qed.

(** X10. The link slug of a featured company consists of small letters,
    digits and dashes only, has no dash at either end and no two dashes in
    a row; an ASCII name without any letter or digit gives the empty
    slug. *)
Theorem slug_shape (name : string) :
  clean_slug (slug name) = true
  /\ (forall a, In a (String.list_ascii_of_string (slug name)) ->
       is_slug_char a || is_dash a = true)
  /\ ((forall a, In a (String.list_ascii_of_string name) ->
        Nat.ltb (nat_of_ascii a) 128 && negb (is_slug_char (lower_ascii a)) = true) ->
      slug name = EmptyString).
Proof.
  pose proof (slug_is_clean name) as Hc. split; [exact Hc|]. split.
  - intros a. apply (shaped_alphabet _ true). unfold clean_slug in Hc.
    now apply andb_prop in Hc as [Hs _].
  - intros Hno. unfold slug.
    destruct (dashes_none (toLowerCase name)) as [_ [-> | ->]]; try reflexivity.
    intros a Ha. destruct (in_toLowerCase name a Ha) as (b & Hb & ->).
    specialize (Hno b Hb). apply andb_prop in Hno as [_ Hno].
    now apply negb_true_iff in Hno.
Qed.

Lemma slug_shape_witness : slug "&&& !!!" = EmptyString.
Proof.
  apply (proj2 (proj2 (slug_shape "&&& !!!"))).
  intros a Hin. simpl in Hin.
  repeat (destruct Hin as [<- | Hin]; [reflexivity|]). destruct Hin.
Defined.

(** X11. A text that already has the shape of a slug is its own slug, so
    taking the slug twice gives the same as taking it once. *)
Theorem slug_idempotent (name t : string) :
  (clean_slug t = true -> slug t = t) /\ slug (slug name) = slug name.
Proof.
  split; [apply clean_slug_fixed|]. apply clean_slug_fixed, slug_is_clean.
Qed.

Lemma slug_idempotent_witness : slug "mckinsey-company" = "mckinsey-company".
Proof. apply (proj1 (slug_idempotent "" "mckinsey-company")). reflexivity. Defined.

End TextFacts.

(* ===================================================================== *)
(** ** Further facts: the analysis page *)
(* ===================================================================== *)

Module AnalysisPageFacts.
Import Js Text Reconciler AnalysisPage TextFacts ReconcilerFacts.

(** X12. The confidence score is read off by substring, whatever the
    case of the letters: any text in which "low" occurs scores 35, even
    if "high" occurs too (so does "slow" or "below"); a text with "high"
    and no "low" scores 85; every other text scores 60. *)
Theorem confidence_score_by_substring (a w b : string) :
  (toLowerCase w = "low" -> confidenceScore (a ++ w ++ b) = 35%Z)
  /\ (toLowerCase w = "high" ->
      includes (toLowerCase (a ++ w ++ b)) "low" = false ->
      confidenceScore (a ++ w ++ b) = 85%Z)
  /\ (includes (toLowerCase a) "low" = false ->
      includes (toLowerCase a) "high" = false ->
      confidenceScore a = 60%Z).
Proof.
  unfold confidenceScore. split; [|split].
  - intros Hw. rewrite !toLowerCase_app, Hw, includes_app. reflexivity.
  - intros Hw Hno. rewrite Hno. rewrite !toLowerCase_app, Hw, includes_app. reflexivity.
  - intros -> ->. reflexivity.
Qed.

Lemma confidence_score_by_substring_witness :
  confidenceScore "High, but SLOWing down" = 35%Z
  /\ confidenceScore "Fairly HIGH" = 85%Z
  /\ confidenceScore "moderate" = 60%Z.
Proof.
  split; [|split].
  - apply (proj1 (confidence_score_by_substring "High, but S" "LOW" "ing down")). reflexivity.
  - apply (proj1 (proj2 (confidence_score_by_substring "Fairly " "HIGH" ""))); reflexivity.
  - apply (proj2 (proj2 (confidence_score_by_substring "moderate" "" ""))); reflexivity.
Defined.


#[local] Arguments get : simpl never.

Lemma live_requests_ext c c' :
  cleanup c' = cleanup c -> inflight c' = inflight c -> live_requests c' = live_requests c.
Proof. unfold live_requests. now intros -> ->. Qed.

Lemma progress_ext c c' :
  mounted c' = mounted c -> st_isLoading c' = st_isLoading c -> st_error c' = st_error c ->
  st_status c' = st_status c -> timers c' = timers c ->
  live_requests c' = live_requests c ->
  progress_inv c -> progress_inv c'.
Proof.
  intros Hm Hl He Hs Ht Hr [H1 H2 H3].
  constructor; rewrite ?Hm, ?Hl, ?He, ?Hs, ?Ht, ?Hr; assumption.
Qed.

(** Taking out a request of a run that is not the current one leaves the
    requests of the current run as they are. *)
Lemma live_requests_remove_stale c k r :
  inflight c !! k = Some r -> cleanup c <> Some (req_owner r) ->
  live_requests (remove_request k c) = live_requests c.
Proof.
  intros Hk Hne. unfold live_requests, remove_request. simpl.
  rewrite <- (take_drop_middle _ _ _ Hk) at 3.
  rewrite !filter_app, filter_cons_False by exact Hne. reflexivity.
Qed.

Lemma live_requests_split c k r r' :
  inflight c !! k = Some r -> r' ∈ live_requests c ->
  r' = r \/ r' ∈ live_requests (remove_request k c).
Proof.
  intros Hk. unfold live_requests, remove_request. simpl.
  rewrite <- (take_drop_middle _ _ _ Hk) at 1.
  rewrite !list_elem_of_filter, !elem_of_app, elem_of_cons.
  intros [Hc [H | [H | H]]]; auto.
Qed.

(** What the answer to a request of the current run leaves behind. *)
Lemma resume_live_fields r o d :
  cancelled (req_owner r) d = false -> timers d = [] ->
  exists c', fetchAnalysis_resume r o d = Normal c'
    /\ cleanup c' = cleanup d /\ inflight c' = inflight d
    /\ mounted c' = mounted d /\ param c' = param d
    /\ st_isLoading c' = (if withSpinner r then false else st_isLoading d)
    /\ (failed o = true ->
        st_error c' = Some (error_text o) /\ st_status c' = st_status d /\ timers c' = [])
    /\ (forall code payload, o = Responded code (Some payload) -> failed o = false ->
        st_error c' = None /\ st_status c' = Some (view_of payload)
        /\ timers c'
           = if is_text (get payload "status") "pending"
             then [{| tid := next_timer d; owner := req_owner r; delay := RETRY_DELAY |}]
             else []).
Proof.
  intros Hc Ht. destruct (failed o) eqn:Hf.
  - rewrite (resume_failed r o d Hc Hf). eexists. split; [reflexivity|].
    destruct (withSpinner r); simpl;
      repeat match goal with |- _ /\ _ => split end; try reflexivity; try discriminate;
      intros; repeat split; assumption.
  - destruct (failed_false o Hf) as (code & payload & -> & Hok & Htr).
    rewrite (resume_success r code payload d Hc Hok Htr).
    destruct (accepted_fields (req_owner r) payload d Ht)
      as (Ha1 & Ha2 & Ha3 & Ha4 & Ha5 & Ha6 & Ha7 & Ha8 & Ha9 & Ha10).
    eexists. split; [reflexivity|].
    destruct (withSpinner r); simpl;
      repeat match goal with |- _ /\ _ => split end; try assumption; try discriminate;
      try reflexivity; intros ? ? [= <- <-] _; repeat split; assumption.
Qed.

Lemma effect_body_progress d : progress_inv (effect_body d).
Proof.
  destruct (effect_body_fields d) as (Hs & He & _).
  constructor.
  - intros _. unfold effect_body. simpl.
    destruct (param d) as [cid|]; simpl; [|discriminate].
    destruct (String.eqb cid ""); simpl; [discriminate|]. intros _.
    exists {| req_owner := List.length (closures d); withSpinner := true |}.
    split; [|reflexivity]. unfold live_requests. simpl.
    apply list_elem_of_filter. split; [reflexivity|].
    apply elem_of_app. right. apply list_elem_of_singleton. reflexivity.
  - intros _ _ (v & Hv & _). rewrite Hs in Hv. discriminate.
  - intros v Hv. rewrite Hs in Hv. discriminate.
Qed.

Lemma mount_progress cid : progress_inv (mount cid).
Proof. apply effect_body_progress. Qed.

Lemma step_progress e c c' :
  inv c -> progress_inv c -> step e c = Some c' -> progress_inv c'.
Proof.
  intros Hinv Hp. destruct e as [cid | | t | k o]; simpl.
  - destruct (mounted c); [|discriminate]. intros [= <-]. unfold navigate.
    destruct (bool_decide (cid = param c)); [assumption | apply effect_body_progress].
  - destruct (mounted c); [|discriminate]. intros [= <-].
    constructor; try (simpl; discriminate).
    intros _ _ _. destruct (effect_cleanup_quiescent c Hinv) as ([Hq1 Hq2 _ _] & _).
    unfold unmount, live_requests. simpl. rewrite Hq1, Hq2. split; [reflexivity|].
    apply filter_none. intros r _. discriminate.
  - destruct (find_timer t c) as [x|] eqn:Hf; [|discriminate]. intros [= <-].
    apply find_timer_Some in Hf as [Hx Ht].
    destruct (single_timer c x Hinv Hx) as [Htimers Hno].
    destruct (inv_timers c Hinv x Hx) as [Ho _].
    assert (Hgone : filter (fun y => tid y ≠ t) (timers c) = []).
    { rewrite Htimers. apply filter_none. intros y Hy.
      apply list_elem_of_singleton in Hy as ->. congruence. }
    constructor; unfold fetchAnalysis_start, clearTimeout; simpl.
    + intros Hm Hl. destruct (p_loading c Hp Hm Hl) as (r & Hr & _).
      rewrite Hno in Hr. now apply elem_of_nil in Hr.
    + intros _ _ _. rewrite Hgone. unfold live_requests in *. simpl.
      rewrite filter_app, Hno. rewrite filter_cons_True by exact Ho. reflexivity.
    + intros v Hv Hnp. destruct (p_settled c Hp v Hv Hnp) as [Hnil _].
      rewrite Hnil in Hx. now apply elem_of_nil in Hx.
  - destruct (inflight c !! k) as [r|] eqn:Hk; [|discriminate].
    destruct (remove_request_inv c k r Hinv Hk) as [Hinv' Hlive].
    destruct (cancelled (req_owner r) c) eqn:Hc.
    + rewrite resume_cancelled by exact Hc. intros [= <-].
      assert (Hne : cleanup c <> Some (req_owner r)).
      { intros E. rewrite (inv_current c Hinv _ E) in Hc. discriminate. }
      apply (progress_ext c); try reflexivity; [|assumption].
      now apply (live_requests_remove_stale c k r).
    + destruct (Hlive eq_refl) as [Ht Hno].
      destruct (resume_live_fields r o (remove_request k c) Hc Ht)
        as (c1 & -> & Hcl & Hin & Hm & _ & Hl & Hfail & Hsucc).
      intros [= <-].
      assert (Hlr : live_requests c1 = []).
      { rewrite (live_requests_ext (remove_request k c) c1 Hcl Hin). exact Hno. }
      constructor.
      * rewrite Hm, Hl. simpl. intros Hmo Hlo.
        destruct (withSpinner r) eqn:Hsp; [discriminate|].
        destruct (p_loading c Hp Hmo Hlo) as (r' & Hr' & Hs').
        destruct (live_requests_split c k r r' Hk Hr') as [-> | Hin'].
        -- congruence.
        -- rewrite Hno in Hin'. now apply elem_of_nil in Hin'.
      * intros _ He (v & Hv & Hpend). rewrite Hlr.
        destruct (failed o) eqn:Hf.
        -- destruct (Hfail eq_refl) as (He' & _). congruence.
        -- destruct (failed_false o Hf) as (code & payload & -> & _ & _).
           destruct (Hsucc code payload eq_refl eq_refl) as (_ & Hs' & Ht').
           rewrite Hs' in Hv. injection Hv as <-. simpl in Hpend.
           rewrite Ht', Hpend. reflexivity.
      * intros v Hv Hnp. split; [|exact Hlr].
        destruct (failed o) eqn:Hf.
        -- now destruct (Hfail eq_refl) as (_ & _ & ->).
        -- destruct (failed_false o Hf) as (code & payload & -> & _ & _).
           destruct (Hsucc code payload eq_refl eq_refl) as (_ & Hs' & Ht').
           rewrite Hs' in Hv. injection Hv as <-. simpl in Hnp.
           now rewrite Ht', Hnp.
Qed.

Lemma run_progress es : forall c c',
  inv c -> progress_inv c -> run es c = Some c' -> progress_inv c'.
Proof.
  induction es as [|e es IH]; simpl; intros c c' Hinv Hp.
  - now intros [= <-].
  - destruct (step e c) as [c1|] eqn:Hs; [|discriminate].
    apply IH; [eapply step_inv | eapply step_progress]; eassumption.
Qed.

Lemma reachable_progress cid es c : run es (mount cid) = Some c -> progress_inv c.
Proof. apply run_progress; [apply mount_inv | apply mount_progress]. Qed.

Lemma render_pending_inv c :
  renderContent c = PendingCard ->
  (st_error c = None \/ st_error c = Some "")
  /\ exists v, st_status c = Some v /\ is_text (status v) "pending" = true.
Proof.
  unfold renderContent. destruct (negb (present (param c))); [discriminate|].
  destruct (st_isLoading c && negb (bool_decide (is_Some (st_status c)))); [discriminate|].
  destruct (st_error c) as [[|a m]|]; try discriminate;
    (destruct (st_status c) as [s|]; [|discriminate]);
    (destruct (is_text (status s) "pending") eqn:E;
      [intros _; split; [auto | eauto]
      |destruct (negb (truthy (if is_text (status s) "ready" then analysis s else JNull)));
       [discriminate|]; destruct (report_reads _); discriminate]).
Qed.

Lemma render_loader_inv c : renderContent c = LoaderCard -> st_isLoading c = true.
Proof.
  unfold renderContent. destruct (negb (present (param c))); [discriminate|].
  destruct (st_isLoading c); [reflexivity|]. simpl.
  destruct (st_error c) as [[|a m]|]; try discriminate;
    destruct (st_status c) as [s|]; try discriminate;
    (destruct (is_text (status s) "pending"); [destruct (pending_reads s); discriminate|]);
    (destruct (negb (truthy (if is_text (status s) "ready" then analysis s else JNull)));
     [discriminate|]); destruct (report_reads _); discriminate.
Qed.

Lemma render_without_report c :
  truthy (readyAnalysis c) = false -> render c = Normal (renderContent c).
Proof. unfold render, score. now intros ->. Qed.

(** While a timer or a request of the current run is outstanding, no
    ready report is stored. *)
Lemma busy_no_report c :
  progress_inv c -> timers c <> [] \/ live_requests c <> [] -> readyAnalysis c = JNull.
Proof.
  intros Hp Hbusy. unfold readyAnalysis.
  destruct (st_status c) as [v|] eqn:Hv; [|reflexivity].
  destruct (is_text (status v) "ready") eqn:Hr; [|reflexivity].
  pose proof (is_text_exclusive _ "ready" "pending" ltac:(discriminate) Hr) as Hnp.
  destruct (p_settled c Hp v Hv Hnp) as [H1 H2]. destruct Hbusy; contradiction.
Qed.

Lemma live_request_elem c k r :
  inv c -> inflight c !! k = Some r -> cancelled (req_owner r) c = false ->
  r ∈ live_requests c.
Proof.
  intros Hinv Hk Hc. unfold live_requests. apply list_elem_of_filter.
  split; [exact (inv_live_cancelled c _ Hinv Hc)|]. apply list_elem_of_lookup. eauto.
Qed.

(** A failed fetch of the current run with a message that is not empty
    ends in a render of the error card. *)
Lemma failure_render cid es c k r o :
  run es (mount cid) = Some c -> inflight c !! k = Some r ->
  cancelled (req_owner r) c = false -> failed o = true -> error_text o <> "" ->
  exists c', step (FetchDone k o) c = Some c'
    /\ render c' = Normal (ErrorCard (error_text o))
    /\ timers c' = [] /\ live_requests c' = [].
Proof.
  intros Hrun Hk Hc Hf Hne.
  destruct (fetch_failure_surfaces_error cid es c k r o Hrun Hk Hc Hf Hne)
    as (c' & Hs & He & Hr & Ht & Hl).
  exists c'. split; [exact Hs|]. split; [|split; assumption].
  rewrite <- Hr. apply render_without_report.
  pose proof (reachable_inv _ _ _ Hrun) as Hinv.
  pose proof (reachable_progress _ _ _ Hrun) as Hp.
  destruct (remove_request_inv c k r Hinv Hk) as [_ Hlive].
  destruct (Hlive Hc) as [Htc _].
  destruct (resume_live_fields r o (remove_request k c) Hc Htc)
    as (c1 & Hres & _ & _ & _ & _ & _ & Hfail & _).
  simpl in Hs. rewrite Hk, Hres in Hs. injection Hs as <-.
  destruct (Hfail Hf) as (_ & Hst & _).
  assert (Hra : readyAnalysis c1 = readyAnalysis c).
  { unfold readyAnalysis. now rewrite Hst. }
  rewrite Hra, (busy_no_report c Hp); [reflexivity|].
  right. intros Hnil. pose proof (live_request_elem c k r Hinv Hk Hc) as Hin.
  rewrite Hnil in Hin. now apply elem_of_nil in Hin.
Qed.

(** X13. While the page is mounted, a "still analysing" card whose
    stored error is not the empty text always has exactly one thing
    behind it that will move it on: the retry timer, or the request of
    the current run that is in flight. *)
Theorem pending_card_is_backed (cid : option string) (es : list event) (c : component) :
  run es (mount cid) = Some c ->
  mounted c = true ->
  renderContent c = PendingCard ->
  st_error c <> Some "" ->
  List.length (timers c) + List.length (live_requests c) = 1.
Proof.
  intros Hrun Hm Hr He.
  destruct (render_pending_inv c Hr) as ([Hn | Hn] & Hv); [|contradiction].
  exact (p_pending c (reachable_progress _ _ _ Hrun) Hm Hn Hv).
Qed.

Lemma pending_card_is_backed_witness :
  exists c,
    run [FetchDone 0 (Responded 200 (Some pending_payload)); TimerFire 1]
      (mount (Some "c1")) = Some c
    /\ List.length (timers c) + List.length (live_requests c) = 1.
Proof.
  destruct (run [FetchDone 0 (Responded 200 (Some pending_payload)); TimerFire 1]
              (mount (Some "c1"))) as [c|] eqn:Hrun; [|discriminate].
  pose proof Hrun as Hval. vm_compute in Hval. injection Hval as Hval.
  exists c. split; [reflexivity|].
  apply (pending_card_is_backed (Some "c1") _ c Hrun); rewrite <- Hval;
    [reflexivity | vm_compute; reflexivity | discriminate].
Defined.

(** X14. While the page is mounted, the loader is on screen only while
    the first fetch of the current run is in flight, and whatever that
    fetch comes back with, success or failure, the loader is gone
    afterwards. *)
Theorem loader_always_ends (cid : option string) (es : list event) (c : component) :
  run es (mount cid) = Some c ->
  mounted c = true ->
  renderContent c = LoaderCard ->
  exists k r, inflight c !! k = Some r /\ withSpinner r = true
    /\ cancelled (req_owner r) c = false
    /\ forall o, exists c', step (FetchDone k o) c = Some c'
         /\ st_isLoading c' = false /\ renderContent c' <> LoaderCard.
Proof.
  intros Hrun Hm Hr. pose proof (reachable_inv _ _ _ Hrun) as Hinv.
  destruct (p_loading c (reachable_progress _ _ _ Hrun) Hm (render_loader_inv c Hr))
    as (r & Hin & Hsp).
  unfold live_requests in Hin. apply list_elem_of_filter in Hin as [Hcur Hin].
  apply list_elem_of_lookup in Hin as [k Hk].
  pose proof (inv_current c Hinv _ Hcur) as Hc.
  exists k, r. repeat match goal with |- _ /\ _ => split end; try assumption.
  intros o. simpl. rewrite Hk.
  destruct (remove_request_inv c k r Hinv Hk) as [_ Hlive].
  destruct (Hlive Hc) as [Ht _].
  destruct (resume_live_fields r o (remove_request k c) Hc Ht)
    as (c1 & -> & _ & _ & _ & _ & Hl & _).
  rewrite Hsp in Hl. exists c1. split; [reflexivity|]. split; [exact Hl|].
  intros E. apply render_loader_inv in E. congruence.
Qed.

Lemma loader_always_ends_witness :
  exists k r, inflight (mount (Some "c1")) !! k = Some r /\ withSpinner r = true
    /\ cancelled (req_owner r) (mount (Some "c1")) = false
    /\ forall o, exists c', step (FetchDone k o) (mount (Some "c1")) = Some c'
         /\ st_isLoading c' = false /\ renderContent c' <> LoaderCard.
Proof.
  apply (loader_always_ends (Some "c1") []); reflexivity.
Defined.


Lemma settled_without_report (cid : option string) (es : list event) (c : component)
    (k : nat) (r : request) (code : Z) (payload : json) :
  run es (mount cid) = Some c ->
  inflight c !! k = Some r ->
  cancelled (req_owner r) c = false ->
  ok code = true -> truthy payload = true ->
  is_text (get payload "status") "pending" = false ->
  (is_text (get payload "status") "ready" = false
   \/ truthy (or_null (get payload "analysis")) = false) ->
  exists c', step (FetchDone k (Responded code (Some payload))) c = Some c'
    /\ st_status c' = Some (view_of payload)
    /\ render c' = Normal NoDataCard
    /\ st_error c' = None
    /\ timers c' = [] /\ live_requests c' = [].
Proof.
  intros Hrun Hk Hc Hok Htr Hnp Hbad.
  destruct (reachable_view _ _ _ Hrun) as [Hinv Hview].
  pose proof (inv_live_cancelled c _ Hinv Hc) as Hcur.
  pose proof (v_param c Hview _ Hcur) as Hpres.
  destruct (remove_request_inv c k r Hinv Hk) as [_ Hlive].
  destruct (Hlive Hc) as [Ht Hno].
  assert (Hf : failed (Responded code (Some payload)) = false).
  { simpl. now rewrite Hok, Htr. }
  destruct (resume_live_fields r (Responded code (Some payload)) (remove_request k c) Hc Ht)
    as (c1 & Hres & Hcl & Hin & _ & Hpar & _ & _ & Hsucc).
  destruct (Hsucc code payload eq_refl Hf) as (He & Hs & Htim).
  rewrite Hnp in Htim.
  exists c1. simpl. rewrite Hk, Hres. split; [reflexivity|]. split; [exact Hs|].
  split; [|split; [exact He|split; [exact Htim|]]].
  - assert (Hra : truthy (readyAnalysis c1) = false).
    { unfold readyAnalysis. rewrite Hs. simpl.
      destruct Hbad as [-> | Hbad]; [reflexivity|].
      now destruct (is_text (get payload "status") "ready"). }
    rewrite (render_without_report c1 Hra). f_equal.
    unfold renderContent. rewrite Hpar, He, Hs. simpl. rewrite Hpres. simpl.
    rewrite andb_false_r, Hnp.
    destruct Hbad as [-> | Hbad]; [reflexivity|].
    destruct (is_text (get payload "status") "ready"); [|reflexivity].
    now rewrite Hbad.
  - rewrite (live_requests_ext (remove_request k c) c1 Hcl Hin). exact Hno.
Qed.

(** X15. A success answer that is neither pending nor a ready report (an
    unknown status, or "ready" without analysis data) is taken in as it
    is: its normalized view is what the page stores, the page shows the
    "no analysis data" card, records no error, and nothing is left that
    would ask again. *)
Theorem unusable_answer_shows_no_data (cid : option string) (es : list event) (c : component)
    (k : nat) (r : request) (code : Z) (payload : json) :
  run es (mount cid) = Some c ->
  inflight c !! k = Some r ->
  cancelled (req_owner r) c = false ->
  ok code = true -> truthy payload = true ->
  is_text (get payload "status") "pending" = false ->
  (is_text (get payload "status") "ready" = false
   \/ truthy (or_null (get payload "analysis")) = false) ->
  exists c', step (FetchDone k (Responded code (Some payload))) c = Some c'
    /\ st_status c' = Some (view_of payload)
    /\ render c' = Normal NoDataCard
    /\ st_error c' = None
    /\ timers c' = [] /\ live_requests c' = [].
Proof. apply settled_without_report. Qed.

Lemma unusable_answer_shows_no_data_witness :
  exists c',
    step (FetchDone 0 (Responded 200 (Some (JObj {[ "status" := JStr "failed" ]}))))
      (mount (Some "c1")) = Some c'
    /\ st_status c' = Some (view_of (JObj {[ "status" := JStr "failed" ]}))
    /\ render c' = Normal NoDataCard /\ st_error c' = None
    /\ timers c' = [] /\ live_requests c' = [].
Proof.
  assert (Hrun : run [] (mount (Some "c1")) = Some (mount (Some "c1"))) by reflexivity.
  assert (Hk : inflight (mount (Some "c1")) !! 0
               = Some {| req_owner := 0; withSpinner := true |}) by reflexivity.
  assert (Hc : cancelled 0 (mount (Some "c1")) = false) by reflexivity.
  assert (Hnp : is_text (get (JObj {[ "status" := JStr "failed" ]}) "status") "pending" = false)
    by reflexivity.
  assert (Hnr : is_text (get (JObj {[ "status" := JStr "failed" ]}) "status") "ready" = false)
    by reflexivity.
  assert (Htr : truthy (JObj {[ "status" := JStr "failed" ]}) = true) by reflexivity.
  assert (Hok : ok 200 = true) by reflexivity.
  exact (unusable_answer_shows_no_data _ _ _ 0 _ 200 _ Hrun Hk Hc Hok Htr Hnp
           (or_introl Hnr)).
Defined.

(** X16. At any time the page has at most one thing outstanding for the
    conversation it shows: one retry timer or one request of the current
    run, never both, and none at all once an answer that is not pending
    is stored. Every timer belongs to the current run, and a request in
    flight is heeded exactly when it belongs to the current run. *)
Theorem one_outstanding_at_a_time (cid : option string) (es : list event) (c : component) :
  run es (mount cid) = Some c ->
  List.length (timers c) + List.length (live_requests c) <= 1
  /\ (forall x, x ∈ timers c ->
        cleanup c = Some (owner x) /\ cancelled (owner x) c = false
        /\ timeout_of (owner x) c = Some (tid x))
  /\ (forall r, r ∈ inflight c ->
        cancelled (req_owner r) c = false <-> r ∈ live_requests c)
  /\ (forall v, st_status c = Some v -> is_text (status v) "pending" = false ->
        timers c = [] /\ live_requests c = []).
Proof.
  intros Hrun. pose proof (reachable_inv _ _ _ Hrun) as Hinv.
  split; [exact (inv_single c Hinv)|]. split; [|split].
  3: exact (p_settled c (reachable_progress _ _ _ Hrun)).
  - intros x Hx. destruct (inv_timers c Hinv x Hx) as [Ho Ht].
    repeat split; try assumption. exact (inv_current c Hinv _ Ho).
  - intros r Hr. unfold live_requests. rewrite list_elem_of_filter. split.
    + intros Hc. split; [exact (inv_live_cancelled c _ Hinv Hc) | exact Hr].
    + intros [Ho _]. exact (inv_current c Hinv _ Ho).
Qed.

Lemma one_outstanding_at_a_time_witness :
  exists c,
    run [FetchDone 0 (Responded 200 (Some pending_payload)); Navigate (Some "c2")]
      (mount (Some "c1")) = Some c
    /\ List.length (timers c) + List.length (live_requests c) <= 1.
Proof.
  destruct (run [FetchDone 0 (Responded 200 (Some pending_payload)); Navigate (Some "c2")]
              (mount (Some "c1"))) as [c|] eqn:Hrun; [|discriminate].
  exists c. split; [reflexivity|].
  exact (proj1 (one_outstanding_at_a_time (Some "c1") _ c Hrun)).
Defined.

Lemma render_states_pending m a :
  render_states (repeat PendingCard (S m) ++ [Report a]) = [PendingCard; Report a].
Proof.
  induction m as [|m IH]; [reflexivity|].
  change (repeat PendingCard (S (S m)) ++ [Report a])%list
    with (PendingCard :: (repeat PendingCard (S m) ++ [Report a]))%list.
  change (repeat PendingCard (S m) ++ [Report a])%list
    with (PendingCard :: (repeat PendingCard m ++ [Report a]))%list in *.
  cbn [render_states same_card]. exact IH.
Qed.

Section Retries.

Variable cid : string.
Hypothesis Hcid : cid <> "".
Variables (code : Z) (payload : json).
Hypothesis Hok : ok code = true.
Hypothesis Htr : truthy payload = true.
Hypothesis Hready : is_text (get payload "status") "ready" = true.
Hypothesis Han : truthy (or_null (get payload "analysis")) = true.
Hypothesis Hty : typed_response payload = true.

Lemma report_rendered n :
  render (resting cid (view_of payload) n) = Normal (Report (or_null (get payload "analysis"))).
Proof.
  apply (render_report cid _ (view_of payload)); try assumption; try reflexivity.
  now apply typed_ready_analysis.
Qed.

Lemma views_retries os : forall n v t sp,
  Forall (fun o => pending_response o = true) os ->
  Forall (fun o => typed_outcome o = true) os ->
  views (retry_events n os ++ [FetchDone 0 (Responded code (Some payload))])
    (fetching cid v t n sp)
  = rendered (fetching cid v t n sp)
    :: (repeat PendingCard (2 * List.length os)
        ++ [Report (or_null (get payload "analysis"))])%list.
Proof.
  pose proof (is_text_exclusive _ "ready" "pending" ltac:(discriminate) Hready) as Hnp.
  induction os as [|o os IH]; intros n v t sp Hall Htyped.
  - change (2 * List.length (@nil outcome)) with 0.
    cbn [retry_events app views repeat].
    rewrite (fetching_settled cid _ _ _ _ code payload Hok Htr Hnp).
    f_equal. f_equal. unfold rendered. now rewrite report_rendered.
  - inversion Hall as [|? ? Ho Hall']; subst.
    inversion Htyped as [|? ? Hto Htyped']; subst.
    apply pending_response_inv in Ho as (code1 & p1 & -> & Hok1 & Ht1 & Hp1).
    simpl in Hto. pose proof (typed_pending_reads p1 Hto) as Hr1.
    replace (2 * List.length (Responded code1 (Some p1) :: os))
      with (S (S (2 * List.length os))) by (simpl; lia).
    cbn [retry_events app views repeat].
    rewrite (fetching_pending cid _ _ _ _ code1 p1 Hok1 Ht1 Hp1).
    rewrite waiting_fires. rewrite (IH _ _ _ _ Hall' Htyped').
    f_equal. f_equal; [|f_equal].
    + now apply (rendered_pending cid _ (view_of p1)).
    + now apply (rendered_pending cid _ (view_of p1)).
Qed.

Lemma run_retries os : forall n v t sp,
  Forall (fun o => pending_response o = true) os ->
  run (retry_events n os ++ [FetchDone 0 (Responded code (Some payload))])
    (fetching cid v t n sp)
  = Some (resting cid (view_of payload) (n + List.length os)).
Proof.
  pose proof (is_text_exclusive _ "ready" "pending" ltac:(discriminate) Hready) as Hnp.
  induction os as [|o os IH]; intros n v t sp Hall.
  - cbn [retry_events app run List.length].
    rewrite (fetching_settled cid _ _ _ _ code payload Hok Htr Hnp).
    now rewrite Nat.add_0_r.
  - inversion Hall as [|? ? Ho Hall']; subst.
    apply pending_response_inv in Ho as (code1 & p1 & -> & Hok1 & Ht1 & Hp1).
    cbn [retry_events app run List.length].
    rewrite (fetching_pending cid _ _ _ _ code1 p1 Hok1 Ht1 Hp1).
    rewrite waiting_fires. rewrite (IH _ _ _ _ Hall'). f_equal. f_equal. lia.
Qed.

End Retries.

(** X17. However many times the backend answers "pending" before the
    report is ready, every answer of the type the page declares for it,
    the page goes loader, then the pending card (once per answer and once
    per retry), then the report, no render ending in a throw; a consumer
    sees loader, pending (if there was any pending answer), report. One
    timer was scheduled per pending answer, and in the end no timer is
    left, no request is in flight, and the page renders the report with
    the score of the confidence text. *)
Theorem any_number_of_pending_answers (cid : string) (os : list outcome) (code : Z)
    (payload summary : json) (confidence : string) :
  cid <> "" ->
  Forall (fun o => pending_response o = true) os ->
  Forall (fun o => typed_outcome o = true) os ->
  ok code = true -> truthy payload = true ->
  is_text (get payload "status") "ready" = true ->
  truthy (or_null (get payload "analysis")) = true ->
  typed_response payload = true ->
  get (or_null (get payload "analysis")) "case_summary" = Some summary ->
  get summary "user_confidence" = Some (JStr confidence) ->
  let es := (retry_events 1 os ++ [FetchDone 0 (Responded code (Some payload))])%list in
  views es (mount (Some cid))
  = LoaderCard :: (repeat PendingCard (2 * List.length os)
                   ++ [Report (or_null (get payload "analysis"))])%list
  /\ render_states (views es (mount (Some cid)))
     = LoaderCard :: ((match os with [] => [] | _ => [PendingCard] end)
                      ++ [Report (or_null (get payload "analysis"))])%list
  /\ exists c, run es (mount (Some cid)) = Some c
       /\ timers c = [] /\ inflight c = []
       /\ next_timer c = S (List.length os)
       /\ score c = Normal (confidenceScore confidence)
       /\ render c = Normal (Report (or_null (get payload "analysis"))).
Proof.
  intros Hcid Hall Htyped Hok Htr Hready Han Hty Hsum Hconf es.
  assert (Hviews : views es (mount (Some cid))
                   = LoaderCard :: (repeat PendingCard (2 * List.length os)
                       ++ [Report (or_null (get payload "analysis"))])%list).
  { subst es. rewrite (mount_present cid Hcid).
    rewrite (views_retries cid Hcid code payload Hok Htr Hready Han Hty os _ _ _ _ Hall Htyped).
    f_equal. now apply rendered_loader. }
  split; [exact Hviews|]. split.
  - rewrite Hviews. destruct os as [|o os']; [reflexivity|].
    replace (2 * List.length (o :: os')) with (S (S (2 * List.length os')))
      by (simpl; lia).
    change (LoaderCard
            :: (repeat PendingCard (S (S (2 * List.length os')))
                ++ [Report (or_null (get payload "analysis"))]))%list
      with (LoaderCard
            :: PendingCard
            :: (repeat PendingCard (S (2 * List.length os'))
                ++ [Report (or_null (get payload "analysis"))]))%list.
    cbn [render_states same_card].
    change (PendingCard
            :: (repeat PendingCard (S (2 * List.length os'))
                ++ [Report (or_null (get payload "analysis"))]))%list
      with (repeat PendingCard (S (S (2 * List.length os')))
            ++ [Report (or_null (get payload "analysis"))])%list.
    now rewrite render_states_pending.
  - exists (resting cid (view_of payload) (1 + List.length os)). split.
    + subst es. rewrite (mount_present cid Hcid).
      apply (run_retries cid code payload Hok Htr Hready os _ _ _ _ Hall).
    + assert (Hscore : score (resting cid (view_of payload) (1 + List.length os))
                       = Normal (confidenceScore confidence)).
      { unfold score, readyAnalysis. simpl. rewrite Hready, Han, Hsum.
        destruct summary; try (now rewrite Hconf).
        unfold get in Hconf. simpl in Hconf. now rewrite lookup_empty in Hconf. }
      repeat split; [exact Hscore|].
      now apply report_rendered.
Qed.

Lemma any_number_of_pending_answers_witness :
  render_states
    (views (retry_events 1 [Responded 200 (Some pending_payload);
                            Responded 200 (Some pending_payload);
                            Responded 200 (Some pending_payload)]
            ++ [FetchDone 0 (Responded 200 (Some report_payload))])
       (mount (Some "c1")))
  = [LoaderCard; PendingCard; Report (or_null (get report_payload "analysis"))].
Proof.
  assert (Hp : pending_response (Responded 200 (Some pending_payload)) = true) by reflexivity.
  assert (Hpt : typed_outcome (Responded 200 (Some pending_payload)) = true) by reflexivity.
  assert (Hr : is_text (get report_payload "status") "ready" = true) by reflexivity.
  assert (Ha : truthy (or_null (get report_payload "analysis")) = true) by reflexivity.
  assert (Hty : typed_response report_payload = true) by reflexivity.
  assert (Hs : get (or_null (get report_payload "analysis")) "case_summary"
               = Some (JObj {[ "case_type" := JStr "Market entry";
                               "overall_summary" := JStr "A structured opening.";
                               "user_confidence" := JStr "High" ]})) by reflexivity.
  assert (Hc : get (JObj {[ "case_type" := JStr "Market entry";
                            "overall_summary" := JStr "A structured opening.";
                            "user_confidence" := JStr "High" ]}) "user_confidence"
               = Some (JStr "High")) by reflexivity.
  apply (any_number_of_pending_answers "c1"
           [Responded 200 (Some pending_payload); Responded 200 (Some pending_payload);
            Responded 200 (Some pending_payload)] 200 report_payload
           (JObj {[ "case_type" := JStr "Market entry";
                    "overall_summary" := JStr "A structured opening.";
                    "user_confidence" := JStr "High" ]}) "High");
    [discriminate | repeat constructor; exact Hp | repeat constructor; exact Hpt
    | reflexivity | reflexivity | exact Hr | exact Hty | exact Ha | exact Hs | exact Hc].
Defined.


Lemma confidenceScore_range s : confidenceScore s ∈ [35; 85; 60]%Z.
Proof.
  unfold confidenceScore.
  destruct (includes (toLowerCase s) "low"); [set_solver|].
  destruct (includes (toLowerCase s) "high"); set_solver.
Qed.

(** X18. The confidence gauge. Without a ready report the score is 0
    and the render is what [renderContent] comes to. With one, the score has a value exactly
    when the report's [case_summary] has a text under [user_confidence],
    and the value is that text's confidence score (35, 60 or 85); with a
    ready report that lacks it, computing the score throws and the
    render throws with it. *)
Theorem score_of_ready_report (c : component) :
  (truthy (readyAnalysis c) = false ->
   score c = Normal 0%Z /\ render c = Normal (renderContent c))
  /\ (truthy (readyAnalysis c) = true ->
      (forall z, score c = Normal z <->
         exists summary confidence,
           get (readyAnalysis c) "case_summary" = Some summary
           /\ get summary "user_confidence" = Some (JStr confidence)
           /\ z = confidenceScore confidence)
      /\ ((forall summary confidence,
             get (readyAnalysis c) "case_summary" = Some summary ->
             get summary "user_confidence" <> Some (JStr confidence)) ->
          exists e, score c = Throw e /\ render c = Throw e))
  /\ (forall z, score c = Normal z -> z ∈ [0; 35; 85; 60]%Z).
Proof.
  unfold render, score. split; [now intros ->|]. split.
  - intros ->. split.
    + intros z. split.
      * destruct (get (readyAnalysis c) "case_summary") as [summary|]; [|discriminate].
        destruct summary; try discriminate;
          (destruct (get _ "user_confidence") as [[]|] eqn:E; try discriminate);
          intros [= <-]; eauto.
      * intros (summary & confidence & -> & Hc & ->).
        destruct summary; try (rewrite Hc; reflexivity).
        unfold get in Hc. simpl in Hc. now rewrite lookup_empty in Hc.
    + intros Hno.
      destruct (get (readyAnalysis c) "case_summary") as [summary|] eqn:Hs;
        [|eexists; split; reflexivity].
      destruct summary; try (eexists; split; reflexivity);
        (destruct (get _ "user_confidence") as [[]|] eqn:E;
         try (eexists; split; reflexivity));
        exfalso; eapply Hno; eauto.
  - intros z. destruct (truthy (readyAnalysis c)); [|intros [= <-]; set_solver].
    destruct (get (readyAnalysis c) "case_summary") as [summary|]; [|discriminate].
    destruct summary; try discriminate;
      (destruct (get _ "user_confidence") as [[]|]; try discriminate);
      intros [= <-]; apply elem_of_cons; right; apply confidenceScore_range.
Qed.

Lemma score_of_ready_report_witness :
  score (resting "c1" (view_of ready_payload) 1) = Throw (ErrorObj type_error_message).
Proof.
  assert (Ht : truthy (readyAnalysis (resting "c1" (view_of ready_payload) 1)) = true)
    by reflexivity.
  destruct (proj2 (proj1 (proj2 (score_of_ready_report
                                   (resting "c1" (view_of ready_payload) 1))) Ht))
    as (e & He & _).
  - intros summary confidence Hs. vm_compute in Hs. discriminate.
  - rewrite He. vm_compute in He. injection He as <-. reflexivity.
Defined.

End AnalysisPageFacts.

(* ===================================================================== *)
(** ** Facts: the analysis page behind its route *)
(* ===================================================================== *)

Module AnalysisWireFacts.
Import Js Boundary Gateway Wire Reconciler AnalysisPage.
Import GatewayFacts ReconcilerFacts AnalysisPageFacts.

Lemma unreachable_text e :
  failure_message (unreachable_envelope e) = "Unable to reach backend service".
Proof. destruct e; reflexivity. Qed.

(** X19. When the upstream cannot be reached, the analysis route answers
    502 with its envelope, and the analysis page that gets this answer
    for a request of its current run shows the error card with the
    route's message; nothing is left that would ask again. *)
Theorem backend_down_shows_error_card (env : option string) (enc : string -> string)
    (backend : Boundary.request -> outcome) (conv : option string) (q : Boundary.request)
    (e : thrown) (cid : option string) (es : list event) (c : component) (k : nat)
    (rq : request) :
  upstream_request env enc (GetAnalysis conv) = Some q ->
  backend q = Rejected e ->
  run es (mount cid) = Some c ->
  inflight c !! k = Some rq ->
  cancelled (req_owner rq) c = false ->
  exists resp c', handle env enc backend (GetAnalysis conv) = Normal resp
    /\ res_status resp = 502%Z
    /\ step (FetchDone k (delivered resp)) c = Some c'
    /\ render c' = Normal (ErrorCard "Unable to reach backend service")
    /\ timers c' = [] /\ live_requests c' = [].
Proof.
  intros Hq Hb Hrun Hk Hc. rewrite (handle_unreachable _ _ _ _ _ _ Hq Hb).
  set (resp := {| res_status := 502; res_body := unreachable_envelope e |}).
  assert (Hf : failed (delivered resp) = true) by reflexivity.
  assert (Ht : error_text (delivered resp) = "Unable to reach backend service")
    by apply unreachable_text.
  destruct (failure_render cid es c k rq (delivered resp) Hrun Hk Hc Hf)
    as (c' & Hs & Hr & Htim & Hl); [rewrite Ht; discriminate|].
  exists resp, c'. rewrite Ht in Hr. repeat split; assumption.
Qed.

Lemma backend_down_shows_error_card_witness :
  exists resp c',
    handle None (fun s => s) (fun _ => Rejected (ErrorObj "fetch failed"))
      (GetAnalysis (Some "c1")) = Normal resp
    /\ res_status resp = 502%Z
    /\ step (FetchDone 0 (delivered resp)) (mount (Some "c1")) = Some c'
    /\ render c' = Normal (ErrorCard "Unable to reach backend service")
    /\ timers c' = [] /\ live_requests c' = [].
Proof.
  assert (Hq : upstream_request None (fun s => s) (GetAnalysis (Some "c1"))
               = Some {| url := "http://localhost:8000/api/interviews/c1/analysis";
                         method := None; body := None |}) by reflexivity.
  assert (Hrun : run [] (mount (Some "c1")) = Some (mount (Some "c1"))) by reflexivity.
  assert (Hk : inflight (mount (Some "c1")) !! 0
               = Some {| req_owner := 0; withSpinner := true |}) by reflexivity.
  assert (Hc : cancelled 0 (mount (Some "c1")) = false) by reflexivity.
  exact (backend_down_shows_error_card None (fun s => s)
           (fun _ => Rejected (ErrorObj "fetch failed")) (Some "c1") _
           (ErrorObj "fetch failed") (Some "c1") [] _ 0 _ Hq eq_refl Hrun Hk Hc).
Defined.

(** X20. When the upstream answers the analysis route with something
    that is not JSON, the route puts its "Unexpected backend response"
    envelope under the upstream's status. Behind a success status the
    page takes the envelope for an analysis without status and shows the
    "no analysis data" card; behind any other status it shows the error
    card with the envelope's message. Either way nothing is left that
    would ask again. *)
Theorem non_json_upstream_on_analysis_page (env : option string) (enc : string -> string)
    (backend : Boundary.request -> outcome) (conv : option string) (q : Boundary.request)
    (status : Z) (cid : option string) (es : list event) (c : component) (k : nat)
    (rq : request) :
  upstream_request env enc (GetAnalysis conv) = Some q ->
  backend q = Responded status None ->
  accepts_body status = true ->
  run es (mount cid) = Some c ->
  inflight c !! k = Some rq ->
  cancelled (req_owner rq) c = false ->
  exists resp c', handle env enc backend (GetAnalysis conv) = Normal resp
    /\ res_status resp = status
    /\ step (FetchDone k (delivered resp)) c = Some c'
    /\ render c'
       = Normal (if ok status then NoDataCard
                 else ErrorCard "Unexpected backend response")
    /\ timers c' = [] /\ live_requests c' = [].
Proof.
  intros Hq Hb Ha Hrun Hk Hc. rewrite (handle_not_json _ _ _ _ _ _ Hq Hb Ha).
  set (resp := {| res_status := status; res_body := parseJsonResponse None |}).
  exists resp. destruct (ok status) eqn:Hok.
  - assert (Htr : truthy (parseJsonResponse None) = true) by reflexivity.
    assert (Hnp : is_text (get (parseJsonResponse None) "status") "pending" = false)
      by reflexivity.
    assert (Hnr : is_text (get (parseJsonResponse None) "status") "ready" = false)
      by reflexivity.
    destruct (settled_without_report cid es c k rq status (parseJsonResponse None)
                Hrun Hk Hc Hok Htr Hnp (or_introl Hnr))
      as (c' & Hs & _ & Hr & _ & Htim & Hl).
    exists c'. repeat split; assumption.
  - assert (Hf : failed (delivered resp) = true) by (simpl; now rewrite Hok).
    assert (Ht : error_text (delivered resp) = "Unexpected backend response")
      by reflexivity.
    destruct (failure_render cid es c k rq (delivered resp) Hrun Hk Hc Hf)
      as (c' & Hs & Hr & Htim & Hl); [rewrite Ht; discriminate|].
    exists c'. rewrite Ht in Hr. repeat split; assumption.
Qed.

Lemma non_json_upstream_on_analysis_page_witness :
  exists resp c',
    handle None (fun s => s) (fun _ => Responded 200 None) (GetAnalysis (Some "c1"))
    = Normal resp
    /\ res_status resp = 200%Z
    /\ step (FetchDone 0 (delivered resp)) (mount (Some "c1")) = Some c'
    /\ render c' = Normal NoDataCard
    /\ timers c' = [] /\ live_requests c' = [].
Proof.
  assert (Hq : upstream_request None (fun s => s) (GetAnalysis (Some "c1"))
               = Some {| url := "http://localhost:8000/api/interviews/c1/analysis";
                         method := None; body := None |}) by reflexivity.
  assert (Hrun : run [] (mount (Some "c1")) = Some (mount (Some "c1"))) by reflexivity.
  assert (Hk : inflight (mount (Some "c1")) !! 0
               = Some {| req_owner := 0; withSpinner := true |}) by reflexivity.
  assert (Hc : cancelled 0 (mount (Some "c1")) = false) by reflexivity.
  assert (Ha : accepts_body 200 = true) by reflexivity.
  exact (non_json_upstream_on_analysis_page None (fun s => s)
           (fun _ => Responded 200 None) (Some "c1") _ 200 (Some "c1") [] _ 0 _
           Hq eq_refl Ha Hrun Hk Hc).
Defined.

End AnalysisWireFacts.

(* ===================================================================== *)
(** ** Facts: the company page behind its routes *)
(* ===================================================================== *)

Module CompanyWireFacts.
Import Js Boundary Gateway Wire Polling CompanyPage.
Import GatewayFacts PollingFacts.

Lemma unreachable_banner e fallback :
  failure_message (unreachable_envelope e) fallback = "Unable to reach backend service".
Proof. destruct e; reflexivity. Qed.

(** X21. When the upstream cannot be reached, the route for creating a
    session and the route for starting the agent answer 502 with the
    envelope, and the company page that gets this answer leaves its busy
    state, keeps its session and its polling as they are, and shows the
    route's message in the banner. *)
Theorem backend_down_fills_banner (env : option string) (enc : string -> string)
    (backend : Boundary.request -> outcome) (r : inbound) (q : Boundary.request)
    (e : thrown) (p : page) (k : nat) (rq : request) :
  upstream_request env enc r = Some q ->
  backend q = Rejected e ->
  inflight p !! k = Some rq ->
  route_of rq r = true ->
  exists resp p', handle env enc backend r = Normal resp
    /\ res_status resp = 502%Z
    /\ step (Response k (delivered resp)) p = Some p'
    /\ errorMessage p' = Some "Unable to reach backend service"
    /\ session p' = session p /\ interval p' = interval p
    /\ status_fetches p' = status_fetches p
    /\ (rq = ReqCreate -> isCreatingSession p' = false)
    /\ (rq = ReqStart -> isStartingBot p' = false).
Proof.
  intros Hq Hb Hk Hroute. rewrite (handle_unreachable _ _ _ _ _ _ Hq Hb).
  exists {| res_status := 502; res_body := unreachable_envelope e |}.
  unfold delivered. simpl. rewrite Hk.
  destruct rq as [| | sid]; [| |destruct r as [[?|]| |]; discriminate].
  - unfold handleCreateSession_resume. simpl. rewrite unreachable_banner.
    eexists. split; [reflexivity|]. split; [reflexivity|]. split; [reflexivity|].
    simpl. repeat split; discriminate.
  - unfold handleStartBot_resume. simpl. rewrite unreachable_banner.
    eexists. split; [reflexivity|]. split; [reflexivity|]. split; [reflexivity|].
    simpl. repeat split; discriminate.
Qed.

Lemma backend_down_fills_banner_witness :
  exists resp p',
    handle None (fun s => s) (fun _ => Rejected NotAnError)
      (CreateSession (Some (JObj {[ "companySlug" := JStr "bain-company" ]}))) = Normal resp
    /\ res_status resp = 502%Z
    /\ step (Response 0 (delivered resp)) (page_after [ClickCreate]) = Some p'
    /\ errorMessage p' = Some "Unable to reach backend service".
Proof.
  assert (Hq : upstream_request None (fun s => s)
                 (CreateSession (Some (JObj {[ "companySlug" := JStr "bain-company" ]})))
               = Some {| url := "http://localhost:8000/api/sessions"; method := Some "POST";
                         body := Some (JObj {[ "companySlug" := JStr "bain-company" ]}) |})
    by reflexivity.
  assert (Hk : inflight (page_after [ClickCreate]) !! 0 = Some ReqCreate) by reflexivity.
  destruct (backend_down_fills_banner None (fun s => s) (fun _ => Rejected NotAnError)
              _ _ NotAnError _ 0 ReqCreate Hq eq_refl Hk eq_refl)
    as (resp & p' & H1 & H2 & H3 & H4 & _).
  exists resp, p'. repeat split; assumption.
Defined.

(** X22. When the upstream answers the request to create a session with
    a success status and a body that is not JSON, the route's
    "Unexpected backend response" envelope comes back under that status,
    and the page takes the envelope for the new session: no error is
    raised in the banner, the session has no id and no status, so the
    page shows the generic status text, offers neither the agent nor the
    analysis, and does not poll. *)
Theorem non_json_success_becomes_session (env : option string) (enc : string -> string)
    (backend : Boundary.request -> outcome) (body : option json) (q : Boundary.request)
    (status : Z) (n : nat) (es : list event) (p : page) (k : nat) :
  upstream_request env enc (CreateSession body) = Some q ->
  backend q = Responded status None ->
  ok status = true ->
  accepts_body status = true ->
  run es (initial n) = Some p ->
  inflight p !! k = Some ReqCreate ->
  exists resp p', handle env enc backend (CreateSession body) = Normal resp
    /\ step (Response k (delivered resp)) p = Some p'
    /\ session p' = Some (JObj {[ "message" := JStr "Unexpected backend response" ]})
    /\ errorMessage p' = errorMessage p
    /\ isCreatingSession p' = false
    /\ statusDescription (session p') = Some (Text "Updating session...")
    /\ canStartBot (session p') = false
    /\ canViewAnalysis (session p') = false
    /\ interval p' = None.
Proof.
  intros Hq Hb Hok Ha Hrun Hk. rewrite (handle_not_json _ _ _ _ _ _ Hq Hb Ha).
  pose proof (reachable_synced _ _ _ Hrun) as Hsync.
  set (resp := {| res_status := status; res_body := parseJsonResponse None |}).
  destruct (step (Response k (delivered resp)) p) as [p'|] eqn:Hstep.
  - exists resp, p'. split; [reflexivity|]. split; [exact Hstep|].
    pose proof (synced_step _ _ _ Hsync Hstep) as Hsync'.
    simpl in Hstep. rewrite Hk in Hstep. unfold handleCreateSession_resume in Hstep.
    simpl in Hstep. rewrite Hok in Hstep. simpl in Hstep. injection Hstep as Hp'.
    assert (Hs : session p'
                 = Some (JObj {[ "message" := JStr "Unexpected backend response" ]})).
    { rewrite <- Hp'. simpl. now rewrite setSession_session. }
    assert (He : errorMessage p' = errorMessage p).
    { rewrite <- Hp'.
      exact (proj1 (setSession_frame (fun _ => Some (parseJsonResponse None))
                      (remove_request k p))). }
    assert (Hc : isCreatingSession p' = false) by (rewrite <- Hp'; reflexivity).
    unfold synced in Hsync'. rewrite Hs in *.
    repeat match goal with |- _ /\ _ => split end; try reflexivity; try assumption.
    destruct (interval p') as [t|]; [|reflexivity].
    destruct Hsync' as (Hw & _). discriminate Hw.
  - exfalso. simpl in Hstep. rewrite Hk in Hstep.
    destruct (handleCreateSession_resume_normal (delivered resp) (remove_request k p))
      as (x & Hx & _).
    rewrite Hx in Hstep. discriminate.
Qed.

Lemma non_json_success_becomes_session_witness :
  exists resp p',
    handle None (fun s => s) (fun _ => Responded 200 None)
      (CreateSession (Some (JObj {[ "companySlug" := JStr "bain-company" ]}))) = Normal resp
    /\ step (Response 0 (delivered resp)) (page_after [ClickCreate]) = Some p'
    /\ session p' = Some (JObj {[ "message" := JStr "Unexpected backend response" ]})
    /\ errorMessage p' = None
    /\ interval p' = None.
Proof.
  assert (Hq : upstream_request None (fun s => s)
                 (CreateSession (Some (JObj {[ "companySlug" := JStr "bain-company" ]})))
               = Some {| url := "http://localhost:8000/api/sessions"; method := Some "POST";
                         body := Some (JObj {[ "companySlug" := JStr "bain-company" ]}) |})
    by reflexivity.
  assert (Hrun : run [ClickCreate] (initial 1) = Some (page_after [ClickCreate]))
    by reflexivity.
  assert (Hk : inflight (page_after [ClickCreate]) !! 0 = Some ReqCreate) by reflexivity.
  assert (Ha : accepts_body 200 = true) by reflexivity.
  assert (Hok : ok 200 = true) by reflexivity.
  destruct (non_json_success_becomes_session None (fun s => s) (fun _ => Responded 200 None)
              _ _ 200 1 [ClickCreate] _ 0 Hq eq_refl Hok Ha Hrun Hk)
    as (resp & p' & H1 & H2 & H3 & H4 & _ & _ & _ & _ & H5).
  exists resp, p'. repeat split; assumption.
Defined.

End CompanyWireFacts.
